(** * vefcel-sw: navigation tracker page script and service worker

    A shallow embedding of the two scripts of the repository:
    - the page script (key codec, push subscription, navigation report);
    - [service-worker.js] (install / activate / fetch / push listeners).

    Platform primitives (the network, the push service, [atob], the cache
    storage, URL parsing) are not code of the repository: they appear as an
    explicit environment and world, and [atob] follows the forgiving-base64
    decoding of the HTML standard.

    Conventions.  A piece of script is a function from the world to a
    result, the next world and the effects it issued, in order.  Within one
    listener a promise that is awaited, or started and left alone, is run
    at the place where the script starts it, so the effects of a listener
    appear in program order.  Listeners may overlap where it matters for
    the state they share: a call of [subscribeUserToPush] is cut at the
    [await] between [getSubscription()] and [subscribe()], and a schedule
    says what runs in between ([System.schedule]); the listeners that never
    touch the subscriptions run undivided.  JavaScript strings are strings
    of 8-bit characters. *)

From Stdlib Require Import ZArith Lia ZifyNat List Bool Ascii String.
From stdpp Require Import base option strings pretty gmap.
Import ListNotations.

Set Warnings "-register-all".
Local Open Scope string_scope.
Local Open Scope list_scope.
Local Open Scope nat_scope.

(** ** JavaScript strings and values *)

Module JS.

(** [s.length], [s + t], [c.repeat(n)] for a one-character [c]. *)
Definition repeat (c : ascii) (n : nat) : string :=
  string_of_list_ascii (List.repeat c n).

(** [s.replace(/c/g, d)] for single characters [c] and [d]. *)
Fixpoint replace_all (c d : ascii) (s : string) : string :=
  match s with
  | EmptyString => EmptyString
  | String x r => String (if Ascii.eqb x c then d else x) (replace_all c d r)
  end.

(** [s.startsWith(p)]. *)
Definition startsWith (s p : string) : bool := String.prefix p s.

(** [s.endsWith(p)]. *)
Definition endsWith (s p : string) : bool :=
  String.prefix (String.rev p) (String.rev s).

(** [s.includes(p)]. *)
Fixpoint includes (s p : string) : bool :=
  String.prefix p s ||
  match s with
  | EmptyString => false
  | String _ r => includes r p
  end.

(** [s.substring(0, n)]. *)
Definition substring0 (n : nat) (s : string) : string := String.substring 0 n s.

(** Values that cross the script boundaries: parsed JSON, message
    payloads, request bodies.  Numbers are kept as integers: the scripts
    only test them for truthiness. *)
Inductive value : Type :=
| VUndefined
| VNull
| VBool (b : bool)
| VNum (z : Z)
| VStr (s : string)
| VArr (l : list value)
| VObj (fields : list (string * value)).

(** [ToBoolean]. *)
Definition truthy (v : value) : bool :=
  match v with
  | VUndefined | VNull => false
  | VBool b => b
  | VNum z => negb (Z.eqb z 0)
  | VStr s => negb (String.eqb s "")
  | VArr _ | VObj _ => true
  end.

(** [v === s] for a string literal [s]. *)
Definition is_string (v : value) (s : string) : bool :=
  match v with VStr s' => String.eqb s' s | _ => false end.

(** [a || b]. *)
Definition or_else (a b : value) : value := if truthy a then a else b.

Fixpoint assoc (k : string) (fields : list (string * value)) : option value :=
  match fields with
  | [] => None
  | (k', v) :: r => if String.eqb k k' then Some v else assoc k r
  end.

(** [v.k] for a property name [k] that no prototype defines: [None] is the
    [TypeError] raised on [null] and [undefined]. *)
Definition get (v : value) (k : string) : option value :=
  match v with
  | VUndefined | VNull => None
  | VObj fields => Some (default VUndefined (assoc k fields))
  | _ => Some VUndefined
  end.

End JS.

(** ** The platform's [atob] (forgiving-base64 decode) and a base64url encoder *)

Module Base64.

(** Value of a character of the standard alphabet [A-Za-z0-9+/]. *)
Definition sextet_of_char (c : ascii) : option nat :=
  let n := nat_of_ascii c in
  if (65 <=? n) && (n <=? 90) then Some (n - 65)
  else if (97 <=? n) && (n <=? 122) then Some (n - 71)
  else if (48 <=? n) && (n <=? 57) then Some (n + 4)
  else if n =? 43 then Some 62
  else if n =? 47 then Some 63
  else None.

Fixpoint sextets_of_chars (l : list ascii) : option (list nat) :=
  match l with
  | [] => Some []
  | c :: r =>
      match sextet_of_char c, sextets_of_chars r with
      | Some v, Some vs => Some (v :: vs)
      | _, _ => None
      end
  end.

(** Tab, line feed, form feed, carriage return, space. *)
Definition is_ascii_whitespace (c : ascii) : bool :=
  let n := nat_of_ascii c in
  (n =? 9) || (n =? 10) || (n =? 12) || (n =? 13) || (n =? 32).

Definition pad_char : ascii := "="%char.

(** Remove one or two trailing [=]. *)
Definition strip_padding (l : list ascii) : list ascii :=
  match rev l with
  | a :: b :: r =>
      if Ascii.eqb a pad_char then
        if Ascii.eqb b pad_char then rev r else rev (b :: r)
      else l
  | [a] => if Ascii.eqb a pad_char then [] else l
  | [] => l
  end.

(** Groups of four sextets give three bytes; a rest of two sextets gives
    one byte (the last four bits are dropped), a rest of three gives two
    bytes (the last two bits are dropped). *)
Fixpoint bytes_of_sextets (l : list nat) : list nat :=
  match l with
  | a :: b :: c :: d :: r =>
      (a * 4 + b / 16) :: ((b mod 16) * 16 + c / 4) :: ((c mod 4) * 64 + d)
        :: bytes_of_sextets r
  | [a; b; c] => [a * 4 + b / 16; (b mod 16) * 16 + c / 4]
  | [a; b] => [a * 4 + b / 16]
  | _ => []
  end.

(** [window.atob]: the result is a binary string, one character per byte;
    [None] is the [InvalidCharacterError]. *)
Definition atob (data : string) : option string :=
  let d := List.filter (fun c => negb (is_ascii_whitespace c)) (list_ascii_of_string data) in
  let d := if length d mod 4 =? 0 then strip_padding d else d in
  if length d mod 4 =? 1 then None
  else
    match sextets_of_chars d with
    | None => None
    | Some vs => Some (string_of_list_ascii (map ascii_of_nat (bytes_of_sextets vs)))
    end.

(** *** Encoder with the [-]/[_] alphabet (the inverse direction, RFC 4648 §5) *)

Definition url_char (v : nat) : ascii :=
  if v <? 26 then ascii_of_nat (v + 65)
  else if v <? 52 then ascii_of_nat (v + 71)
  else if v <? 62 then ascii_of_nat (v - 4)
  else if v =? 62 then "-"%char
  else "_"%char.

Fixpoint sextets_of_bytes (l : list nat) : list nat :=
  match l with
  | x :: y :: z :: r =>
      (x / 4) :: ((x mod 4) * 16 + y / 16) :: ((y mod 16) * 4 + z / 64) :: (z mod 64)
        :: sextets_of_bytes r
  | [x; y] => [x / 4; (x mod 4) * 16 + y / 16; (y mod 16) * 4]
  | [x] => [x / 4; (x mod 4) * 16]
  | [] => []
  end.

(** Unpadded base64url text of a byte sequence. *)
Definition encode_url (bytes : list nat) : string :=
  string_of_list_ascii (map url_char (sextets_of_bytes bytes)).

(** Padded base64url text of a byte sequence. *)
Definition encode_url_padded (bytes : list nat) : string :=
  let s := encode_url bytes in
  s +:+ JS.repeat pad_char ((4 - String.length s mod 4) mod 4).

(** The character seen by [atob] after the two [replace] calls. *)
Definition translate (c : ascii) : ascii :=
  let c1 := if Ascii.eqb c "-"%char then "+"%char else c in
  if Ascii.eqb c1 "_"%char then "/"%char else c1.

End Base64.

(** ** Platform objects, world and effects *)

Module Platform.
Import JS.

(** A parsed URL ([new URL(...)]). *)
Record URL := { href : string; origin : string; hostname : string; pathname : string }.

(** [event.request]: [event.request.url] is [href (req_url r)]. *)
Record Request :=
  { req_url : URL; req_method : string; req_mode : string; req_referrer : string }.

(** A response; [resp_json] is the result of [.json()], [None] when the
    body does not parse. *)
Record Response := { resp_ok : bool; resp_body : string; resp_json : option value }.

Record PushSubscription := { endpoint : string; p256dh : string; auth : string }.

(** What [JSON.stringify] sees of a subscription ([toJSON]). *)
Definition subscription_value (s : PushSubscription) : value :=
  VObj [("endpoint", VStr (endpoint s)); ("expirationTime", VNull);
        ("keys", VObj [("p256dh", VStr (p256dh s)); ("auth", VStr (auth s))])].

Record Client := { client_id : nat; client_url : string }.

(** Observable actions of the scripts, in the order they are issued. *)
Inductive effect : Type :=
| PanelLog (line : string)
| ConsoleLog (line : string)
| PostMessage (to : Client) (data : value)
| Fetch (url method : string) (body : value)
| Subscribe (userVisibleOnly : bool) (applicationServerKey : list nat)
| ShowNotification (title options : value)
| SetStatus (text : string)
| RegisterWorker (script scope : string)
| RequestPermission
| SkipWaiting
| ClientsClaim
| CloseNotification
| Focus (c : Client)
| OpenWindow (url : value)
| CacheDelete (name : string)
| CachePut (name url : string).

(** A cache bucket: responses keyed by request URL. *)
Abbreviation Cache := (gmap string Response).

(** Mutable platform state shared by the page and the worker. *)
Record World := {
  localStorage : gmap string string;
  subscriptions : list PushSubscription;   (* active push subscriptions of the registration *)
  caches : list (string * Cache);          (* cache storage, in creation order *)
  controlled : list Client;                (* clients controlled by the worker *)
  tick : nat                               (* number of platform answers consumed so far *)
}.

Definition set_localStorage (f : gmap string string -> gmap string string) (w : World) :=
  {| localStorage := f (localStorage w); subscriptions := subscriptions w;
     caches := caches w; controlled := controlled w; tick := tick w |}.
Definition set_subscriptions (f : list PushSubscription -> list PushSubscription) (w : World) :=
  {| localStorage := localStorage w; subscriptions := f (subscriptions w);
     caches := caches w; controlled := controlled w; tick := tick w |}.
Definition set_caches (f : list (string * Cache) -> list (string * Cache)) (w : World) :=
  {| localStorage := localStorage w; subscriptions := subscriptions w;
     caches := f (caches w); controlled := controlled w; tick := tick w |}.
Definition set_controlled (f : list Client -> list Client) (w : World) :=
  {| localStorage := localStorage w; subscriptions := subscriptions w;
     caches := caches w; controlled := f (controlled w); tick := tick w |}.
Definition next_tick (w : World) :=
  {| localStorage := localStorage w; subscriptions := subscriptions w;
     caches := caches w; controlled := controlled w; tick := S (tick w) |}.

(** What the scripts cannot decide: the answers of the network and of the
    push service (indexed by [tick], so they may change over time), the
    platform's JSON functions, and the page the script runs in. *)
Record Env := {
  network : nat -> string -> string -> value -> option Response;
  push_service : nat -> list nat -> option PushSubscription;
  permission : nat -> string;
  JSON_parse : string -> option value;
  JSON_stringify : value -> string;
  clock : nat -> string;
  location_href : string;
  location_origin : string;
  document_referrer : string;
  userAgent : string;
  has_serviceWorker : bool;
  has_PushManager : bool;
  has_Notification : bool;
  has_log_panel : bool;
  has_permission_button : bool;
  has_status_element : bool;         (* the page has the [status] element *)
  worker_ready : bool;               (* [navigator.serviceWorker.ready] resolves *)
  registration : string + string;    (* [register]: the scope granted, or the error *)
  window_clients : list Client
}.

(** Result of running a piece of script: a value, a thrown error (its
    text), or a promise that never settles. *)
Inductive outcome (A : Type) : Type :=
| Ok (a : A)
| Throw (error : string)
| Pending.
Arguments Ok {A} a.
Arguments Throw {A} error.
Arguments Pending {A}.

Definition M (A : Type) : Type := World -> outcome A * World * list effect.

Definition ret {A} (a : A) : M A := fun w => (Ok a, w, []).
Definition throw {A} (error : string) : M A := fun w => (Throw error, w, []).
Definition pending {A} : M A := fun w => (Pending, w, []).

Definition bind {A B} (m : M A) (k : A -> M B) : M B :=
  fun w =>
    match m w with
    | (Ok a, w1, es1) => let '(r, w2, es2) := k a w1 in (r, w2, es1 ++ es2)
    | (Throw e, w1, es1) => (Throw e, w1, es1)
    | (Pending, w1, es1) => (Pending, w1, es1)
    end.

(** [try { m } catch (error) { handler }]. *)
Definition try_catch {A} (m : M A) (handler : string -> M A) : M A :=
  fun w =>
    match m w with
    | (Throw e, w1, es1) => let '(r, w2, es2) := handler e w1 in (r, w2, es1 ++ es2)
    | r => r
    end.

Definition emit (e : effect) : M unit := fun w => (Ok tt, w, [e]).
Definition get_world : M World := fun w => (Ok w, w, []).
Definition modify (f : World -> World) : M unit := fun w => (Ok tt, f w, []).

Definition of_option {A} (error : string) (o : option A) : M A :=
  match o with Some a => ret a | None => throw error end.

Notation "'let*' x ':=' m 'in' k" := (bind m (fun x => k))
  (at level 10, x pattern, m at level 100, k at level 200).
Notation "m ';;;' k" := (bind m (fun _ => k))
  (at level 100, k at level 200, right associativity).

Fixpoint for_each {A} (l : list A) (f : A -> M unit) : M unit :=
  match l with
  | [] => ret tt
  | a :: r => f a ;;; for_each r f
  end.

(** Effects, final world and result of a run. *)
Definition effects_of {A} (m : M A) (w : World) : list effect := (m w).2.
Definition world_of {A} (m : M A) (w : World) : World := (m w).1.2.
Definition result_of {A} (m : M A) (w : World) : outcome A := (m w).1.1.

Section Primitives.
Variable env : Env.

(** [fetch(url, {method, body})]: rejects on a network error. *)
Definition fetch (url method : string) (body : value) : M Response :=
  let* w := get_world in
  emit (Fetch url method body) ;;;
  modify next_tick ;;;
  of_option "TypeError: Failed to fetch" (network env (tick w) url method body).

(** [response.json()]. *)
Definition response_json (r : Response) : M value :=
  of_option "SyntaxError: Unexpected token" (resp_json r).

(** [JSON.parse(text)]. *)
Definition parse (text : string) : M value :=
  of_option "SyntaxError: Unexpected token" (JSON_parse env text).

(** [v.k]. *)
Definition get_prop (v : value) (k : string) : M value :=
  of_option "TypeError: Cannot read properties" (get v k).

(** [pushManager.getSubscription()]. *)
Definition getSubscription : M (option PushSubscription) :=
  let* w := get_world in ret (head (subscriptions w)).

(** [registration.pushManager.getSubscription()] where the script has not
    looked for the push manager first: in a browser without push,
    [registration.pushManager] is [undefined] and reading from it throws. *)
Definition pushManager_getSubscription : M (option PushSubscription) :=
  if has_PushManager env then getSubscription
  else throw "TypeError: Cannot read properties of undefined".

(** [pushManager.subscribe(options)]: when the push service grants it, a
    further subscription is active. *)
Definition pushManager_subscribe (userVisibleOnly : bool) (key : list nat)
  : M PushSubscription :=
  let* w := get_world in
  emit (Subscribe userVisibleOnly key) ;;;
  modify next_tick ;;;
  let* s := of_option "NotAllowedError: Registration failed"
              (push_service env (tick w) key) in
  modify (set_subscriptions (fun l => l ++ [s])) ;;;
  ret s.

Definition localStorage_getItem (k : string) : M (option string) :=
  let* w := get_world in ret (localStorage w !! k).

Definition localStorage_setItem (k v : string) : M unit :=
  modify (set_localStorage (insert k v)).

(** [new Date().toISOString()]. *)
Definition now : M string :=
  let* w := get_world in ret (clock env (tick w)).

(** [self.clients.matchAll()]. *)
Definition clients_matchAll : M (list Client) :=
  let* w := get_world in ret (controlled w).

(** [caches.keys()]. *)
Definition caches_keys : M (list string) :=
  let* w := get_world in ret (map fst (caches w)).

(** [caches.delete(name)]. *)
Definition caches_delete (name : string) : M unit :=
  emit (CacheDelete name) ;;;
  modify (set_caches (List.filter (fun b => negb (String.eqb (fst b) name)))).

Fixpoint put_in (name url : string) (r : Response) (l : list (string * Cache))
  : list (string * Cache) :=
  match l with
  | [] => [(name, {[ url := r ]})]
  | (n, c) :: rest =>
      if String.eqb n name then (n, <[ url := r ]> c) :: rest
      else (n, c) :: put_in name url r rest
  end.

(** [caches.open(name).then(cache => cache.put(request, response))]:
    the bucket is created when it does not exist. *)
Definition cache_put (name : string) (request : Request) (r : Response) : M unit :=
  emit (CachePut name (href (req_url request))) ;;;
  modify (set_caches (put_in name (href (req_url request)) r)).

Fixpoint match_in (url : string) (l : list (string * Cache)) : option Response :=
  match l with
  | [] => None
  | (_, c) :: rest =>
      match c !! url with
      | Some r => Some r
      | None => match_in url rest
      end
  end.

(** What [caches.match(request)] finds: the first bucket holding the URL
    answers; only [GET] requests match. *)
Definition cached (w : World) (request : Request) : option Response :=
  if String.eqb (req_method request) "GET"
  then match_in (href (req_url request)) (caches w)
  else None.

(** [caches.match(request)]. *)
Definition caches_match (request : Request) : M (option Response) :=
  let* w := get_world in ret (cached w request).

End Primitives.

End Platform.

(** ** The page script *)

Module Page.
Import JS Platform.

Definition SERVER_URL : string := "https://vercel-server-1v1v.onrender.com".

(** The key used when the server's key cannot be fetched. *)
Definition HARDCODED_VAPID_KEY : string :=
  "BG1NfrHDgwEIxe4ACqecfs0wB0T2v1DaTE45MgzZU4bovjnGKww8eSv-R8r68W_LmV3WTIzccK01C2FCwM55CLQ".

(** [urlBase64ToUint8Array]: [None] when [atob] throws. *)
Definition urlBase64ToUint8Array (base64String : string) : option (list nat) :=
  let padding := JS.repeat "="%char ((4 - String.length base64String mod 4) mod 4) in
  let base64 :=
    JS.replace_all "_"%char "/"%char
      (JS.replace_all "-"%char "+"%char (base64String +:+ padding)) in
  match Base64.atob base64 with
  | None => None
  | Some rawData => Some (map nat_of_ascii (list_ascii_of_string rawData))
  end.

(** The bytes of the hardcoded key. *)
Definition HARDCODED_KEY_BYTES : list nat :=
  Eval vm_compute in default [] (urlBase64ToUint8Array HARDCODED_VAPID_KEY).

(** An element of the document with its ancestors: tag name and [href]. *)
Record Element := { tagName : string; elem_href : string }.

(** The loop of the click listener: climb from the target to the first
    [A] or [BODY] element ([None] when the chain ends first). *)
Fixpoint climb (chain : list Element) : option Element :=
  match chain with
  | [] => None
  | e :: parents =>
      if negb (String.eqb (tagName e) "A") && negb (String.eqb (tagName e) "BODY")
      then climb parents else Some e
  end.

(** What a call of [subscribeUserToPush] holds while it waits for what
    follows [getSubscription()]: the decoded key and the subscription that
    was found. *)
Record Waiting := { waiting_key : list nat; waiting_found : option PushSubscription }.

Section Script.
Variable env : Env.

(** [log]: a line on the panel, when the page has one. *)
Definition log (message : string) : M unit :=
  if has_log_panel env then
    let* timestamp := now env in
    emit (PanelLog (timestamp +:+ ": " +:+ message))
  else ret tt.

(** [v.substring(0, 10)]: a [TypeError] unless [v] is a string. *)
Definition substring10 (v : value) : M string :=
  match v with
  | VStr s => ret (substring0 10 s)
  | _ => throw "TypeError: substring is not a function"
  end.

Definition string_of (v : value) : string :=
  match v with VStr s => s | _ => "" end.

(** [sendSubscriptionToServer]. *)
Definition sendSubscriptionToServer (subscription : PushSubscription) : M unit :=
  try_catch
    (let* response :=
       fetch env (SERVER_URL +:+ "/subscribe") "POST"
         (VObj [("subscription", subscription_value subscription);
                ("origin", VStr (location_origin env));
                ("url", VStr (location_href env))]) in
     let* data := response_json response in
     log ("Subscription sent to server: " +:+ JSON_stringify env data))
    (fun error => log ("Error sending subscription to server: " +:+ error)).

(** The inner [try] of [subscribeUserToPush]: the key of the server, or the
    hardcoded one when anything in the block throws. *)
Definition fetch_vapid_key : M string :=
  try_catch
    (let* response := fetch env (SERVER_URL +:+ "/vapidPublicKey") "GET" VUndefined in
     let* data := response_json response in
     let* vapidPublicKey := get_prop data "publicKey" in
     let* shown := substring10 vapidPublicKey in
     log ("Received VAPID public key from server: " +:+ shown +:+ "...") ;;;
     ret (string_of vapidPublicKey))
    (fun _ =>
       let vapidPublicKey := HARDCODED_VAPID_KEY in
       log ("Using hardcoded VAPID public key: " +:+ substring0 10 vapidPublicKey +:+ "...") ;;;
       ret vapidPublicKey).

(** [subscribeUserToPush]: the subscription, or [None] for [undefined]. *)
Definition subscribeUserToPush : M (option PushSubscription) :=
  if negb (has_serviceWorker env) || negb (has_PushManager env) then
    log "Push notifications not supported" ;;; ret None
  else
    try_catch
      ((if worker_ready env then ret tt else pending) ;;;
       log "Service worker is ready for push subscription" ;;;
       let* vapidPublicKey := fetch_vapid_key in
       let* applicationServerKey :=
         of_option "InvalidCharacterError: The string to be decoded is not correctly encoded"
           (urlBase64ToUint8Array vapidPublicKey) in
       let* existing := getSubscription in
       let* subscription :=
         match existing with
         | Some subscription =>
             log "User already subscribed to push notifications" ;;; ret subscription
         | None =>
             let* subscription := pushManager_subscribe env true applicationServerKey in
             log "User subscribed to push notifications" ;;; ret subscription
         end in
       sendSubscriptionToServer subscription ;;;
       localStorage_setItem "pushSubscription"
         (JSON_stringify env (subscription_value subscription)) ;;;
       ret (Some subscription))
      (fun error => log ("Error subscribing to push: " +:+ error) ;;; ret None).

(** [subscribeUserToPush] from its start to the answer of
    [getSubscription()] (lines 32 to 61): the call has ended by then
    ([inl], with its result), or it waits ([inr]).  Other listeners may run
    before it goes on. *)
Definition subscribe_lookup : M (option PushSubscription + Waiting) :=
  if negb (has_serviceWorker env) || negb (has_PushManager env) then
    log "Push notifications not supported" ;;; ret (inl None)
  else
    try_catch
      ((if worker_ready env then ret tt else pending) ;;;
       log "Service worker is ready for push subscription" ;;;
       let* vapidPublicKey := fetch_vapid_key in
       let* applicationServerKey :=
         of_option "InvalidCharacterError: The string to be decoded is not correctly encoded"
           (urlBase64ToUint8Array vapidPublicKey) in
       let* existing := getSubscription in
       ret (inr {| waiting_key := applicationServerKey; waiting_found := existing |}))
      (fun error => log ("Error subscribing to push: " +:+ error) ;;; ret (inl None)).

(** [subscribeUserToPush] from the answer of [getSubscription()] to its end
    (lines 63 to 84): the test is made on what was found then. *)
Definition subscribe_resume (call : Waiting) : M (option PushSubscription) :=
  try_catch
    (let* subscription :=
       match waiting_found call with
       | Some subscription =>
           log "User already subscribed to push notifications" ;;; ret subscription
       | None =>
           let* subscription := pushManager_subscribe env true (waiting_key call) in
           log "User subscribed to push notifications" ;;; ret subscription
       end in
     sendSubscriptionToServer subscription ;;;
     localStorage_setItem "pushSubscription"
       (JSON_stringify env (subscription_value subscription)) ;;;
     ret (Some subscription))
    (fun error => log ("Error subscribing to push: " +:+ error) ;;; ret None).

(** [logNavigationToServer] of the page. *)
Definition logNavigationToServer (url referrer : value) : M unit :=
  try_catch
    (let* subscriptionString := localStorage_getItem "pushSubscription" in
     let* subscriptionEndpoint :=
       match subscriptionString with
       | Some text =>
           if negb (String.eqb text "") then
             let* subscription := parse env text in
             get_prop subscription "endpoint"
           else ret (VStr "not-subscribed")
       | None => ret (VStr "not-subscribed")
       end in
     let* response :=
       fetch env (SERVER_URL +:+ "/log-navigation") "POST"
         (VObj [("url", url);
                ("referrer", or_else referrer (VStr (document_referrer env)));
                ("userAgent", VStr (userAgent env));
                ("subscriptionEndpoint", subscriptionEndpoint)]) in
     let* data := response_json response in
     log ("Navigation logged to server: " +:+ JSON_stringify env data))
    (fun error => log ("Error logging navigation to server: " +:+ error)).

(** The [message] listener of the page. *)
Definition on_message (data : value) : M unit :=
  log ("Message from service worker: " +:+ JSON_stringify env data) ;;;
  let* type := get_prop data "type" in
  if is_string type "navigation" then
    let* url := get_prop data "url" in
    if truthy url then
      let* referrer := get_prop data "referrer" in
      logNavigationToServer url referrer
    else ret tt
  else ret tt.

(** [statusElement.textContent = text]: a [TypeError] when the page has no
    [status] element, [statusElement] being [null] then. *)
Definition set_status (text : string) : M unit :=
  if has_status_element env then emit (SetStatus text)
  else throw "TypeError: Cannot set properties of null".

(** The [DOMContentLoaded] listener.  An assignment to the missing status
    element ends it on the spot, before the listeners that follow are
    registered.  What the [then] callback of [register] throws goes to the
    [catch] that follows it; the callback of [getSubscription()] is outside
    of both. *)
Definition on_DOMContentLoaded : M unit :=
  log ("Page loaded: " +:+ location_href env) ;;;
  logNavigationToServer (VStr (location_href env)) (VStr (document_referrer env)) ;;;
  if has_serviceWorker env then
    set_status "Service Worker Status: Supported" ;;;
    emit (RegisterWorker "/service-worker.js" "/") ;;;
    match registration env with
    | inl scope =>
        let* asked :=
          try_catch
            (log "Service worker registered successfully" ;;;
             set_status "Service Worker Status: Registered" ;;;
             log ("Scope granted: " +:+ scope) ;;;
             let* subscription := pushManager_getSubscription env in
             ret (Some subscription))
            (fun error =>
               log ("Service worker registration failed: " +:+ error) ;;;
               set_status "Service Worker Status: Registration Failed" ;;;
               ret None) in
        match asked with
        | Some (Some subscription) =>
            log "Already subscribed to push notifications" ;;;
            localStorage_setItem "pushSubscription"
              (JSON_stringify env (subscription_value subscription))
        | _ => ret tt
        end
    | inr error =>
        log ("Service worker registration failed: " +:+ error) ;;;
        set_status "Service Worker Status: Registration Failed"
    end
  else
    set_status "Service Worker Status: Not Supported" ;;;
    log "Service workers are not supported in this browser".

(** The click listener of the permission button. *)
Definition on_permission_click : M unit :=
  if has_Notification env then
    let* w := get_world in
    emit RequestPermission ;;;
    modify next_tick ;;;
    let permission := permission env (tick w) in
    log ("Notification permission: " +:+ permission) ;;;
    if String.eqb permission "granted" then
      let* _ := subscribeUserToPush in ret tt
    else ret tt
  else log "Notifications not supported in this browser".

(** The click listener of the permission button, to its end or to the point
    where its call of [subscribeUserToPush] waits. *)
Definition permission_click_lookup : M (option Waiting) :=
  if has_Notification env then
    let* w := get_world in
    emit RequestPermission ;;;
    modify next_tick ;;;
    let permission := permission env (tick w) in
    log ("Notification permission: " +:+ permission) ;;;
    if String.eqb permission "granted" then
      let* r := subscribe_lookup in
      ret (match r with inl _ => None | inr call => Some call end)
    else ret None
  else log "Notifications not supported in this browser" ;;; ret None.

(** The click listener of the document; [chain] is the clicked element
    followed by its ancestors. *)
Definition on_click (chain : list Element) : M unit :=
  match climb chain with
  | Some target =>
      if String.eqb (tagName target) "A" then
        let href := elem_href target in
        if negb (String.eqb href "") && includes href "vercel.app" then
          log ("Vercel app link clicked: " +:+ href) ;;;
          logNavigationToServer (VStr href) (VStr (location_href env))
        else ret tt
      else ret tt
  | None => ret tt
  end.

Definition on_beforeunload : M unit :=
  log ("Navigating away from: " +:+ location_href env).

Definition on_popstate : M unit :=
  log ("Navigation state changed: " +:+ location_href env) ;;;
  logNavigationToServer (VStr (location_href env)) (VStr "popstate").

End Script.

End Page.

(** ** The service worker *)

Module Worker.
Import JS Platform.

Definition VERSION : string := "v1".
Definition SERVER_URL : string := "https://vercel-server-1v1v.onrender.com".

(** [new URL(SERVER_URL).hostname]. *)
Definition SERVER_HOSTNAME : string := "vercel-server-1v1v.onrender.com".

(** [`static-cache-${VERSION}`]. *)
Definition CURRENT_CACHE : string := "static-cache-" +:+ VERSION.

Definition PRECACHED : list string :=
  ["/"; "/index.html"; "/page2.html"; "/style.css"; "/app.js"].

(** The filter of the activate listener: the buckets to delete. *)
Definition is_old_cache (cacheName : string) : bool :=
  startsWith cacheName "static-cache-" && negb (String.eqb cacheName CURRENT_CACHE).

(** The test of the fetch listener for a tracked navigation. *)
Definition is_tracked_navigation (request : Request) : bool :=
  endsWith (hostname (req_url request)) "vercel.app"
  && String.eqb (req_method request) "GET"
  && String.eqb (req_mode request) "navigate".

(** The test of the fetch listener for responses that are not cached. *)
Definition skips_cache (request : Request) : bool :=
  negb (String.eqb (req_method request) "GET")
  || includes (pathname (req_url request)) "/api/"
  || String.eqb (hostname (req_url request)) SERVER_HOSTNAME.

Definition log_message (message : string) : value :=
  VObj [("type", VStr "log"); ("message", VStr message)].

Definition navigation_message (request : Request) : value :=
  VObj [("type", VStr "navigation");
        ("url", VStr (href (req_url request)));
        ("referrer", or_else (VStr (req_referrer request)) (VStr "unknown"))].

(** A notification, as the push and notificationclick listeners see it. *)
Record Notification := { note_tag : string; note_data : value }.

Section Script.
Variable env : Env.

(** [swLog]: the console, then a [log] message to every client. *)
Definition swLog (message : string) : M unit :=
  emit (ConsoleLog ("[Service Worker " +:+ VERSION +:+ "] " +:+ message)) ;;;
  let* clients := clients_matchAll in
  for_each clients (fun client => emit (PostMessage client (log_message message))).

(** [logNavigationToServer] of the worker. *)
Definition logNavigationToServer (url referrer : value) : M value :=
  try_catch
    (let* subscriptionData := pushManager_getSubscription env in
     let subscriptionEndpoint :=
       match subscriptionData with
       | Some subscription => endpoint subscription
       | None => "not-available-in-sw"
       end in
     let* timestamp := now env in
     let* response :=
       fetch env (SERVER_URL +:+ "/log-navigation") "POST"
         (VObj [("url", url);
                ("referrer", or_else referrer (VStr "unknown"));
                ("userAgent", VStr "service-worker");
                ("subscriptionEndpoint", VStr subscriptionEndpoint);
                ("timestamp", VStr timestamp)]) in
     let* result := response_json response in
     swLog ("Navigation logged to server: " +:+ JSON_stringify env result) ;;;
     ret result)
    (fun error =>
       swLog ("Error logging navigation to server: " +:+ error) ;;;
       ret (VObj [("error", VStr error)])).

(** [cache.addAll(paths)], first half: every path is requested, whatever
    becomes of the others. *)
Fixpoint fetch_all (paths : list string) : M (list (string * option Response)) :=
  match paths with
  | [] => ret []
  | path :: rest =>
      let url := location_origin env +:+ path in
      let* response :=
        try_catch (let* r := fetch env url "GET" VUndefined in ret (Some r))
                  (fun _ => ret None) in
      let* others := fetch_all rest in
      ret ((url, response) :: others)
  end.

(** [cache.addAll(paths)], second half: the responses are stored only when
    all of them arrived with an ok status. *)
Fixpoint all_ok (responses : list (string * option Response))
  : option (list (string * Response)) :=
  match responses with
  | [] => Some []
  | (url, Some r) :: rest =>
      if resp_ok r then
        match all_ok rest with
        | Some others => Some ((url, r) :: others)
        | None => None
        end
      else None
  | (_, None) :: _ => None
  end.

Definition open_cache (name : string) (l : list (string * Cache)) : list (string * Cache) :=
  if existsb (fun b => String.eqb (fst b) name) l then l else l ++ [(name, ∅)].

(** The install listener. *)
Definition on_install : M unit :=
  swLog "Installing Service Worker" ;;;
  modify (set_caches (open_cache CURRENT_CACHE)) ;;;
  let* answers := fetch_all PRECACHED in
  let* responses := of_option "TypeError: Request failed" (all_ok answers) in
  modify (set_caches (fun l =>
    foldl (fun acc pr => put_in CURRENT_CACHE (fst pr) (snd pr) acc) l responses)) ;;;
  swLog "Static resources cached" ;;;
  emit SkipWaiting.

(** The activate listener. *)
Definition on_activate : M unit :=
  swLog "Activating Service Worker" ;;;
  let* cacheNames := caches_keys in
  for_each (List.filter is_old_cache cacheNames)
    (fun cacheName =>
       swLog ("Deleting old cache: " +:+ cacheName) ;;;
       caches_delete cacheName) ;;;
  swLog "Service Worker activated" ;;;
  emit ClientsClaim ;;;
  modify (set_controlled (fun _ => window_clients env)).

(** First part of the fetch listener: logging and navigation tracking. *)
Definition track (request : Request) : M unit :=
  let url := req_url request in
  (if negb (includes (pathname url) "/log-navigation")
      && negb (includes (pathname url) "/subscribe")
   then swLog ("Fetch event: " +:+ pathname url) else ret tt) ;;;
  if is_tracked_navigation request then
    swLog ("Vercel app navigation detected: " +:+ href url) ;;;
    let* clients := clients_matchAll in
    for_each clients
      (fun client => emit (PostMessage client (navigation_message request))) ;;;
    let* _ := logNavigationToServer (VStr (href url)) (VStr (req_referrer request)) in
    ret tt
  else ret tt.

(** Second part of the fetch listener: the argument of [respondWith]. *)
Definition respond (request : Request) : M Response :=
  let* response := caches_match request in
  match response with
  | Some response => ret response
  | None =>
      let* networkResponse :=
        fetch env (href (req_url request)) (req_method request) VUndefined in
      if skips_cache request then ret networkResponse
      else
        cache_put CURRENT_CACHE request networkResponse ;;;
        ret networkResponse
  end.

(** The fetch listener. *)
Definition on_fetch (request : Request) : M Response :=
  track request ;;; respond request.

(** The push listener; [data] is the text of [event.data], [None] when the
    event carries no data. *)
Definition on_push (data : option string) : M unit :=
  swLog "Push event received" ;;;
  let* notificationData :=
    try_catch
      (match data with
       | Some text =>
           let* notificationData := parse env text in
           swLog ("Push data: " +:+ JSON_stringify env notificationData) ;;;
           ret notificationData
       | None => ret (VObj [])
       end)
      (fun error =>
         swLog ("Error parsing push data: " +:+ error) ;;; ret (VObj [])) in
  let* title := get_prop notificationData "title" in
  let* body := get_prop notificationData "body" in
  let* icon := get_prop notificationData "icon" in
  let* badge := get_prop notificationData "badge" in
  let* tag := get_prop notificationData "tag" in
  let* url := get_prop notificationData "url" in
  let* timestamp := get_prop notificationData "timestamp" in
  let* date := now env in
  emit (ShowNotification
          (or_else title (VStr "Navigation Tracker"))
          (VObj [("body", or_else body (VStr "A new event was detected."));
                 ("icon", or_else icon (VStr "/icon-192x192.png"));
                 ("badge", or_else badge (VStr "/badge.png"));
                 ("tag", or_else tag (VStr "default"));
                 ("data", VObj [("url", or_else url (VStr "/"));
                                ("timestamp", or_else timestamp (VStr date))])])).

Fixpoint find_client (url : value) (clients : list Client) : option Client :=
  match clients with
  | [] => None
  | client :: rest =>
      match url with
      | VStr u => if String.eqb (client_url client) u then Some client
                  else find_client url rest
      | _ => find_client url rest
      end
  end.

(** The notificationclick listener. *)
Definition on_notificationclick (notification : Notification) : M unit :=
  swLog ("Notification clicked: " +:+ note_tag notification) ;;;
  emit CloseNotification ;;;
  let* url := get_prop (note_data notification) "url" in
  let urlToOpen := or_else url (VStr "/") in
  match find_client urlToOpen (window_clients env) with
  | Some client => emit (Focus client)
  | None => emit (OpenWindow urlToOpen)
  end.

(** The message listener. *)
Definition on_message (data : value) : M unit :=
  swLog ("Message received from client: " +:+ JSON_stringify env data) ;;;
  let* type := get_prop data "type" in
  if is_string type "log-navigation" then
    let* url := get_prop data "url" in
    if truthy url then
      let* referrer := get_prop data "referrer" in
      let* _ := logNavigationToServer url referrer in ret tt
    else ret tt
  else ret tt.

(** The clientschanged listener. *)
Definition on_clientschanged : M unit :=
  swLog "Clients changed event detected" ;;;
  let* clients := clients_matchAll in
  swLog ("Number of clients: " +:+ pretty (length clients)) ;;;
  for_each clients (fun client => swLog ("Client URL: " +:+ client_url client)).

End Script.

End Worker.

(** ** The operations of the system *)

Module System.
Import JS Platform.

(** Every listener of the two scripts, with the data of its event. *)
Inductive operation : Type :=
| PageLoaded
| PageMessage (data : value)
| PermissionClick
| DocumentClick (chain : list Page.Element)
| BeforeUnload
| PopState
| SubscribeUserToPush
| Install
| Activate
| FetchEvent (request : Request)
| PushEvent (data : option string)
| NotificationClick (notification : Worker.Notification)
| WorkerMessage (data : value)
| ClientsChanged.

Definition run (env : Env) (op : operation) : M unit :=
  match op with
  | PageLoaded => Page.on_DOMContentLoaded env
  | PageMessage data =>
      (* the load listener registers this one where service workers exist,
         after its first status line *)
      if has_serviceWorker env && has_status_element env
      then Page.on_message env data else ret tt
  | PermissionClick =>
      (* registered when the page has the button, after the status lines *)
      if has_permission_button env && has_status_element env
      then Page.on_permission_click env else ret tt
  | DocumentClick chain =>
      (* registered last by the load listener *)
      if has_status_element env then Page.on_click env chain else ret tt
  | BeforeUnload => Page.on_beforeunload env
  | PopState => Page.on_popstate env
  | SubscribeUserToPush => let* _ := Page.subscribeUserToPush env in ret tt
  | Install => Worker.on_install env
  | Activate => Worker.on_activate env
  | FetchEvent request => let* _ := Worker.on_fetch env request in ret tt
  | PushEvent data => Worker.on_push env data
  | NotificationClick notification => Worker.on_notificationclick env notification
  | WorkerMessage data => Worker.on_message env data
  | ClientsChanged => Worker.on_clientschanged
  end.

(** *** Listeners that overlap

    A call of [subscribeUserToPush] waits between [getSubscription()] and
    what follows it, and nothing keeps other listeners, or a further call,
    from running meanwhile.  A schedule says in which order listeners start
    and waiting calls go on.  The listeners that never touch the
    subscriptions run undivided. *)

Inductive event : Type :=
| Start (op : operation)   (* a listener starts: it runs to its end, or to the
                              point where its call of [subscribeUserToPush] waits *)
| Resume (i : nat).        (* the waiting call number [i] runs to its end *)

(** The world, and the calls of [subscribeUserToPush] that wait, oldest
    first. *)
Definition State : Type := World * list Page.Waiting.

(** The listener of [op] from its start. *)
Definition start (env : Env) (op : operation) : M (option Page.Waiting) :=
  match op with
  | SubscribeUserToPush =>
      let* r := Page.subscribe_lookup env in
      ret (match r with inl _ => None | inr call => Some call end)
  | PermissionClick =>
      if has_permission_button env && has_status_element env
      then Page.permission_click_lookup env else ret None
  | _ => run env op ;;; ret None
  end.

Definition step (env : Env) (ev : event) (st : State) : State * list effect :=
  match ev with
  | Start op =>
      let '(r, w, es) := start env op (fst st) in
      (w, snd st ++ match r with Ok (Some call) => [call] | _ => [] end, es)
  | Resume i =>
      match snd st !! i with
      | Some call =>
          let '(_, w, es) := Page.subscribe_resume env call (fst st) in
          (w, delete i (snd st), es)
      | None => (st, [])
      end
  end.


(** The listeners that call [subscribeUserToPush]. *)
Definition subscribing (op : operation) : bool :=
  match op with
  | PermissionClick | SubscribeUserToPush => true
  | _ => false
  end.




(** A piece of script that, when it leaves a waiting call, leaves it with
    what [getSubscription()] gives in the world it ends in. *)
Definition finds {A} (found : A -> option (option PushSubscription)) (m : M A) : Prop :=
  forall w a w' es,
    m w = (Ok a, w', es) ->
    forall f, found a = Some f -> f = head (subscriptions w').


(** *** Observations on a list of effects *)

Definition is_subscribe (e : effect) : bool :=
  match e with Subscribe _ _ => true | _ => false end.

Definition is_fetch (e : effect) : bool :=
  match e with Fetch _ _ _ => true | _ => false end.

(** [v.k], [undefined] when there is no such property. *)
Definition field (v : value) (k : string) : value := default VUndefined (get v k).

Definition LOG_NAVIGATION_URL : string := Page.SERVER_URL +:+ "/log-navigation".

(** The bodies of the [POST] requests sent to [/log-navigation] with a body. *)
Fixpoint reports (es : list effect) : list value :=
  match es with
  | [] => []
  | Fetch url method (VObj fields) :: rest =>
      if String.eqb url LOG_NAVIGATION_URL && String.eqb method "POST"
      then VObj fields :: reports rest else reports rest
  | _ :: rest => reports rest
  end.

(** The clients a [navigation] message was posted to, with the message. *)
Fixpoint navigation_posts (es : list effect) : list (Client * value) :=
  match es with
  | [] => []
  | PostMessage c data :: rest =>
      if is_string (field data "type") "navigation"
      then (c, data) :: navigation_posts rest
      else navigation_posts rest
  | _ :: rest => navigation_posts rest
  end.

(** The body of the report the worker sends for a tracked request. *)
Definition tracked_report (env : Env) (w : World) (request : Request) : value :=
  VObj [("url", VStr (href (req_url request)));
        ("referrer", or_else (VStr (req_referrer request)) (VStr "unknown"));
        ("userAgent", VStr "service-worker");
        ("subscriptionEndpoint",
         VStr match head (subscriptions w) with
              | Some subscription => endpoint subscription
              | None => "not-available-in-sw"
              end);
        ("timestamp", VStr (clock env (tick w)))].

(** The effects of a run of the page without the lines of its log panel. *)
Definition without_logs (es : list effect) : list effect :=
  List.filter (fun e => match e with PanelLog _ => false | _ => true end) es.

Definition VAPID_KEY_URL : string := Page.SERVER_URL +:+ "/vapidPublicKey".
Definition SUBSCRIBE_URL : string := Page.SERVER_URL +:+ "/subscribe".

(** The key the server hands out in the current world, if the request
    succeeds, the answer parses and its [publicKey] is a string. *)
Definition server_key (env : Env) (w : World) : option string :=
  match network env (tick w) VAPID_KEY_URL "GET" VUndefined with
  | Some response =>
      match resp_json response with
      | Some data =>
          match get data "publicKey" with
          | Some (VStr key) => Some key
          | _ => None
          end
      | None => None
      end
  | None => None
  end.

(** The key fetch fails: request error or answer that does not parse. *)
Definition key_fetch_fails (env : Env) (w : World) : Prop :=
  match network env (tick w) VAPID_KEY_URL "GET" VUndefined with
  | Some response => resp_json response = None
  | None => True
  end.

(** The body of the request that reports a subscription. *)
Definition subscription_report (env : Env) (s : PushSubscription) : value :=
  VObj [("subscription", subscription_value s);
        ("origin", VStr (location_origin env));
        ("url", VStr (location_href env))].

(** A piece of script that never touches the subscriptions. *)
Definition harmless {A} (m : M A) : Prop :=
  forall w,
    subscriptions (world_of m w) = subscriptions w
    /\ List.filter is_subscribe (effects_of m w) = [].

(** A piece of script that subscribes at most once, and only when there is
    no subscription. *)
Definition careful {A} (m : M A) : Prop :=
  forall w,
    (subscriptions w <> [] ->
       subscriptions (world_of m w) = subscriptions w
       /\ List.filter is_subscribe (effects_of m w) = [])
    /\ (subscriptions w = [] -> length (subscriptions (world_of m w)) <= 1).

(** Started without a subscription, the script leaves at most one. *)
Definition at_most_one {A} (m : M A) : Prop :=
  forall w, subscriptions w = [] -> length (subscriptions (world_of m w)) <= 1.

(** The notifications shown: title and options. *)
Fixpoint notifications (es : list effect) : list (value * value) :=
  match es with
  | [] => []
  | ShowNotification title options :: rest => (title, options) :: notifications rest
  | _ :: rest => notifications rest
  end.

(** The options of the notification the push listener builds from
    [notificationData]. *)
Definition notification_options (nd : value) (date : string) : value :=
  VObj [("body", or_else (field nd "body") (VStr "A new event was detected."));
        ("icon", or_else (field nd "icon") (VStr "/icon-192x192.png"));
        ("badge", or_else (field nd "badge") (VStr "/badge.png"));
        ("tag", or_else (field nd "tag") (VStr "default"));
        ("data", VObj [("url", or_else (field nd "url") (VStr "/"));
                       ("timestamp", or_else (field nd "timestamp") (VStr date))])].

(** What the push listener holds in [notificationData] after its [try]:
    the parsed payload, or the empty object when there is no data or the
    data does not parse. *)
Definition push_payload (env : Env) (data : option string) : value :=
  match data with
  | Some text => default (VObj []) (JSON_parse env text)
  | None => VObj []
  end.

(** Buckets left after deleting the given names one after the other. *)
Definition delete_all (names : list string) (l : list (string * Cache)) :=
  foldl (fun acc name => List.filter (fun b => negb (String.eqb (fst b) name)) acc)
    l names.

End System.

(** ** Sample environments and worlds *)

Module Sample.
Import JS Platform.

Definition dquote : string := String (ascii_of_nat 34) EmptyString.
Definition quoted (s : string) : string := dquote +:+ s +:+ dquote.

Definition response (v : value) : Response :=
  {| resp_ok := true; resp_body := "{}"; resp_json := Some v |}.

Definition sub : PushSubscription :=
  {| endpoint := "https://push.example/send/abc"; p256dh := "BPk"; auth := "x9" |}.

Definition page_client : Client :=
  {| client_id := 1; client_url := "https://app.vercel.app/index.html" |}.

(** Payload [{title: Hi, data: {url: /x}}] of a push message. *)
Definition payload_text : string :=
  "{" +:+ quoted "title" +:+ ":" +:+ quoted "Hi" +:+ "," +:+ quoted "data" +:+ ":{"
      +:+ quoted "url" +:+ ":" +:+ quoted "/x" +:+ "}}".
Definition payload_value : value :=
  VObj [("title", VStr "Hi"); ("data", VObj [("url", VStr "/x")])].

Definition env : Env :=
  {| network := fun _ _ _ _ => Some (response (VObj [("success", VBool true)]));
     push_service := fun _ _ => Some sub;
     permission := fun _ => "granted";
     JSON_parse := fun text =>
       if String.eqb text payload_text then Some payload_value
       else if String.eqb text "null" then Some VNull else None;
     JSON_stringify := fun _ => "{}";
     clock := fun _ => "2025-01-01T00:00:00.000Z";
     location_href := "https://app.vercel.app/index.html";
     location_origin := "https://app.vercel.app";
     document_referrer := "https://example.org/";
     userAgent := "Mozilla/5.0";
     has_serviceWorker := true;
     has_PushManager := true;
     has_Notification := true;
     has_log_panel := true;
     has_permission_button := true;
     has_status_element := true;
     worker_ready := true;
     registration := inl "https://app.vercel.app/";
     window_clients := [page_client] |}.

(** The same page without a reachable server. *)
Definition offline : Env :=
  {| network := fun _ _ _ _ => None;
     push_service := push_service env;
     permission := permission env;
     JSON_parse := JSON_parse env;
     JSON_stringify := JSON_stringify env;
     clock := clock env;
     location_href := location_href env;
     location_origin := location_origin env;
     document_referrer := document_referrer env;
     userAgent := userAgent env;
     has_serviceWorker := true;
     has_PushManager := true;
     has_Notification := true;
     has_log_panel := true;
     has_permission_button := true;
     has_status_element := true;
     worker_ready := true;
     registration := registration env;
     window_clients := window_clients env |}.

(** An environment that differs from [env] in its network, its push
    service and what the platform offers. *)
Definition variant (net : nat -> string -> string -> value -> option Response)
    (push : nat -> list nat -> option PushSubscription)
    (pushManager ready : bool) : Env :=
  {| network := net;
     push_service := push;
     permission := permission env;
     JSON_parse := JSON_parse env;
     JSON_stringify := JSON_stringify env;
     clock := clock env;
     location_href := location_href env;
     location_origin := location_origin env;
     document_referrer := document_referrer env;
     userAgent := userAgent env;
     has_serviceWorker := true;
     has_PushManager := pushManager;
     has_Notification := true;
     has_log_panel := true;
     has_permission_button := true;
     has_status_element := true;
     worker_ready := ready;
     registration := registration env;
     window_clients := window_clients env |}.

(** A browser without push. *)
Definition no_push : Env := variant (network env) (push_service env) false true.

(** A page whose worker never becomes ready. *)
Definition not_ready : Env := variant (network env) (push_service env) true false.

(** A server whose key is not base64. *)
Definition bad_key : Env :=
  variant (fun _ _ _ _ => Some (response (VObj [("publicKey", VStr "a*b")])))
    (push_service env) true true.

(** A server with a key of its own. *)
Definition with_key : Env :=
  variant (fun _ _ _ _ => Some (response (VObj [("publicKey", VStr "QUJDRA")])))
    (push_service env) true true.


(** A push service that refuses. *)
Definition refusing : Env := variant (network env) (fun _ _ => None) true true.

(** The text under which [storing] keeps [sub]. *)
Definition stored_text : string :=
  "{" +:+ quoted "endpoint" +:+ ":" +:+ quoted "https://push.example/send/abc" +:+ "}".

(** A platform whose JSON functions know the text of [sub]. *)
Definition storing : Env :=
  {| network := network env;
     push_service := push_service env;
     permission := permission env;
     JSON_parse := fun text =>
       if String.eqb text stored_text then Some (subscription_value sub) else None;
     JSON_stringify := fun v =>
       if is_string (default VUndefined (get v "endpoint")) "https://push.example/send/abc"
       then stored_text else "{}";
     clock := clock env;
     location_href := location_href env;
     location_origin := location_origin env;
     document_referrer := document_referrer env;
     userAgent := userAgent env;
     has_serviceWorker := true;
     has_PushManager := true;
     has_Notification := true;
     has_log_panel := true;
     has_permission_button := true;
     has_status_element := true;
     worker_ready := true;
     registration := registration env;
     window_clients := window_clients env |}.

(** The same page without the log panel. *)
Definition silent : Env :=
  {| network := network env;
     push_service := push_service env;
     permission := permission env;
     JSON_parse := JSON_parse env;
     JSON_stringify := JSON_stringify env;
     clock := clock env;
     location_href := location_href env;
     location_origin := location_origin env;
     document_referrer := document_referrer env;
     userAgent := userAgent env;
     has_serviceWorker := true;
     has_PushManager := true;
     has_Notification := true;
     has_log_panel := false;
     has_permission_button := true;
     has_status_element := true;
     worker_ready := true;
     registration := registration env;
     window_clients := window_clients env |}.

Definition fresh : World :=
  {| localStorage := ∅; subscriptions := []; caches := [];
     controlled := [page_client]; tick := 0 |}.

Definition subscribed : World :=
  {| localStorage := ∅; subscriptions := [sub]; caches := [];
     controlled := [page_client]; tick := 0 |}.

Definition old_and_new_caches : World :=
  {| localStorage := ∅; subscriptions := [];
     caches := [("static-cache-v0", ∅); ("static-cache-v1", ∅); ("images", ∅)];
     controlled := [page_client]; tick := 0 |}.

(** The start page is in the current bucket. *)
Definition precached : World :=
  {| localStorage := ∅; subscriptions := [];
     caches := [("static-cache-v1",
                 {[ "https://app.vercel.app/index.html" := response (VStr "index") ]})];
     controlled := [page_client]; tick := 0 |}.

(** The page has stored the active subscription. *)
Definition stored : World :=
  {| localStorage := {[ "pushSubscription" := stored_text ]}; subscriptions := [sub];
     caches := []; controlled := [page_client]; tick := 0 |}.

(** The local storage holds something that is not JSON. *)
Definition garbled : World :=
  {| localStorage := {[ "pushSubscription" := "not json" ]}; subscriptions := [sub];
     caches := []; controlled := [page_client]; tick := 0 |}.

(** A click on the text of a link to another application of the domain. *)
Definition link_chain : list Page.Element :=
  [ {| Page.tagName := "SPAN"; Page.elem_href := "" |};
    {| Page.tagName := "A"; Page.elem_href := "https://other.vercel.app/" |};
    {| Page.tagName := "DIV"; Page.elem_href := "" |};
    {| Page.tagName := "BODY"; Page.elem_href := "" |} ].

(** A click on a paragraph. *)
Definition text_chain : list Page.Element :=
  [ {| Page.tagName := "P"; Page.elem_href := "" |};
    {| Page.tagName := "BODY"; Page.elem_href := "" |};
    {| Page.tagName := "HTML"; Page.elem_href := "" |} ].

Definition url_of (origin host path : string) : URL :=
  {| href := origin +:+ path; origin := origin; hostname := host; pathname := path |}.

(** A script of another origin requested by the page. *)
Definition cdn_request : Request :=
  {| req_url := url_of "https://cdn.example.com" "cdn.example.com" "/lib.js";
     req_method := "GET"; req_mode := "no-cors";
     req_referrer := "https://app.vercel.app/index.html" |}.

(** The start page, requested as a script would. *)
Definition index_request : Request :=
  {| req_url := url_of "https://app.vercel.app" "app.vercel.app" "/index.html";
     req_method := "GET"; req_mode := "cors";
     req_referrer := "https://app.vercel.app/page2.html" |}.

(** The report of the page, as the worker sees it on its way out. *)
Definition report_request : Request :=
  {| req_url := url_of "https://vercel-server-1v1v.onrender.com"
                  "vercel-server-1v1v.onrender.com" "/log-navigation";
     req_method := "POST"; req_mode := "cors";
     req_referrer := "https://app.vercel.app/index.html" |}.

(** A navigation to another page of the application. *)
Definition navigation_request : Request :=
  {| req_url := url_of "https://app.vercel.app" "app.vercel.app" "/page2.html";
     req_method := "GET"; req_mode := "navigate";
     req_referrer := "" |}.

(** A notification that points to the start page. *)
Definition clicked_note : Worker.Notification :=
  {| Worker.note_tag := "default";
     Worker.note_data :=
       VObj [("url", VStr "https://app.vercel.app/index.html");
             ("timestamp", VStr "2025-01-01T00:00:00.000Z")] |}.

End Sample.

(** ** Texts given to the key codec *)

Module KeyText.
Import Base64.

(** Characters the codec can take: the two alphabets, [=] and white space. *)
Definition acceptable (c : ascii) : bool :=
  match sextet_of_char (translate c) with Some _ => true | None => false end
  || is_ascii_whitespace c
  || Ascii.eqb c pad_char.

(** Characters of the [-]/[_] alphabet. *)
Definition url_alphabet (c : ascii) : bool :=
  let n := nat_of_ascii c in
  ((65 <=? n) && (n <=? 90)) || ((97 <=? n) && (n <=? 122))
  || ((48 <=? n) && (n <=? 57)) || (n =? 45) || (n =? 95).

(** The last group of sextets is complete, or it has two or three sextets
    whose bits beyond the last whole byte are zero. *)
Fixpoint tail_ok (l : list nat) : bool :=
  match l with
  | _ :: _ :: _ :: _ :: r => tail_ok r
  | [_; _; c] => c mod 4 =? 0
  | [_; b] => b mod 16 =? 0
  | [_] => false
  | [] => true
  end.

(** Unpadded base64url text in its canonical form. *)
Definition canonical (s : string) : bool :=
  let cs := list_ascii_of_string s in
  forallb url_alphabet cs
  && match sextets_of_chars (map translate cs) with
     | Some vs => tail_ok vs
     | None => false
     end.

End KeyText.

(** ** What a piece of script keeps *)

Module Conduct.
Import JS Platform System.

(** The script keeps a relation between the world before it, the world
    after it and the effects it issued. *)
Definition respects (R : World -> World -> list effect -> Prop) {A} (m : M A) : Prop :=
  forall w, R w (world_of m w) (effects_of m w).

(** An element that stops the climb of the click listener. *)
Definition is_anchor_or_body (e : Page.Element) : bool :=
  String.eqb (Page.tagName e) "A" || String.eqb (Page.tagName e) "BODY".


(** The local storage is left as it is. *)
Definition keeps_storage (w w' : World) (es : list effect) : Prop :=
  localStorage w' = localStorage w.

(** The active subscriptions are left as they are. *)
Definition keeps_subscriptions (w w' : World) (es : list effect) : Prop :=
  subscriptions w' = subscriptions w.

(** The cache storage is left as it is. *)
Definition keeps_caches (w w' : World) (es : list effect) : Prop :=
  caches w' = caches w.

(** Every URL the cache storage answers is still answered afterwards. *)
Definition keeps_hits (w w' : World) (es : list effect) : Prop :=
  forall url, match_in url (caches w) <> None -> match_in url (caches w') <> None.

Definition is_panel_log (e : effect) : bool :=
  match e with PanelLog _ => true | _ => false end.

(** No line is written to the log panel. *)
Definition no_panel_log (w w' : World) (es : list effect) : Prop :=
  List.filter is_panel_log es = [].

(** No request is sent to the network. *)
Definition no_request (w w' : World) (es : list effect) : Prop :=
  List.filter is_fetch es = [].

(** The stored subscription, when there is one, is the text of the active
    subscription. *)
Definition storage_consistent (env : Env) (w : World) : Prop :=
  match localStorage w !! "pushSubscription" with
  | None => True
  | Some text =>
      exists s, head (subscriptions w) = Some s
                /\ text = JSON_stringify env (subscription_value s)
  end.


(** The subscriptions are left as they are, and a stored subscription that
    was the active one still is. *)
Definition steady (env : Env) (w w' : World) (es : list effect) : Prop :=
  subscriptions w' = subscriptions w
  /\ (storage_consistent env w -> storage_consistent env w').

End Conduct.

(** ** Running the monad *)

(** Unfolds the monad and the platform calls of a run. *)
Ltac run :=
  repeat (progress
    (unfold Platform.effects_of, Platform.world_of, Platform.result_of,
       Platform.try_catch, Platform.bind, Platform.fetch, Platform.response_json,
       Platform.parse, Platform.get_prop, Platform.getSubscription,
       Platform.pushManager_getSubscription,
       Platform.pushManager_subscribe, Platform.localStorage_getItem,
       Platform.localStorage_setItem, Platform.now, Platform.clients_matchAll,
       Platform.caches_keys, Platform.caches_delete, Platform.cache_put,
       Platform.caches_match, Platform.of_option, Platform.emit, Platform.modify,
       Platform.get_world, Platform.ret, Platform.throw, Platform.pending in *;
     cbn beta iota zeta delta [fst snd app] in *)).

Section MonadFacts.
Import JS Platform System.

Lemma bind_run {A B} (m : M A) (k : A -> M B) w a w1 es1 :
  m w = (Ok a, w1, es1) ->
  bind m k w = let '(r, w2, es2) := k a w1 in (r, w2, es1 ++ es2).
Proof. intros H. unfold bind. now rewrite H. Qed.

Lemma page_log_run env message w :
  Page.log env message w =
  (Ok tt, w,
   if has_log_panel env then [PanelLog (clock env (tick w) +:+ ": " +:+ message)] else []).
Proof. unfold Page.log. destruct (has_log_panel env); reflexivity. Qed.

Lemma for_each_emit_run {A} (f : A -> effect) (l : list A) w :
  for_each l (fun a => emit (f a)) w = (Ok tt, w, map f l).
Proof.
  induction l as [|a l IH]; [reflexivity |].
  cbn [for_each map]. erewrite bind_run; [| reflexivity]. now rewrite IH.
Qed.

Lemma swLog_run message w :
  Worker.swLog message w =
  (Ok tt, w,
   ConsoleLog ("[Service Worker " +:+ Worker.VERSION +:+ "] " +:+ message)
     :: map (fun c => PostMessage c (Worker.log_message message)) (controlled w)).
Proof.
  unfold Worker.swLog.
  do 2 (erewrite bind_run; [| reflexivity]; cbn beta iota zeta).
  now rewrite (for_each_emit_run (fun c => PostMessage c (Worker.log_message message))).
Qed.

Lemma try_catch_ok {A} (m : M A) handler w a w1 es1 :
  m w = (Ok a, w1, es1) -> try_catch m handler w = (Ok a, w1, es1).
Proof. intros H. unfold try_catch. now rewrite H. Qed.

Lemma try_catch_throw {A} (m : M A) handler w e w1 es1 :
  m w = (Throw e, w1, es1) ->
  try_catch m handler w = let '(r, w2, es2) := handler e w1 in (r, w2, es1 ++ es2).
Proof. intros H. unfold try_catch. now rewrite H. Qed.

Lemma get_prop_run v k w :
  v <> VNull -> v <> VUndefined -> get_prop v k w = (Ok (field v k), w, []).
Proof. intros Hn Hu. destruct v; try contradiction; reflexivity. Qed.

End MonadFacts.

(** After the given step of a [bind], continue with the rest. *)
Ltac step :=
  erewrite bind_run;
    [| first [apply swLog_run | apply page_log_run | reflexivity]];
  cbn beta iota zeta.

(** ** Facts about the codec *)

Section CodecFacts.
Import Base64.

Lemma list_ind3 {A} (P : list A -> Prop) :
  P [] -> (forall x, P [x]) -> (forall x y, P [x; y]) ->
  (forall x y z r, P r -> P (x :: y :: z :: r)) -> forall l, P l.
Proof.
  intros H0 H1 H2 H3.
  fix F 1. intros [|x [|y [|z r]]]; [apply H0 | apply H1 | apply H2 |].
  apply H3, F.
Qed.

Lemma list_of_append s t :
  list_ascii_of_string (s +:+ t) = list_ascii_of_string s ++ list_ascii_of_string t.
Proof. induction s as [|c s IH]; simpl; [reflexivity | now rewrite IH]. Qed.

Lemma length_list_of s : String.length s = length (list_ascii_of_string s).
Proof. induction s as [|c s IH]; simpl; [reflexivity | now rewrite IH]. Qed.

Lemma list_of_replace_all c d s :
  list_ascii_of_string (JS.replace_all c d s) =
  map (fun x => if Ascii.eqb x c then d else x) (list_ascii_of_string s).
Proof. induction s as [|x s IH]; simpl; [reflexivity | now rewrite IH]. Qed.

Lemma list_of_translated s :
  list_ascii_of_string
    (JS.replace_all "_"%char "/"%char (JS.replace_all "-"%char "+"%char s)) =
  map translate (list_ascii_of_string s).
Proof.
  rewrite !list_of_replace_all, map_map. apply map_ext. intros c. reflexivity.
Qed.

Lemma list_of_repeat c n : list_ascii_of_string (JS.repeat c n) = List.repeat c n.
Proof. unfold JS.repeat. apply list_ascii_of_string_of_list_ascii. Qed.

(* [lia] on [/] and [mod] by literals *)
Ltac Zify.zify_post_hook ::= Z.to_euclidean_division_equations.

Lemma pad_mod4 n : (n + (4 - n mod 4) mod 4) mod 4 = 0.
Proof. lia. Qed.

Lemma url_char_facts v :
  v < 64 ->
  sextet_of_char (translate (url_char v)) = Some v /\
  is_ascii_whitespace (translate (url_char v)) = false /\
  Ascii.eqb (translate (url_char v)) pad_char = false.
Proof.
  intros Hv.
  do 64 (destruct v as [|v]; [vm_compute; auto |]).
  lia.
Qed.

Lemma sextets_of_bytes_bound bs :
  Forall (fun b => b < 256) bs -> Forall (fun v => v < 64) (sextets_of_bytes bs).
Proof.
  induction bs as [| x | x y | x y z r IH] using list_ind3; intros Hb;
    cbn [sextets_of_bytes bytes_of_sextets].
  - constructor.
  - inversion_clear Hb. repeat (constructor; [lia |]). constructor.
  - inversion_clear Hb as [|? ? ? Hr]. inversion_clear Hr.
    repeat (constructor; [lia |]). constructor.
  - inversion_clear Hb as [|? ? ? Hr]. inversion_clear Hr as [|? ? ? Hr'].
    inversion_clear Hr'.
    repeat (constructor; [lia |]). now apply IH.
Qed.

(** Decoding the sextets of a byte sequence gives the bytes back. *)
Lemma bytes_of_sextets_of_bytes bs :
  Forall (fun b => b < 256) bs -> bytes_of_sextets (sextets_of_bytes bs) = bs.
Proof.
  induction bs as [| x | x y | x y z r IH] using list_ind3; intros Hb;
    cbn [sextets_of_bytes bytes_of_sextets].
  - reflexivity.
  - inversion_clear Hb. f_equal. lia.
  - inversion_clear Hb as [|? ? ? Hr]. inversion_clear Hr.
    f_equal; [lia |]. f_equal. lia.
  - inversion_clear Hb as [|? ? ? Hr]. inversion_clear Hr as [|? ? ? Hr'].
    inversion_clear Hr'.
    rewrite IH by assumption.
    f_equal; [lia |]. f_equal; [lia |]. f_equal. lia.
Qed.

Lemma sextets_of_bytes_length bs : length (sextets_of_bytes bs) mod 4 <> 1.
Proof.
  induction bs as [| x | x y | x y z r IH] using list_ind3;
    cbn [sextets_of_bytes length] in *; lia.
Qed.

Lemma sextets_of_translated vs :
  Forall (fun v => v < 64) vs ->
  sextets_of_chars (map translate (map url_char vs)) = Some vs.
Proof.
  induction 1 as [| v vs Hv _ IH]; simpl; [reflexivity |].
  destruct (url_char_facts v Hv) as (-> & _). now rewrite IH.
Qed.

Lemma no_whitespace_translated vs :
  Forall (fun v => v < 64) vs ->
  List.filter (fun c => negb (is_ascii_whitespace c)) (map translate (map url_char vs))
  = map translate (map url_char vs).
Proof.
  induction 1 as [| v vs Hv _ IH]; simpl; [reflexivity |].
  destruct (url_char_facts v Hv) as (_ & -> & _). simpl. now rewrite IH.
Qed.

Lemma no_pad_translated vs :
  Forall (fun v => v < 64) vs ->
  Forall (fun c => Ascii.eqb c pad_char = false) (map translate (map url_char vs)).
Proof.
  induction 1 as [| v vs Hv _ IH]; simpl; constructor; [| assumption].
  now destruct (url_char_facts v Hv) as (_ & _ & ->).
Qed.

Lemma strip_padding_app l k :
  Forall (fun c => Ascii.eqb c pad_char = false) l -> k <= 2 ->
  strip_padding (l ++ List.repeat pad_char k) = l.
Proof.
  intros Hl Hk. unfold strip_padding.
  rewrite rev_app_distr, rev_repeat.
  assert (Hr : Forall (fun c => Ascii.eqb c pad_char = false) (rev l))
    by now apply List.Forall_rev.
  destruct k as [|[|[|k]]]; [| | | lia]; simpl.
  - rewrite app_nil_r.
    destruct (rev l) as [|a [|b r]] eqn:E; [reflexivity | |];
      inversion_clear Hr as [|? ? Ha]; cbn; now rewrite Ha.
  - destruct (rev l) as [|b r] eqn:E.
    + apply (f_equal (@rev ascii)) in E. rewrite rev_involutive in E. now subst.
    + inversion_clear Hr as [|? ? Hb]. rewrite Hb.
      change (rev r ++ [b]) with (rev (b :: r)). rewrite <- E. apply rev_involutive.
  - apply rev_involutive.
Qed.

Lemma filter_no_whitespace_app l k :
  List.filter (fun c => negb (is_ascii_whitespace c)) l = l ->
  List.filter (fun c => negb (is_ascii_whitespace c)) (l ++ List.repeat pad_char k)
  = l ++ List.repeat pad_char k.
Proof.
  intros Hl. rewrite List.filter_app, Hl. f_equal.
  induction k as [|k IH]; [reflexivity |]. cbn. now rewrite IH.
Qed.

(** [atob] on the translated, padded text of a byte sequence. *)
Lemma atob_encoding data bs k :
  Forall (fun b => b < 256) bs ->
  list_ascii_of_string data
    = map translate (map url_char (sextets_of_bytes bs)) ++ List.repeat pad_char k ->
  k <= 2 ->
  (length (sextets_of_bytes bs) + k) mod 4 = 0 ->
  atob data = Some (string_of_list_ascii (map ascii_of_nat bs)).
Proof.
  intros Hb Hdata Hk Hlen.
  pose proof (sextets_of_bytes_bound bs Hb) as Hv.
  unfold atob. rewrite Hdata.
  rewrite filter_no_whitespace_app by now apply no_whitespace_translated.
  rewrite length_app, !length_map, repeat_length, Hlen. cbn [Nat.eqb].
  rewrite strip_padding_app by (auto using no_pad_translated).
  rewrite !length_map.
  destruct (Nat.eqb_spec (length (sextets_of_bytes bs) mod 4) 1) as [E|_];
    [now apply sextets_of_bytes_length in E |].
  rewrite sextets_of_translated by assumption.
  now rewrite bytes_of_sextets_of_bytes.
Qed.

Lemma char_codes_of_bytes bs :
  Forall (fun b => b < 256) bs ->
  map nat_of_ascii (list_ascii_of_string (string_of_list_ascii (map ascii_of_nat bs))) = bs.
Proof.
  intros Hb. rewrite list_ascii_of_string_of_list_ascii, map_map.
  induction Hb as [| b bs Hlt _ IH]; cbn [map]; [reflexivity |].
  now rewrite nat_ascii_embedding, IH.
Qed.

Lemma translate_pad k : map translate (List.repeat pad_char k) = List.repeat pad_char k.
Proof. induction k as [|k IH]; [reflexivity |]. cbn [List.repeat map]. now rewrite IH. Qed.

(** The codec decodes the unpadded base64url text of any byte sequence. *)
Lemma decode_encode_url bs :
  Forall (fun b => b < 256) bs ->
  Page.urlBase64ToUint8Array (encode_url bs) = Some bs.
Proof.
  intros Hb. unfold Page.urlBase64ToUint8Array.
  set (k := (4 - String.length (encode_url bs) mod 4) mod 4).
  assert (Hlen : String.length (encode_url bs) = length (sextets_of_bytes bs)).
  { unfold encode_url.
    now rewrite length_list_of, list_ascii_of_string_of_list_ascii, length_map. }
  pose proof (sextets_of_bytes_length bs) as Hne.
  rewrite (atob_encoding _ bs k Hb).
  - now rewrite char_codes_of_bytes.
  - rewrite list_of_translated, list_of_append, list_of_repeat, map_app, translate_pad.
    unfold encode_url. now rewrite list_ascii_of_string_of_list_ascii.
  - subst k. rewrite Hlen. lia.
  - subst k. rewrite Hlen. lia.
Qed.

(** Text whose length is a multiple of four gets no further padding. *)
Lemma decode_padded s :
  Page.urlBase64ToUint8Array
    (s +:+ JS.repeat pad_char ((4 - String.length s mod 4) mod 4))
  = Page.urlBase64ToUint8Array s.
Proof.
  unfold Page.urlBase64ToUint8Array at 1.
  set (p := s +:+ JS.repeat pad_char ((4 - String.length s mod 4) mod 4)).
  assert (Hp : String.length p mod 4 = 0).
  { subst p. rewrite length_list_of, list_of_append, length_app, list_of_repeat,
      repeat_length, <- length_list_of. apply pad_mod4. }
  rewrite Hp. change ((4 - 0) mod 4) with 0.
  assert (Hnil : p +:+ JS.repeat "="%char 0 = p).
  { rewrite <- (string_of_list_ascii_of_string (p +:+ _)), list_of_append.
    cbn. now rewrite app_nil_r, string_of_list_ascii_of_string. }
  now rewrite Hnil.
Qed.

Lemma decode_encode_url_padded bs :
  Forall (fun b => b < 256) bs ->
  Page.urlBase64ToUint8Array (encode_url_padded bs) = Some bs.
Proof.
  intros Hb. unfold encode_url_padded. rewrite decode_padded.
  now apply decode_encode_url.
Qed.

Lemma decoded_bytes_bound s bs :
  Page.urlBase64ToUint8Array s = Some bs -> Forall (fun b => b < 256) bs.
Proof.
  unfold Page.urlBase64ToUint8Array. destruct (atob _) as [raw|]; [| discriminate].
  intros [= <-]. apply List.Forall_forall. intros b Hin.
  apply in_map_iff in Hin as (c & <- & _). apply nat_ascii_bounded.
Qed.

End CodecFacts.

(** ** Facts about the navigation reporters *)

Section ReporterFacts.
Import JS Platform System.

Lemma reports_app es1 es2 : reports (es1 ++ es2) = reports es1 ++ reports es2.
Proof.
  induction es1 as [|e es1 IH]; [reflexivity |].
  destruct e; cbn [reports app]; try assumption.
  destruct body; try assumption.
  destruct (_ && _); cbn [app]; now rewrite IH.
Qed.

Lemma reports_log_posts message (l : list Client) :
  reports (map (fun c => PostMessage c (Worker.log_message message)) l) = [].
Proof. induction l; [reflexivity | assumption]. Qed.

Lemma reports_page_log env message w : reports (Page.log env message w).2 = [].
Proof. rewrite page_log_run. now destruct (has_log_panel env). Qed.

Lemma reports_swLog message w : reports (Worker.swLog message w).2 = [].
Proof. rewrite swLog_run. cbn. apply reports_log_posts. Qed.

(** The report of the page when no subscription is stored. *)
Lemma page_report_unsubscribed env url referrer w :
  localStorage w !! "pushSubscription" = None ->
  reports (effects_of (Page.logNavigationToServer env url referrer) w) =
  [VObj [("url", url);
         ("referrer", or_else referrer (VStr (document_referrer env)));
         ("userAgent", VStr (userAgent env));
         ("subscriptionEndpoint", VStr "not-subscribed")]].
Proof.
  intros Hnone. unfold Page.logNavigationToServer. run. rewrite Hnone. cbn.
  destruct (network env _ _ _ _) as [r|]; cbn.
  - destruct (resp_json r); cbn; rewrite page_log_run; cbn;
      destruct (has_log_panel env); reflexivity.
  - rewrite page_log_run; cbn; destruct (has_log_panel env); reflexivity.
Qed.

Lemma worker_log_url :
  (Worker.SERVER_URL +:+ "/log-navigation" =? LOG_NAVIGATION_URL)%string = true.
Proof. reflexivity. Qed.

Lemma page_log_url :
  (Page.SERVER_URL +:+ "/log-navigation" =? LOG_NAVIGATION_URL)%string = true.
Proof. reflexivity. Qed.

Ltac tidy :=
  cbn [reports map app];
  rewrite ?app_nil_r, ?worker_log_url, ?page_log_url, ?reports_app, ?reports_log_posts;
  cbn [andb String.eqb Ascii.eqb Bool.eqb app].

(** The report of the worker: none where the registration has no push
    manager. *)
Lemma worker_report env url referrer w :
  reports (effects_of (Worker.logNavigationToServer env url referrer) w) =
  if has_PushManager env then
    [VObj [("url", url);
           ("referrer", or_else referrer (VStr "unknown"));
           ("userAgent", VStr "service-worker");
           ("subscriptionEndpoint",
            VStr match head (subscriptions w) with
                 | Some subscription => endpoint subscription
                 | None => "not-available-in-sw"
                 end);
           ("timestamp", VStr (clock env (tick w)))]]
  else [].
Proof.
  unfold Worker.logNavigationToServer. run.
  destruct (has_PushManager env); run; [| rewrite swLog_run; run; now tidy].
  destruct (network env _ _ _ _) as [r|]; run.
  - destruct (resp_json r); run; rewrite swLog_run; run; now tidy.
  - rewrite swLog_run; run; now tidy.
Qed.

(** Every report of the page carries the page's referrer default. *)
Lemma page_report_referrer env url referrer w :
  Forall (fun body => field body "referrer" = or_else referrer (VStr (document_referrer env)))
    (reports (effects_of (Page.logNavigationToServer env url referrer) w)).
Proof.
  unfold Page.logNavigationToServer. run.
  destruct (localStorage w !! "pushSubscription") as [text|]; run;
    [destruct (negb (text =? "")%string); run;
       [destruct (JSON_parse env text) as [v|]; run;
          [destruct (get v "endpoint") as [ep|]; run |] |] |];
    try (destruct (network env _ _ _ _) as [r|]; run;
           [destruct (resp_json r); run |]);
    rewrite page_log_run; destruct (has_log_panel env); tidy; repeat constructor.
Qed.

End ReporterFacts.

(** ** Facts about the cache: activation and the fetch strategy *)

Section CacheFacts.
Import JS Platform System.

Lemma delete_each_run names w :
  exists es,
    for_each names
      (fun cacheName =>
         Worker.swLog ("Deleting old cache: " +:+ cacheName) ;;;
         caches_delete cacheName) w
    = (Ok tt, set_caches (delete_all names) w, es).
Proof.
  revert w. induction names as [|name names IH]; intros w.
  - exists []. now destruct w.
  - cbn [for_each].
    destruct (IH (set_caches
      (List.filter (fun b => negb (String.eqb (fst b) name))) w)) as [es Hes].
    eexists. erewrite bind_run.
    2: { step. unfold caches_delete. step. reflexivity. }
    rewrite Hes. reflexivity.
Qed.

Lemma delete_all_filter names (l : list (string * Cache)) :
  delete_all names l =
  List.filter (fun b => negb (existsb (String.eqb (fst b)) names)) l.
Proof.
  unfold delete_all. revert l. induction names as [|name names IH]; intros l; cbn.
  - induction l as [|b l IHl]; cbn; [reflexivity | now rewrite <- IHl].
  - rewrite IH. clear IH. induction l as [|b l IHl]; cbn; [reflexivity |].
    destruct (String.eqb (fst b) name); cbn; [assumption |].
    destruct (existsb _ names); cbn; now rewrite IHl.
Qed.

Lemma existsb_filter_names (p : string -> bool) (l : list (string * Cache)) b :
  In b l ->
  existsb (String.eqb (fst b)) (List.filter p (map fst l)) = p (fst b).
Proof.
  intros Hin. destruct (p (fst b)) eqn:Hp.
  - apply existsb_exists. exists (fst b). split; [| apply String.eqb_refl].
    apply filter_In. split; [now apply in_map | assumption].
  - apply not_true_is_false. intros Hex. apply existsb_exists in Hex as (n & Hn & Heq).
    apply String.eqb_eq in Heq. subst n. apply filter_In in Hn. destruct Hn. congruence.
Qed.

(** The buckets after activation: exactly those the filter does not select. *)
Lemma activation_caches env w :
  caches (world_of (Worker.on_activate env) w) =
  List.filter (fun b => negb (Worker.is_old_cache (fst b))) (caches w).
Proof.
  unfold Worker.on_activate, world_of.
  destruct (delete_each_run
    (List.filter Worker.is_old_cache (map fst (caches w))) w) as [es Hes].
  do 2 step. erewrite bind_run; [| exact Hes]. cbn beta iota zeta.
  do 2 step. cbn.
  rewrite delete_all_filter. apply filter_ext_in. intros b Hb.
  now rewrite existsb_filter_names.
Qed.

Lemma old_cache_name tag :
  tag <> Worker.VERSION -> Worker.is_old_cache ("static-cache-" +:+ tag) = true.
Proof.
  intros Hne. unfold Worker.is_old_cache, startsWith, Worker.CURRENT_CACHE.
  apply andb_true_intro. split.
  - vm_compute. now destruct tag.
  - apply negb_true_iff, String.eqb_neq. intros Heq. apply Hne.
    vm_compute in Heq. now injection Heq.
Qed.

Lemma match_in_put_in name url r (l : list (string * Cache)) :
  match_in url l = None -> match_in url (put_in name url r l) = Some r.
Proof.
  induction l as [|[n c] l IH]; intros Hnone; cbn [put_in match_in] in *.
  - now rewrite lookup_singleton_eq.
  - destruct (c !! url) eqn:Hc; [discriminate |].
    destruct (String.eqb n name); cbn [match_in].
    + now rewrite lookup_insert_eq.
    + rewrite Hc. now apply IH.
Qed.

(** The answer from the cache: no effect at all. *)
Lemma respond_hit env request w r :
  cached w request = Some r -> Worker.respond env request w = (Ok r, w, []).
Proof. intros Hhit. unfold Worker.respond. run. now rewrite Hhit. Qed.

(** The answer from the network. *)
Lemma respond_miss env request w :
  cached w request = None ->
  Worker.respond env request w =
  let url := href (req_url request) in
  match network env (tick w) url (req_method request) VUndefined with
  | None =>
      (Throw "TypeError: Failed to fetch", next_tick w,
       [Fetch url (req_method request) VUndefined])
  | Some r =>
      if Worker.skips_cache request then
        (Ok r, next_tick w, [Fetch url (req_method request) VUndefined])
      else
        (Ok r, set_caches (put_in Worker.CURRENT_CACHE url r) (next_tick w),
         [Fetch url (req_method request) VUndefined;
          CachePut Worker.CURRENT_CACHE url])
  end.
Proof.
  intros Hmiss. unfold Worker.respond. run. rewrite Hmiss. run.
  destruct (network env _ _ _ _) as [r|]; run; [| reflexivity].
  destruct (Worker.skips_cache request); reflexivity.
Qed.

Lemma skips_cache_false request :
  Worker.skips_cache request = false <->
  req_method request = "GET"
  /\ includes (pathname (req_url request)) "/api/" = false
  /\ hostname (req_url request) <> Worker.SERVER_HOSTNAME.
Proof.
  unfold Worker.skips_cache.
  rewrite !orb_false_iff, negb_false_iff, String.eqb_eq, String.eqb_neq.
  tauto.
Qed.

End CacheFacts.

(** ** Facts about navigation tracking *)

Section TrackingFacts.
Import JS Platform System.

Lemma navigation_posts_app es1 es2 :
  navigation_posts (es1 ++ es2) = navigation_posts es1 ++ navigation_posts es2.
Proof.
  induction es1 as [|e es1 IH]; [reflexivity |].
  destruct e; cbn [navigation_posts app]; try assumption.
  destruct (is_string _ _); cbn [app]; now rewrite IH.
Qed.

Lemma navigation_posts_log message (l : list Client) :
  navigation_posts (map (fun c => PostMessage c (Worker.log_message message)) l) = [].
Proof. induction l; [reflexivity | assumption]. Qed.

Lemma navigation_posts_navigation request (l : list Client) :
  navigation_posts (map (fun c => PostMessage c (Worker.navigation_message request)) l)
  = map (fun c => (c, Worker.navigation_message request)) l.
Proof. induction l as [|c l IH]; [reflexivity |]. cbn. now rewrite IH. Qed.

Lemma reports_navigation request (l : list Client) :
  reports (map (fun c => PostMessage c (Worker.navigation_message request)) l) = [].
Proof. induction l; [reflexivity | assumption]. Qed.

(** A run of the worker's reporter: one request where the registration has
    a push manager, then one log line. *)
Lemma worker_report_run env url referrer w :
  exists result message,
    Worker.logNavigationToServer env url referrer w =
    (Ok result, (if has_PushManager env then next_tick w else w),
     (if has_PushManager env
      then [Fetch (Worker.SERVER_URL +:+ "/log-navigation") "POST"
              (VObj [("url", url);
                     ("referrer", or_else referrer (VStr "unknown"));
                     ("userAgent", VStr "service-worker");
                     ("subscriptionEndpoint",
                      VStr match head (subscriptions w) with
                           | Some subscription => endpoint subscription
                           | None => "not-available-in-sw"
                           end);
                     ("timestamp", VStr (clock env (tick w)))])]
      else [])
     ++ ConsoleLog ("[Service Worker " +:+ Worker.VERSION +:+ "] " +:+ message)
        :: map (fun c => PostMessage c (Worker.log_message message)) (controlled w)).
Proof.
  unfold Worker.logNavigationToServer. run.
  destruct (has_PushManager env); run;
    [destruct (network env _ _ _ _) as [r|]; run; [destruct (resp_json r); run |] |];
    rewrite swLog_run; run; rewrite ?app_nil_r; eauto.
Qed.

Ltac observe :=
  repeat (progress
    (cbn [navigation_posts reports map app];
     rewrite ?navigation_posts_app, ?reports_app, ?navigation_posts_log,
       ?reports_log_posts, ?navigation_posts_navigation, ?reports_navigation,
       ?worker_log_url, ?app_nil_r;
     cbn [navigation_posts reports map app andb String.eqb Ascii.eqb Bool.eqb]));
  try reflexivity.

Lemma filter_fetch_posts (l : list Client) (f : Client -> value) :
  List.filter is_fetch (map (fun c => PostMessage c (f c)) l) = [].
Proof. induction l; [reflexivity | assumption]. Qed.

Ltac calls :=
  repeat (progress
    (cbn [List.filter is_fetch app];
     rewrite ?List.filter_app, ?filter_fetch_posts, ?app_nil_r));
  try reflexivity.

Lemma or_else_text s d :
  or_else (VStr s) d = if String.eqb s "" then d else VStr s.
Proof. unfold or_else. cbn. now destruct (String.eqb s ""). Qed.

(** The reporter of the worker where the registration has no push manager:
    the error is logged, nothing is sent. *)
Lemma worker_report_without_push env url referrer w :
  has_PushManager env = false ->
  Worker.logNavigationToServer env url referrer w =
  (Ok (VObj [("error", VStr "TypeError: Cannot read properties of undefined")]), w,
   (Worker.swLog
      ("Error logging navigation to server: "
       +:+ "TypeError: Cannot read properties of undefined") w).2).
Proof.
  intros Hpm. unfold Worker.logNavigationToServer. run. rewrite Hpm. run.
  rewrite swLog_run. run. now rewrite app_nil_r.
Qed.

(** First part of the fetch listener: what it posts and reports. *)
Lemma track_run env request w :
  exists w' es,
    Worker.track env request w = (Ok tt, w', es)
    /\ caches w' = caches w
    /\ navigation_posts es =
       (if Worker.is_tracked_navigation request
        then map (fun c => (c, Worker.navigation_message request)) (controlled w)
        else [])
    /\ reports es =
       (if Worker.is_tracked_navigation request && has_PushManager env
        then [tracked_report env w request] else [])
    /\ List.filter is_fetch es =
       (if Worker.is_tracked_navigation request && has_PushManager env
        then [Fetch LOG_NAVIGATION_URL "POST" (tracked_report env w request)] else [])
    /\ (Worker.is_tracked_navigation request = true ->
        forall e,
          In e (Worker.logNavigationToServer env (VStr (href (req_url request)))
                  (VStr (req_referrer request)) w).2 ->
          In e es).
Proof.
  unfold Worker.track.
  destruct (worker_report_run env (VStr (href (req_url request)))
              (VStr (req_referrer request)) w) as (result & message & Hrep).
  destruct (negb _ && negb _); destruct (Worker.is_tracked_navigation request).
  - do 3 step.
    erewrite bind_run;
      [| apply (for_each_emit_run
                  (fun c => PostMessage c (Worker.navigation_message request)))].
    cbn beta iota zeta. erewrite bind_run; [| exact Hrep].
    cbn beta iota zeta. do 2 eexists. split; [reflexivity |].
    split; [now destruct (has_PushManager env) |].
    split; [| split; [| split]];
      [destruct (has_PushManager env); observe; calls ..
      | intros _ e He; rewrite Hrep in He; cbn [snd] in He;
        rewrite !in_app_iff in *; tauto].
  - step. do 2 eexists. split; [reflexivity |].
    split; [reflexivity |]. split; [| split; [| split]];
      [observe; calls .. | discriminate].
  - do 3 step.
    erewrite bind_run;
      [| apply (for_each_emit_run
                  (fun c => PostMessage c (Worker.navigation_message request)))].
    cbn beta iota zeta. erewrite bind_run; [| exact Hrep].
    cbn beta iota zeta. do 2 eexists. split; [reflexivity |].
    split; [now destruct (has_PushManager env) |].
    split; [| split; [| split]];
      [destruct (has_PushManager env); observe; calls ..
      | intros _ e He; rewrite Hrep in He; cbn [snd] in He;
        rewrite !in_app_iff in *; tauto].
  - step. do 2 eexists. split; [reflexivity |].
    split; [reflexivity |]. split; [| split; [| split]];
      [observe; calls .. | discriminate].
Qed.

(** Second part of the fetch listener: no message, no report. *)
Lemma respond_silent env request w :
  navigation_posts (Worker.respond env request w).2 = []
  /\ reports (Worker.respond env request w).2 = [].
Proof.
  destruct (cached w request) as [r|] eqn:Hc.
  - now rewrite (respond_hit _ _ _ _ Hc).
  - rewrite (respond_miss _ _ _ Hc). cbn zeta.
    destruct (network env _ _ _ _); [destruct (Worker.skips_cache request) |];
      split; reflexivity.
Qed.

(** The first part of the fetch listener for a request that is not
    tracked: at most the line of the fetch event. *)
Lemma track_untracked env request w :
  Worker.is_tracked_navigation request = false ->
  Worker.track env request w =
  (Ok tt, w,
   if negb (includes (pathname (req_url request)) "/log-navigation")
      && negb (includes (pathname (req_url request)) "/subscribe")
   then (Worker.swLog ("Fetch event: " +:+ pathname (req_url request)) w).2
   else []).
Proof.
  intros Hno. unfold Worker.track. rewrite Hno.
  destruct (negb _ && negb _).
  - step. rewrite swLog_run. cbn. now rewrite app_nil_r.
  - reflexivity.
Qed.

(** The second part of the fetch listener writes nothing to the console. *)
Lemma respond_no_console env request w line :
  ~ In (ConsoleLog line) (Worker.respond env request w).2.
Proof.
  destruct (cached w request) as [r|] eqn:Hc.
  - rewrite (respond_hit _ _ _ _ Hc). intros [].
  - rewrite (respond_miss _ _ _ Hc). cbn zeta.
    destruct (network env _ _ _ _); [destruct (Worker.skips_cache request) |];
      cbn; intuition discriminate.
Qed.

Lemma tracked_navigation_iff request :
  Worker.is_tracked_navigation request = true <->
  endsWith (hostname (req_url request)) "vercel.app" = true
  /\ req_method request = "GET"
  /\ req_mode request = "navigate".
Proof.
  unfold Worker.is_tracked_navigation.
  rewrite !andb_true_iff, !String.eqb_eq. tauto.
Qed.

End TrackingFacts.

(** ** Facts about the push listener *)

Section PushFacts.
Import JS Platform System.

Lemma notifications_app es1 es2 :
  notifications (es1 ++ es2) = notifications es1 ++ notifications es2.
Proof.
  induction es1 as [|e es1 IH]; [reflexivity |].
  destruct e; cbn [notifications app]; try assumption. now rewrite IH.
Qed.

Lemma notifications_log message (l : list Client) :
  notifications (map (fun c => PostMessage c (Worker.log_message message)) l) = [].
Proof. induction l; [reflexivity | assumption]. Qed.

(** The [try] block of the push listener never throws. *)
Lemma push_payload_run env data w :
  exists es,
    try_catch
      (match data with
       | Some text =>
           let* notificationData := parse env text in
           Worker.swLog ("Push data: " +:+ JSON_stringify env notificationData) ;;;
           ret notificationData
       | None => ret (VObj [])
       end)
      (fun error =>
         Worker.swLog ("Error parsing push data: " +:+ error) ;;; ret (VObj [])) w
    = (Ok (push_payload env data), w, es)
    /\ notifications es = []
    /\ (forall text, data = Some text -> JSON_parse env text = None ->
        In (ConsoleLog ("[Service Worker " +:+ Worker.VERSION +:+ "] "
                        +:+ "Error parsing push data: SyntaxError: Unexpected token")) es).
Proof.
  destruct data as [text|]; cbn [push_payload].
  - destruct (JSON_parse env text) as [v|] eqn:Hparse; cbn [default].
    + eexists. split; [| split].
      * apply try_catch_ok. unfold parse. rewrite Hparse. do 2 step. reflexivity.
      * cbn. rewrite app_nil_r. apply notifications_log.
      * intros ? [= <-] ?. congruence.
    + eexists. split; [| split].
      * erewrite try_catch_throw; [| unfold parse; rewrite Hparse; reflexivity].
        step. reflexivity.
      * cbn. rewrite app_nil_r. apply notifications_log.
      * intros ? _ _. cbn. now left.
  - exists []. split; [reflexivity |]. split; [reflexivity |]. intros; discriminate.
Qed.

End PushFacts.

(** ** Facts about the subscription *)

Section SubscriptionFacts.
Import JS Platform System.

Lemma hardcoded_key_decodes :
  Page.urlBase64ToUint8Array Page.HARDCODED_VAPID_KEY = Some Page.HARDCODED_KEY_BYTES.
Proof. vm_compute. reflexivity. Qed.

Lemma without_logs_app es1 es2 :
  without_logs (es1 ++ es2) = without_logs es1 ++ without_logs es2.
Proof. apply List.filter_app. Qed.

Lemma without_logs_log env message w : without_logs (Page.log env message w).2 = [].
Proof. rewrite page_log_run. now destruct (has_log_panel env). Qed.

(** The inner [try] of [subscribeUserToPush] always yields a key. *)
Lemma fetch_vapid_key_run env w :
  exists es,
    Page.fetch_vapid_key env w =
      (Ok (default Page.HARDCODED_VAPID_KEY (server_key env w)), next_tick w, es)
    /\ without_logs es = [Fetch VAPID_KEY_URL "GET" VUndefined].
Proof.
  unfold Page.fetch_vapid_key, server_key, VAPID_KEY_URL, Page.substring10, Page.log.
  run.
  destruct (network env _ _ _ _) as [r|]; run;
    [destruct (resp_json r) as [data|]; run;
       [destruct (get data "publicKey") as [[]|]; run |] |];
    destruct (has_log_panel env); run; eexists; split; reflexivity.
Qed.

(** The report of a subscription never throws. *)
Lemma sendSubscriptionToServer_run env s w :
  exists es,
    Page.sendSubscriptionToServer env s w = (Ok tt, next_tick w, es)
    /\ without_logs es = [Fetch SUBSCRIBE_URL "POST" (subscription_report env s)].
Proof.
  unfold Page.sendSubscriptionToServer, SUBSCRIBE_URL, subscription_report, Page.log.
  run.
  destruct (network env _ _ _ _) as [r|]; run;
    [destruct (resp_json r) as [data|]; run |];
    destruct (has_log_panel env); run; eexists; split; reflexivity.
Qed.

(** A call with an active subscription, when the key decodes. *)
Lemma subscribe_existing env w s rest bytes :
  has_serviceWorker env = true -> has_PushManager env = true ->
  worker_ready env = true ->
  subscriptions w = s :: rest ->
  Page.urlBase64ToUint8Array (default Page.HARDCODED_VAPID_KEY (server_key env w))
    = Some bytes ->
  exists es,
    Page.subscribeUserToPush env w =
      (Ok (Some s),
       set_localStorage
         (insert "pushSubscription" (JSON_stringify env (subscription_value s)))
         (next_tick (next_tick w)),
       es)
    /\ without_logs es =
       [Fetch VAPID_KEY_URL "GET" VUndefined;
        Fetch SUBSCRIBE_URL "POST" (subscription_report env s)].
Proof.
  intros Hsw Hpm Hready Hsubs Hkey.
  destruct (fetch_vapid_key_run env w) as (es1 & Hrun1 & Hes1).
  destruct (sendSubscriptionToServer_run env s (next_tick w)) as (es2 & Hrun2 & Hes2).
  unfold Page.subscribeUserToPush. rewrite Hsw, Hpm, Hready. cbn [negb orb].
  eexists. split.
  - apply try_catch_ok. do 2 step.
    erewrite bind_run; [| exact Hrun1]. cbn beta iota zeta.
    rewrite Hkey. do 2 step. cbn [subscriptions next_tick]. rewrite Hsubs. cbn [head].
    erewrite bind_run; [| step; reflexivity]. cbn beta iota zeta.
    erewrite bind_run; [| exact Hrun2]. cbn beta iota zeta.
    step. reflexivity.
  - rewrite !without_logs_app, Hes1, Hes2. destruct (has_log_panel env); reflexivity.
Qed.

(** A call without a subscription, when the key decodes and the push
    service grants the subscription. *)
Lemma subscribe_fresh env w s bytes :
  has_serviceWorker env = true -> has_PushManager env = true ->
  worker_ready env = true ->
  subscriptions w = [] ->
  Page.urlBase64ToUint8Array (default Page.HARDCODED_VAPID_KEY (server_key env w))
    = Some bytes ->
  push_service env (S (tick w)) bytes = Some s ->
  exists es,
    Page.subscribeUserToPush env w =
      (Ok (Some s),
       set_localStorage
         (insert "pushSubscription" (JSON_stringify env (subscription_value s)))
         (next_tick (set_subscriptions (fun l => l ++ [s]) (next_tick (next_tick w)))),
       es)
    /\ without_logs es =
       [Fetch VAPID_KEY_URL "GET" VUndefined;
        Subscribe true bytes;
        Fetch SUBSCRIBE_URL "POST" (subscription_report env s)].
Proof.
  intros Hsw Hpm Hready Hsubs Hkey Hpush.
  destruct (fetch_vapid_key_run env w) as (es1 & Hrun1 & Hes1).
  destruct (sendSubscriptionToServer_run env s
              (set_subscriptions (fun l => l ++ [s]) (next_tick (next_tick w))))
    as (es2 & Hrun2 & Hes2).
  unfold Page.subscribeUserToPush. rewrite Hsw, Hpm, Hready. cbn [negb orb].
  eexists. split.
  - apply try_catch_ok. do 2 step.
    erewrite bind_run; [| exact Hrun1]. cbn beta iota zeta.
    rewrite Hkey. do 2 step. cbn [subscriptions next_tick]. rewrite Hsubs. cbn [head].
    erewrite bind_run.
    2: { erewrite bind_run.
         2: { unfold pushManager_subscribe. do 3 step. cbn [tick next_tick].
              rewrite Hpush. do 2 step. reflexivity. }
         cbn beta iota zeta. step. reflexivity. }
    cbn beta iota zeta.
    erewrite bind_run; [| exact Hrun2]. cbn beta iota zeta.
    step. reflexivity.
  - rewrite !without_logs_app, Hes1, Hes2. destruct (has_log_panel env); reflexivity.
Qed.

End SubscriptionFacts.

(** ** Which pieces of script can create a subscription *)

Create HintDb harmless.

Section InvariantFacts.
Import JS Platform System.

Lemma harmless_ret {A} (a : A) : harmless (ret a).
Proof. intros w. split; reflexivity. Qed.

Lemma harmless_throw {A} e : harmless (@throw A e).
Proof. intros w. split; reflexivity. Qed.

Lemma harmless_pending {A} : harmless (@pending A).
Proof. intros w. split; reflexivity. Qed.

Lemma harmless_get_world : harmless get_world.
Proof. intros w. split; reflexivity. Qed.

Lemma harmless_emit e : is_subscribe e = false -> harmless (emit e).
Proof. intros He w. split; [reflexivity |]. cbn. now rewrite He. Qed.

Lemma harmless_modify f :
  (forall w, subscriptions (f w) = subscriptions w) -> harmless (modify f).
Proof. intros Hf w. split; [apply Hf | reflexivity]. Qed.

Lemma harmless_of_option {A} e (o : option A) : harmless (of_option e o).
Proof. destruct o; [apply harmless_ret | apply harmless_throw]. Qed.

Lemma harmless_bind {A B} (m : M A) (k : A -> M B) :
  harmless m -> (forall a, harmless (k a)) -> harmless (bind m k).
Proof.
  intros Hm Hk w. specialize (Hm w). unfold world_of, effects_of, bind in *.
  destruct (m w) as [[[a|e|] w1] es1]; cbn in *; try exact Hm.
  specialize (Hk a w1). unfold world_of, effects_of in Hk.
  destruct (k a w1) as [[r w2] es2]. cbn in *.
  destruct Hm as [Hw1 Hes1], Hk as [Hw2 Hes2]. split; [congruence |].
  now rewrite List.filter_app, Hes1, Hes2.
Qed.

Lemma harmless_try_catch {A} (m : M A) handler :
  harmless m -> (forall e, harmless (handler e)) -> harmless (try_catch m handler).
Proof.
  intros Hm Hh w. specialize (Hm w). unfold world_of, effects_of, try_catch in *.
  destruct (m w) as [[[a|e|] w1] es1]; cbn in *; try exact Hm.
  specialize (Hh e w1). unfold world_of, effects_of in Hh.
  destruct (handler e w1) as [[r w2] es2]. cbn in *.
  destruct Hm as [Hw1 Hes1], Hh as [Hw2 Hes2]. split; [congruence |].
  now rewrite List.filter_app, Hes1, Hes2.
Qed.

Lemma harmless_for_each {A} (l : list A) (f : A -> M unit) :
  (forall a, harmless (f a)) -> harmless (for_each l f).
Proof.
  intros Hf. induction l as [|a l IH]; cbn [for_each].
  - apply harmless_ret.
  - apply harmless_bind; [apply Hf | intros _; exact IH].
Qed.

End InvariantFacts.

(** ** Laws of the monad *)

Section MonadLaws.
Import Platform.

Lemma bind_ret_l {A B} (a : A) (k : A -> M B) w : bind (ret a) k w = k a w.
Proof. unfold bind, ret. now destruct (k a w) as [[r w2] es2]. Qed.

Lemma bind_ret_tt (m : M unit) w : bind m (fun _ => ret tt) w = m w.
Proof.
  unfold bind, ret. destruct (m w) as [[[[]|e|] w1] es1]; cbn; now rewrite ?app_nil_r.
Qed.

Lemma bind_assoc {A B C} (m : M A) (k : A -> M B) (k' : B -> M C) w :
  bind (bind m k) k' w = bind m (fun a => bind (k a) k') w.
Proof.
  unfold bind. destruct (m w) as [[[a|e|] w1] es1]; try reflexivity.
  destruct (k a w1) as [[[b|e|] w2] es2]; try reflexivity.
  destruct (k' b w2) as [[r w3] es3]. now rewrite app_assoc.
Qed.

Lemma bind_ext {A B} (m m' : M A) (k k' : A -> M B) w :
  (forall w, m w = m' w) -> (forall a w, k a w = k' a w) ->
  bind m k w = bind m' k' w.
Proof.
  intros Hm Hk. unfold bind. rewrite Hm.
  destruct (m' w) as [[[a|e|] w1] es1]; try reflexivity. now rewrite Hk.
Qed.

Lemma try_catch_ext {A} (m m' : M A) (h h' : string -> M A) w :
  (forall w, m w = m' w) -> (forall e w, h e w = h' e w) ->
  try_catch m h w = try_catch m' h' w.
Proof.
  intros Hm Hh. unfold try_catch. rewrite Hm.
  destruct (m' w) as [[[a|e|] w1] es1]; try reflexivity. now rewrite Hh.
Qed.

(** A [try] block cut in two: what the first part throws is caught at
    once, what the second part throws is caught when it runs. *)
Lemma try_catch_cut {A B} (m : M A) (rest : A -> M B) (h : string -> M B) w :
  try_catch (bind m rest) h w =
  (let* r := try_catch (let* a := m in ret (inr a))
               (fun e => let* b := h e in ret (inl b)) in
   match r with
   | inl b => ret b
   | inr a => try_catch (rest a) h
   end) w.
Proof.
  unfold try_catch, bind, ret. destruct (m w) as [[[a|e|] w1] es1]; cbn.
  - rewrite app_nil_r.
    destruct (rest a w1) as [[[b|e|] w2] es2]; try reflexivity.
    destruct (h e w2) as [[r w3] es3]. now rewrite app_assoc.
  - destruct (h e w1) as [[[b|e'|] w2] es2]; cbn; now rewrite ?app_nil_r.
  - reflexivity.
Qed.

End MonadLaws.

(** Decomposes a script into its steps. *)
Ltac harmless_step :=
  match goal with
  | |- forall _, _ => intro
  | |- System.harmless (Platform.bind _ _) => apply harmless_bind
  | |- System.harmless (Platform.try_catch _ _) => apply harmless_try_catch
  | |- System.harmless (Platform.ret _) => apply harmless_ret
  | |- System.harmless (Platform.throw _) => apply harmless_throw
  | |- System.harmless Platform.pending => apply harmless_pending
  | |- System.harmless Platform.get_world => apply harmless_get_world
  | |- System.harmless (Platform.emit _) => apply harmless_emit; reflexivity
  | |- System.harmless (Platform.modify _) => apply harmless_modify; intro; reflexivity
  | |- System.harmless (Platform.of_option _ _) => apply harmless_of_option
  | |- System.harmless (Platform.for_each _ _) => apply harmless_for_each
  | |- System.harmless (if ?b then _ else _) => destruct b
  | |- System.harmless (match ?x with _ => _ end) => destruct x
  | |- System.harmless _ => solve [auto with harmless]
  end.

Ltac harmless := repeat harmless_step.

Section Harmless.
Import JS Platform System.
Variable env : Env.

Lemma harmless_fetch url method body : harmless (fetch env url method body).
Proof. unfold fetch. harmless. Qed.

Lemma harmless_response_json r : harmless (response_json r).
Proof. unfold response_json. harmless. Qed.

Lemma harmless_parse text : harmless (parse env text).
Proof. unfold parse. harmless. Qed.

Lemma harmless_get_prop v k : harmless (get_prop v k).
Proof. unfold get_prop. harmless. Qed.

Lemma harmless_getSubscription : harmless getSubscription.
Proof. unfold getSubscription. harmless. Qed.

Lemma harmless_pushManager_getSubscription :
  harmless (pushManager_getSubscription env).
Proof. unfold pushManager_getSubscription, getSubscription. harmless. Qed.

Lemma harmless_getItem k : harmless (localStorage_getItem k).
Proof. unfold localStorage_getItem. harmless. Qed.

Lemma harmless_setItem k v : harmless (localStorage_setItem k v).
Proof. unfold localStorage_setItem. harmless. Qed.

Lemma harmless_now : harmless (now env).
Proof. unfold now. harmless. Qed.

Lemma harmless_matchAll : harmless clients_matchAll.
Proof. unfold clients_matchAll. harmless. Qed.

Lemma harmless_caches_keys : harmless caches_keys.
Proof. unfold caches_keys. harmless. Qed.

Lemma harmless_caches_delete name : harmless (caches_delete name).
Proof. unfold caches_delete. harmless. Qed.

Lemma harmless_cache_put name request r : harmless (cache_put name request r).
Proof. unfold cache_put. harmless. Qed.

Lemma harmless_caches_match request : harmless (caches_match request).
Proof. unfold caches_match. harmless. Qed.

Hint Resolve harmless_fetch harmless_response_json harmless_parse harmless_get_prop
  harmless_getSubscription harmless_pushManager_getSubscription
  harmless_getItem harmless_setItem harmless_now
  harmless_matchAll harmless_caches_keys harmless_caches_delete harmless_cache_put
  harmless_caches_match : harmless.

Lemma harmless_log message : harmless (Page.log env message).
Proof. unfold Page.log. harmless. Qed.

Lemma harmless_swLog message : harmless (Worker.swLog message).
Proof. unfold Worker.swLog. harmless. Qed.

Lemma harmless_set_status text : harmless (Page.set_status env text).
Proof. unfold Page.set_status. harmless. Qed.

Hint Resolve harmless_log harmless_swLog harmless_set_status : harmless.

Lemma harmless_sendSubscriptionToServer s :
  harmless (Page.sendSubscriptionToServer env s).
Proof. unfold Page.sendSubscriptionToServer. harmless. Qed.

Lemma harmless_fetch_vapid_key : harmless (Page.fetch_vapid_key env).
Proof. unfold Page.fetch_vapid_key, Page.substring10. harmless. Qed.

Lemma harmless_page_report url referrer :
  harmless (Page.logNavigationToServer env url referrer).
Proof. unfold Page.logNavigationToServer. harmless. Qed.

Lemma harmless_worker_report url referrer :
  harmless (Worker.logNavigationToServer env url referrer).
Proof. unfold Worker.logNavigationToServer. harmless. Qed.

Hint Resolve harmless_sendSubscriptionToServer harmless_fetch_vapid_key
  harmless_page_report harmless_worker_report : harmless.

Lemma harmless_fetch_all paths : harmless (Worker.fetch_all env paths).
Proof. induction paths as [|path paths IH]; cbn [Worker.fetch_all]; harmless. Qed.

Hint Resolve harmless_fetch_all : harmless.

(** *** The listeners that never subscribe *)

Lemma harmless_page_message data : harmless (Page.on_message env data).
Proof. unfold Page.on_message. harmless. Qed.

Lemma harmless_DOMContentLoaded : harmless (Page.on_DOMContentLoaded env).
Proof. unfold Page.on_DOMContentLoaded. harmless. Qed.

Lemma harmless_click chain : harmless (Page.on_click env chain).
Proof. unfold Page.on_click. harmless. Qed.

Lemma harmless_beforeunload : harmless (Page.on_beforeunload env).
Proof. unfold Page.on_beforeunload. harmless. Qed.

Lemma harmless_popstate : harmless (Page.on_popstate env).
Proof. unfold Page.on_popstate. harmless. Qed.

Lemma harmless_install : harmless (Worker.on_install env).
Proof. unfold Worker.on_install. harmless. Qed.

Lemma harmless_activate : harmless (Worker.on_activate env).
Proof. unfold Worker.on_activate. harmless. Qed.

Lemma harmless_track request : harmless (Worker.track env request).
Proof. unfold Worker.track. harmless. Qed.

Lemma harmless_respond request : harmless (Worker.respond env request).
Proof. unfold Worker.respond. harmless. Qed.

Lemma harmless_on_fetch request : harmless (Worker.on_fetch env request).
Proof.
  unfold Worker.on_fetch.
  apply harmless_bind; [apply harmless_track | intros _; apply harmless_respond].
Qed.

Lemma harmless_push data : harmless (Worker.on_push env data).
Proof. unfold Worker.on_push. harmless. Qed.

Lemma harmless_notificationclick notification :
  harmless (Worker.on_notificationclick env notification).
Proof. unfold Worker.on_notificationclick. harmless. Qed.

Lemma harmless_worker_message data : harmless (Worker.on_message env data).
Proof. unfold Worker.on_message. harmless. Qed.

Lemma harmless_clientschanged : harmless Worker.on_clientschanged.
Proof. unfold Worker.on_clientschanged. harmless. Qed.

(** *** The guarded subscription *)

Lemma careful_of_harmless {A} (m : M A) : harmless m -> careful m.
Proof.
  intros Hm w. destruct (Hm w) as [Hw Hes]. split; [auto |].
  intros Hnil. rewrite Hw, Hnil. cbn. lia.
Qed.


Lemma careful_bind {A B} (m : M A) (k : A -> M B) :
  careful m -> (forall a, careful (k a)) -> careful (bind m k).
Proof.
  intros Hm Hk w. specialize (Hm w). unfold world_of, effects_of, bind in *.
  destruct (m w) as [[[a|e|] w1] es1]; cbn in *; try exact Hm.
  specialize (Hk a w1). unfold world_of, effects_of in Hk.
  destruct (k a w1) as [[r w2] es2]. cbn in *.
  destruct Hm as [Hkeep1 Hone1], Hk as [Hkeep2 Hone2]. split.
  - intros Hne. destruct (Hkeep1 Hne) as [Hw1 Hes1].
    destruct Hkeep2 as [Hw2 Hes2]; [congruence |]. split; [congruence |].
    now rewrite List.filter_app, Hes1, Hes2.
  - intros Hnil. specialize (Hone1 Hnil).
    destruct (subscriptions w1) as [|s1 l1] eqn:Hw1; [now apply Hone2 |].
    destruct Hkeep2 as [Hw2 _]; [discriminate |]. now rewrite Hw2.
Qed.

Lemma careful_try_catch {A} (m : M A) handler :
  careful m -> (forall e, careful (handler e)) -> careful (try_catch m handler).
Proof.
  intros Hm Hh w. specialize (Hm w). unfold world_of, effects_of, try_catch in *.
  destruct (m w) as [[[a|e|] w1] es1]; cbn in *; try exact Hm.
  specialize (Hh e w1). unfold world_of, effects_of in Hh.
  destruct (handler e w1) as [[r w2] es2]. cbn in *.
  destruct Hm as [Hkeep1 Hone1], Hh as [Hkeep2 Hone2]. split.
  - intros Hne. destruct (Hkeep1 Hne) as [Hw1 Hes1].
    destruct Hkeep2 as [Hw2 Hes2]; [congruence |]. split; [congruence |].
    now rewrite List.filter_app, Hes1, Hes2.
  - intros Hnil. specialize (Hone1 Hnil).
    destruct (subscriptions w1) as [|s1 l1] eqn:Hw1; [now apply Hone2 |].
    destruct Hkeep2 as [Hw2 _]; [discriminate |]. now rewrite Hw2.
Qed.

Lemma at_most_one_bind {A B} (m : M A) (k : A -> M B) :
  at_most_one m -> (forall a, harmless (k a)) -> at_most_one (bind m k).
Proof.
  intros Hm Hk w Hnil. specialize (Hm w Hnil). unfold world_of, bind in *.
  destruct (m w) as [[[a|e|] w1] es1]; cbn in *; try exact Hm.
  specialize (Hk a w1). unfold world_of, effects_of in Hk.
  destruct (k a w1) as [[r w2] es2]. cbn in *. destruct Hk as [-> _]. exact Hm.
Qed.

Lemma at_most_one_subscribe userVisibleOnly key :
  at_most_one (pushManager_subscribe env userVisibleOnly key).
Proof.
  intros w Hnil. unfold pushManager_subscribe. run.
  destruct (push_service env (tick w) key); run; cbn; rewrite Hnil; cbn; lia.
Qed.

(** The test on [getSubscription()] protects what follows it. *)
Lemma careful_guard {B} (k : option PushSubscription -> M B) :
  (forall s, harmless (k (Some s))) -> at_most_one (k None) ->
  careful (bind getSubscription k).
Proof.
  intros Hsome Hnone w. unfold world_of, effects_of. run.
  destruct (subscriptions w) as [|s rest] eqn:Hsubs; cbn [head].
  - specialize (Hnone w Hsubs). unfold world_of in Hnone.
    destruct (k None w) as [[r w2] es2]. cbn in *. split; [congruence | auto].
  - destruct (Hsome s w) as [Hw Hes]. unfold world_of, effects_of in Hw, Hes.
    destruct (k (Some s) w) as [[r w2] es2]. cbn in *.
    split; [intros _; split; congruence | discriminate].
Qed.

Lemma careful_subscribeUserToPush : careful (Page.subscribeUserToPush env).
Proof.
  unfold Page.subscribeUserToPush.
  destruct (negb (has_serviceWorker env) || negb (has_PushManager env)).
  - apply careful_of_harmless. harmless.
  - apply careful_try_catch; [| intros e; apply careful_of_harmless; harmless].
    apply careful_bind; [apply careful_of_harmless; harmless | intros _].
    apply careful_bind; [apply careful_of_harmless; harmless | intros _].
    apply careful_bind; [apply careful_of_harmless; harmless | intros key].
    apply careful_bind; [apply careful_of_harmless; harmless | intros bytes].
    apply careful_guard.
    + intros s. harmless.
    + apply at_most_one_bind; [| intros s; harmless].
      apply at_most_one_bind; [apply at_most_one_subscribe | intros s; harmless].
Qed.

Lemma careful_permission_click : careful (Page.on_permission_click env).
Proof.
  unfold Page.on_permission_click. destruct (has_Notification env).
  - apply careful_bind; [apply careful_of_harmless; harmless | intros w0].
    apply careful_bind; [apply careful_of_harmless; harmless | intros _].
    apply careful_bind; [apply careful_of_harmless; harmless | intros _].
    apply careful_bind; [apply careful_of_harmless; harmless | intros _].
    destruct (String.eqb _ _); [| apply careful_of_harmless; harmless].
    apply careful_bind; [apply careful_subscribeUserToPush | intros r].
    apply careful_of_harmless. harmless.
  - apply careful_of_harmless. harmless.
Qed.

(** The listeners that do not call [subscribeUserToPush] never touch the
    subscriptions. *)
Lemma harmless_run op : subscribing op = false -> harmless (run env op).
Proof.
  destruct op; cbn [run subscribing]; intros Hop; try discriminate;
    try (first [ apply harmless_DOMContentLoaded
               | apply harmless_beforeunload
               | apply harmless_popstate | apply harmless_install
               | apply harmless_activate | apply harmless_push
               | apply harmless_notificationclick | apply harmless_worker_message
               | apply harmless_clientschanged ]).
  - destruct (_ && _); [apply harmless_page_message | apply harmless_ret].
  - destruct (has_status_element env); [apply harmless_click | apply harmless_ret].
  - apply harmless_bind; [apply harmless_on_fetch | intros r; harmless].
Qed.

(** Every listener of the two scripts is careful. *)
Lemma careful_run op : careful (run env op).
Proof.
  destruct (subscribing op) eqn:Hop;
    [| now apply careful_of_harmless, harmless_run].
  destruct op; try discriminate; cbn [run].
  - destruct (_ && _);
      [apply careful_permission_click | apply careful_of_harmless, harmless_ret].
  - apply careful_bind; [apply careful_subscribeUserToPush | intros r].
    apply careful_of_harmless. harmless.
Qed.

(** *** Calls of [subscribeUserToPush] that overlap *)

(** The two parts of [subscribeUserToPush], one after the other, are the
    whole call. *)
Lemma subscribe_split w :
  Page.subscribeUserToPush env w =
  (let* r := Page.subscribe_lookup env in
   match r with
   | inl result => ret result
   | inr call => Page.subscribe_resume env call
   end) w.
Proof.
  unfold Page.subscribeUserToPush, Page.subscribe_lookup.
  destruct (negb _ || negb _).
  - rewrite bind_assoc. apply bind_ext; [reflexivity | intros _ w1].
    now rewrite bind_ret_l.
  - set (h := fun error : string =>
                Page.log env ("Error subscribing to push: " +:+ error) ;;; ret None).
    set (prefix :=
      (if worker_ready env then ret tt else pending) ;;;
      Page.log env "Service worker is ready for push subscription" ;;;
      let* vapidPublicKey := Page.fetch_vapid_key env in
      let* applicationServerKey :=
        of_option
          "InvalidCharacterError: The string to be decoded is not correctly encoded"
          (Page.urlBase64ToUint8Array vapidPublicKey) in
      let* existing := getSubscription in
      ret {| Page.waiting_key := applicationServerKey;
             Page.waiting_found := existing |}).
    transitivity
      (try_catch (let* call := prefix in
                  let* subscription :=
                    match Page.waiting_found call with
                    | Some subscription =>
                        Page.log env "User already subscribed to push notifications" ;;;
                        ret subscription
                    | None =>
                        let* subscription :=
                          pushManager_subscribe env true (Page.waiting_key call) in
                        Page.log env "User subscribed to push notifications" ;;;
                        ret subscription
                    end in
                  Page.sendSubscriptionToServer env subscription ;;;
                  localStorage_setItem "pushSubscription"
                    (JSON_stringify env (subscription_value subscription)) ;;;
                  ret (Some subscription)) h w).
    + apply try_catch_ext; [| reflexivity]. intros w0. subst prefix.
      rewrite bind_assoc. apply bind_ext; [reflexivity | intros _ w1].
      rewrite bind_assoc. apply bind_ext; [reflexivity | intros _ w2].
      rewrite bind_assoc. apply bind_ext; [reflexivity | intros key w3].
      rewrite bind_assoc. apply bind_ext; [reflexivity | intros bytes w4].
      rewrite bind_assoc. apply bind_ext; [reflexivity | intros existing w5].
      now rewrite bind_ret_l.
    + rewrite try_catch_cut. apply bind_ext; [| intros [result|call] w1; reflexivity].
      intros w0. apply try_catch_ext.
      * intros w1. subst prefix.
        rewrite bind_assoc. apply bind_ext; [reflexivity | intros _ w2].
        rewrite bind_assoc. apply bind_ext; [reflexivity | intros _ w3].
        rewrite bind_assoc. apply bind_ext; [reflexivity | intros key w4].
        rewrite bind_assoc. apply bind_ext; [reflexivity | intros bytes w5].
        rewrite bind_assoc. apply bind_ext; [reflexivity | intros existing w6].
        now rewrite bind_ret_l.
      * intros e w1. subst h. cbn beta. rewrite bind_assoc.
        apply bind_ext; [reflexivity | intros _ w2]. now rewrite bind_ret_l.
Qed.

(** The same for the click on the permission button. *)
Lemma permission_click_split w :
  Page.on_permission_click env w =
  (let* r := Page.permission_click_lookup env in
   match r with
   | Some call => let* _ := Page.subscribe_resume env call in ret tt
   | None => ret tt
   end) w.
Proof.
  unfold Page.on_permission_click, Page.permission_click_lookup.
  destruct (has_Notification env).
  - rewrite bind_assoc. apply bind_ext; [reflexivity | intros w0 w1].
    rewrite bind_assoc. apply bind_ext; [reflexivity | intros _ w2].
    rewrite bind_assoc. apply bind_ext; [reflexivity | intros _ w3].
    rewrite bind_assoc. apply bind_ext; [reflexivity | intros _ w4].
    destruct (String.eqb _ _); [| now rewrite bind_ret_l].
    rewrite bind_assoc.
    transitivity
      ((let* r := (let* r := Page.subscribe_lookup env in
                   match r with
                   | inl result => ret result
                   | inr call => Page.subscribe_resume env call
                   end) in ret tt) w4).
    + apply bind_ext; [apply subscribe_split | reflexivity].
    + rewrite bind_assoc. apply bind_ext; [reflexivity | intros [result|call] w5];
        now rewrite !bind_ret_l.
  - rewrite bind_assoc, <- (bind_ret_tt (Page.log env _) w) at 1.
    apply bind_ext; [reflexivity | intros _ w1]. now rewrite bind_ret_l.
Qed.

(** A listener that starts and, when its call waits, goes on at once is the
    listener run from start to end: the schedules contain the runs without
    overlap. *)
Lemma start_then_resume op w ws :
  let first := step env (Start op) (w, ws) in
  let second := step env (Resume (length ws)) (fst first) in
  fst (fst second) = world_of (run env op) w
  /\ snd (fst second) = ws
  /\ snd first ++ snd second = effects_of (run env op) w.
Proof.
  assert (Hwhole : forall m : M unit,
    let first :=
      (let '(r, w1, es) := (m ;;; ret (@None Page.Waiting)) w in
       (w1, ws ++ match r with Ok (Some call) => [call] | _ => [] end, es)) in
    let second := step env (Resume (length ws)) (fst first) in
    fst (fst second) = world_of m w
    /\ snd (fst second) = ws
    /\ snd first ++ snd second = effects_of m w).
  { intros m. unfold world_of, effects_of, bind.
    destruct (m w) as [[[[]|e|] w1] es1]; cbn [ret fst snd step];
      rewrite app_nil_r, lookup_ge_None_2 by lia; cbn [fst snd];
      now rewrite ?app_nil_r. }
  assert (Hcall : forall lookup : M (option Page.Waiting),
    forall m : M unit,
    (forall w0, m w0 =
       (let* r := lookup in
        match r with
        | Some call => let* _ := Page.subscribe_resume env call in ret tt
        | None => ret tt
        end) w0) ->
    let first :=
      (let '(r, w1, es) := lookup w in
       (w1, ws ++ match r with Ok (Some call) => [call] | _ => [] end, es)) in
    let second := step env (Resume (length ws)) (fst first) in
    fst (fst second) = world_of m w
    /\ snd (fst second) = ws
    /\ snd first ++ snd second = effects_of m w).
  { intros lookup m Hm. unfold world_of, effects_of. rewrite Hm. unfold bind.
    destruct (lookup w) as [[[[call|]|e|] w1] es1]; cbn [ret fst snd step].
    - rewrite list_lookup_middle by reflexivity. rewrite delete_middle, app_nil_r.
      destruct (Page.subscribe_resume env call w1) as [[[r|e|] w2] es2];
        cbn [fst snd]; now rewrite ?app_nil_r.
    - rewrite app_nil_r, lookup_ge_None_2 by lia. cbn [fst snd].
      now rewrite ?app_nil_r.
    - rewrite app_nil_r, lookup_ge_None_2 by lia. cbn [fst snd].
      now rewrite ?app_nil_r.
    - rewrite app_nil_r, lookup_ge_None_2 by lia. cbn [fst snd].
      now rewrite ?app_nil_r. }
  destruct op; try apply Hwhole.
  - cbn [step start run fst]. destruct (_ && _).
    + apply Hcall. apply permission_click_split.
    + apply (Hcall (ret None) (ret tt)). reflexivity.
  - cbn [step start run fst]. apply Hcall. intros w0.
    transitivity
      ((let* r := (let* r := Page.subscribe_lookup env in
                   match r with
                   | inl result => ret result
                   | inr call => Page.subscribe_resume env call
                   end) in ret tt) w0).
    + apply bind_ext; [apply subscribe_split | reflexivity].
    + rewrite !bind_assoc. apply bind_ext; [reflexivity | intros [result|call] w1];
        now rewrite !bind_ret_l.
Qed.






Lemma finds_none {A} (m : M A) found :
  (forall w a w' es, m w = (Ok a, w', es) -> found a = None) -> finds found m.
Proof. intros Hm w a w' es Hrun f Hf. rewrite (Hm w a w' es Hrun) in Hf. discriminate. Qed.











End Harmless.

(** ** Properties of the two scripts *)

Section Properties.
Import JS Platform System.

(** C1 (as the scripts have it).  A report sent while no subscription is
    known carries a marker in [subscriptionEndpoint]: the page, which reads
    the local storage, sends ["not-subscribed"]; the worker, which asks the
    push manager of its registration, sends ["not-available-in-sw"] when
    the push manager has no subscription.  Each run sends exactly one
    report. *)
Theorem report_markers env w url referrer :
  (localStorage w !! "pushSubscription" = None ->
   map (fun body => field body "subscriptionEndpoint")
     (reports (effects_of (Page.logNavigationToServer env url referrer) w))
   = [VStr "not-subscribed"])
  /\ (has_PushManager env = true -> subscriptions w = [] ->
      map (fun body => field body "subscriptionEndpoint")
        (reports (effects_of (Worker.logNavigationToServer env url referrer) w))
      = [VStr "not-available-in-sw"]).
Proof.
  split.
  - intros Hnone. now rewrite page_report_unsubscribed.
  - intros Hpm Hnil. rewrite worker_report, Hpm, Hnil. reflexivity.
Qed.

Lemma report_markers_witness :
  map (fun body => field body "subscriptionEndpoint")
    (reports (effects_of
       (Page.logNavigationToServer Sample.env (VStr "https://app.vercel.app/") VUndefined)
       Sample.fresh))
  = [VStr "not-subscribed"]
  /\ map (fun body => field body "subscriptionEndpoint")
       (reports (effects_of
          (Worker.logNavigationToServer Sample.env (VStr "https://app.vercel.app/")
             VUndefined)
          Sample.fresh))
     = [VStr "not-available-in-sw"].
Proof.
  split;
    apply (report_markers Sample.env Sample.fresh (VStr "https://app.vercel.app/")
             VUndefined);
    reflexivity.
Defined.

(** C1, as stated, fails on the worker: without a subscription its report
    does not carry ["not-subscribed"]. *)
Lemma worker_marker_differs :
  subscriptions Sample.fresh = []
  /\ ~ Forall (fun body => field body "subscriptionEndpoint" = VStr "not-subscribed")
         (reports (effects_of
            (Worker.logNavigationToServer Sample.env (VStr "https://app.vercel.app/")
               VUndefined)
            Sample.fresh)).
Proof.
  split; [reflexivity |]. rewrite worker_report.
  change (has_PushManager Sample.env) with true. cbn iota. intros H.
  inversion H as [|? ? Hhead _]. discriminate Hhead.
Qed.

(** C2.  After activation no bucket named [static-cache-<tag>] with a tag
    other than [v1] is left, and the bucket [static-cache-v1] is still
    there with its content. *)
Theorem activation_deletes_old_caches env w :
  (forall tag c, tag <> Worker.VERSION ->
     ~ In ("static-cache-" +:+ tag, c) (caches (world_of (Worker.on_activate env) w)))
  /\ (forall c, In (Worker.CURRENT_CACHE, c) (caches w) ->
        In (Worker.CURRENT_CACHE, c) (caches (world_of (Worker.on_activate env) w))).
Proof.
  rewrite activation_caches. split.
  - intros tag c Hne Hin. apply filter_In in Hin as [_ Hkeep]. cbn [fst] in Hkeep.
    now rewrite old_cache_name in Hkeep.
  - intros c Hin. apply filter_In. split; [assumption | reflexivity].
Qed.

Lemma activation_deletes_old_caches_witness :
  ~ In ("static-cache-" +:+ "v0", ∅)
      (caches (world_of (Worker.on_activate Sample.env) Sample.old_and_new_caches))
  /\ In (Worker.CURRENT_CACHE, ∅)
       (caches (world_of (Worker.on_activate Sample.env) Sample.old_and_new_caches)).
Proof.
  destruct (activation_deletes_old_caches Sample.env Sample.old_and_new_caches)
    as [Hold Hcurrent].
  split.
  - apply Hold. discriminate.
  - apply Hcurrent. cbn. right. left. reflexivity.
Defined.

(** Activation leaves every bucket outside the [static-cache-] family. *)
Lemma activation_keeps_other_buckets env w name c :
  startsWith name "static-cache-" = false ->
  In (name, c) (caches w) ->
  In (name, c) (caches (world_of (Worker.on_activate env) w)).
Proof.
  intros Hname Hin. rewrite activation_caches. apply filter_In.
  split; [assumption |]. unfold Worker.is_old_cache. cbn [fst]. now rewrite Hname.
Qed.

(** C3 (as the worker has it).  A request found in the cache is answered
    from the cache, without any effect.  A request not found is sent to the
    network exactly once; when the network answers, that response is the
    result, and it is put into the current bucket exactly when the method
    is [GET], the path does not contain [/api/] and the host is not the
    server's; whatever the origin of the request: a later lookup then
    finds it.  The only other network call of the fetch listener is the
    navigation report of a tracked navigation, sent where the registration
    has a push manager. *)
Theorem cache_first_strategy env w request :
  let url := href (req_url request) in
  (forall r, cached w request = Some r ->
     Worker.respond env request w = (Ok r, w, []))
  /\ (cached w request = None ->
      List.filter is_fetch (effects_of (Worker.respond env request) w)
        = [Fetch url (req_method request) VUndefined]
      /\ forall r,
          network env (tick w) url (req_method request) VUndefined = Some r ->
          result_of (Worker.respond env request) w = Ok r
          /\ (In (CachePut Worker.CURRENT_CACHE url)
                (effects_of (Worker.respond env request) w)
              <-> req_method request = "GET"
                  /\ includes (pathname (req_url request)) "/api/" = false
                  /\ hostname (req_url request) <> Worker.SERVER_HOSTNAME)
          /\ (Worker.skips_cache request = false ->
              cached (world_of (Worker.respond env request) w) request = Some r))
  /\ List.filter is_fetch (effects_of (Worker.on_fetch env request) w)
     = (if Worker.is_tracked_navigation request && has_PushManager env
        then [Fetch LOG_NAVIGATION_URL "POST" (tracked_report env w request)] else [])
       ++ match cached w request with
          | Some _ => []
          | None => [Fetch url (req_method request) VUndefined]
          end.
Proof.
  intros url. split; [| split].
  - intros r Hhit. now apply respond_hit.
  - intros Hmiss. unfold effects_of, result_of, world_of.
    rewrite (respond_miss _ _ _ Hmiss). cbn zeta. fold url. split.
    + destruct (network env _ _ _ _); [destruct (Worker.skips_cache request) |];
        reflexivity.
    + intros r ->. rewrite <- skips_cache_false.
      destruct (Worker.skips_cache request) eqn:Hskip; cbn.
      * split; [reflexivity |]. split; [| discriminate].
        split; [| discriminate]. intros [H|[]]; discriminate.
      * split; [reflexivity |]. split; [split; auto |]. intros _.
        unfold cached in *. cbn [caches set_caches next_tick].
        apply skips_cache_false in Hskip as (Hget & _). rewrite Hget in *. cbn in *.
        now apply match_in_put_in.
  - destruct (track_run env request w)
      as (w' & es & Hrun & Hcaches & _ & _ & Hcalls & _).
    unfold effects_of, Worker.on_fetch. erewrite bind_run; [| exact Hrun].
    assert (Hsame : cached w' request = cached w request)
      by (unfold cached; now rewrite Hcaches).
    destruct (cached w request) as [r|] eqn:Hc.
    + rewrite (respond_hit _ _ _ _ Hsame). cbn. now rewrite List.filter_app, Hcalls.
    + rewrite (respond_miss _ _ _ Hsame). cbn zeta. fold url.
      destruct (network env _ _ _ _); [destruct (Worker.skips_cache request) |];
        cbn; now rewrite List.filter_app, Hcalls.
Qed.

Lemma cache_first_strategy_witness :
  List.filter is_fetch (effects_of (Worker.respond Sample.env Sample.cdn_request)
                          Sample.fresh)
  = [Fetch "https://cdn.example.com/lib.js" "GET" VUndefined]
  /\ cached (world_of (Worker.respond Sample.env Sample.cdn_request) Sample.fresh)
       Sample.cdn_request
     = Some (Sample.response (VObj [("success", VBool true)])).
Proof.
  destruct (cache_first_strategy Sample.env Sample.fresh Sample.cdn_request)
    as (_ & Hmiss & _).
  destruct (Hmiss eq_refl) as [Hcalls Hnet]. split; [exact Hcalls |].
  destruct (Hnet (Sample.response (VObj [("success", VBool true)])) eq_refl)
    as (_ & _ & Hstored).
  apply Hstored. reflexivity.
Defined.

(** C3, as stated, fails: the response to a [GET] request of another
    origin is cached. *)
Lemma cross_origin_response_is_cached :
  let request := Sample.cdn_request in
  let es := effects_of (Worker.respond Sample.env request) Sample.fresh in
  ~ (In (CachePut Worker.CURRENT_CACHE (href (req_url request))) es
     <-> req_method request = "GET"
         /\ origin (req_url request) = location_origin Sample.env
         /\ includes (pathname (req_url request)) "/api/" = false
         /\ hostname (req_url request) <> Worker.SERVER_HOSTNAME).
Proof.
  intros request es [Hstored _].
  assert (Hin : In (CachePut Worker.CURRENT_CACHE (href (req_url request))) es)
    by (vm_compute; auto).
  destruct (Hstored Hin) as (_ & Horigin & _). discriminate Horigin.
Qed.

(** C8.  For the requests with a host name ending in [vercel.app], method
    [GET] and mode [navigate], and for no other, the fetch listener posts a
    message of type [navigation], with the URL and the referrer of the
    request, to every controlled client, and calls the worker's reporter:
    where the registration has a push manager the reporter sends one
    report, with that URL and referrer; where it has none, the reporter
    logs its error and sends nothing.  For any other request no such
    message is posted, no report is sent, and the only line the listener
    writes to the console is the one of the fetch event, so the reporter,
    which always writes one, is not called. *)
Theorem navigation_tracking env w request :
  let es := effects_of (Worker.on_fetch env request) w in
  let url := href (req_url request) in
  let referrer :=
    if String.eqb (req_referrer request) "" then "unknown"
    else req_referrer request in
  (Worker.is_tracked_navigation request = true <->
   endsWith (hostname (req_url request)) "vercel.app" = true
   /\ req_method request = "GET"
   /\ req_mode request = "navigate")
  /\ navigation_posts es =
     (if Worker.is_tracked_navigation request
      then map (fun c => (c, VObj [("type", VStr "navigation");
                                   ("url", VStr url);
                                   ("referrer", VStr referrer)]))
             (controlled w)
      else [])
  /\ reports es =
     (if Worker.is_tracked_navigation request && has_PushManager env
      then [VObj [("url", VStr url);
                  ("referrer", VStr referrer);
                  ("userAgent", VStr "service-worker");
                  ("subscriptionEndpoint",
                   VStr match head (subscriptions w) with
                        | Some subscription => endpoint subscription
                        | None => "not-available-in-sw"
                        end);
                  ("timestamp", VStr (clock env (tick w)))]]
      else [])
  /\ (Worker.is_tracked_navigation request = true ->
      has_PushManager env = false ->
      In (ConsoleLog
            "[Service Worker v1] Error logging navigation to server: TypeError: Cannot read properties of undefined")
         es)
  /\ (Worker.is_tracked_navigation request = false ->
      forall line,
        In (ConsoleLog line) es ->
        line = "[Service Worker v1] Fetch event: " +:+ pathname (req_url request)).
Proof.
  intros es url referrer. split; [apply tracked_navigation_iff |].
  assert (Hquiet : Worker.is_tracked_navigation request = false ->
    forall line,
      In (ConsoleLog line) es ->
      line = "[Service Worker v1] Fetch event: " +:+ pathname (req_url request)).
  { intros Hno line Hin. subst es. unfold effects_of, Worker.on_fetch in Hin.
    erewrite bind_run in Hin; [| now apply track_untracked].
    pose proof (respond_no_console env request w line) as Hnone.
    destruct (Worker.respond env request w) as [[r w2] es2]. cbn [fst snd] in *.
    apply in_app_or in Hin as [Hin | Hin]; [| now destruct Hnone].
    destruct (negb _ && negb _); [| destruct Hin].
    rewrite swLog_run in Hin. cbn [snd] in Hin. destruct Hin as [Heq | Hin].
    - now injection Heq as <-.
    - apply in_map_iff in Hin as (c & Hc & _). discriminate Hc. }
  assert (Hlast : forall A B C D : Prop, D -> A /\ B /\ C -> A /\ B /\ C /\ D)
    by tauto.
  apply Hlast; [exact Hquiet | clear Hlast Hquiet].
  destruct (track_run env request w)
    as (w' & es1 & Hrun & _ & Hposts & Hreports & _ & Hcalled).
  subst es. unfold effects_of, Worker.on_fetch. erewrite bind_run; [| exact Hrun].
  destruct (respond_silent env request w') as [Hp Hr].
  destruct (Worker.respond env request w') as [[r w2] es2]. cbn [fst snd] in *.
  rewrite navigation_posts_app, reports_app, Hposts, Hreports, Hp, Hr, !app_nil_r.
  unfold Worker.navigation_message, tracked_report.
  rewrite (or_else_text (req_referrer request) (VStr "unknown")).
  fold url.
  assert (Href : (if String.eqb (req_referrer request) ""
                  then VStr "unknown" else VStr (req_referrer request))
                 = VStr referrer)
    by (subst referrer; now destruct (String.eqb (req_referrer request) "")).
  rewrite Href. split; [reflexivity | split; [reflexivity |]].
  intros Htracked Hpm. apply in_or_app. left. apply (Hcalled Htracked).
  rewrite (worker_report_without_push _ _ _ _ Hpm), swLog_run. now left.
Qed.

Lemma navigation_tracking_witness :
  navigation_posts
    (effects_of (Worker.on_fetch Sample.no_push Sample.navigation_request) Sample.fresh)
  = [(Sample.page_client,
      VObj [("type", VStr "navigation");
            ("url", VStr "https://app.vercel.app/page2.html");
            ("referrer", VStr "unknown")])]
  /\ In (ConsoleLog
           "[Service Worker v1] Error logging navigation to server: TypeError: Cannot read properties of undefined")
        (effects_of (Worker.on_fetch Sample.no_push Sample.navigation_request)
           Sample.fresh).
Proof.
  destruct (navigation_tracking Sample.no_push Sample.fresh Sample.navigation_request)
    as (_ & Hposts & _ & Hlog & _).
  split; [exact Hposts | apply Hlog; reflexivity].
Defined.

(** C7 (as the worker has it).  For a push event whose payload is absent,
    does not parse, or parses to a value other than [null], exactly one
    notification is shown: its title, body, icon, badge and tag are the
    payload's fields of the same name when they are truthy, its [data.url]
    is the payload's top-level [url], and the defaults are used otherwise.
    When the payload does not parse, the failure is logged and the
    notification has the default title and fields. *)
Theorem push_notification_shown env w data :
  let nd := push_payload env data in
  let es := effects_of (Worker.on_push env data) w in
  nd <> VNull -> nd <> VUndefined ->
  notifications es =
    [(or_else (field nd "title") (VStr "Navigation Tracker"),
      notification_options nd (clock env (tick w)))]
  /\ (forall text, data = Some text -> JSON_parse env text = None ->
      In (ConsoleLog ("[Service Worker " +:+ Worker.VERSION +:+ "] "
                      +:+ "Error parsing push data: SyntaxError: Unexpected token")) es
      /\ notifications es =
         [(VStr "Navigation Tracker",
           VObj [("body", VStr "A new event was detected.");
                 ("icon", VStr "/icon-192x192.png");
                 ("badge", VStr "/badge.png");
                 ("tag", VStr "default");
                 ("data", VObj [("url", VStr "/");
                                ("timestamp", VStr (clock env (tick w)))])])]).
Proof.
  intros nd es Hnull Hundef.
  destruct (push_payload_run env data w) as (es1 & Hrun & Hnone & Hlogged).
  assert (Hshown : notifications es =
    [(or_else (field nd "title") (VStr "Navigation Tracker"),
      notification_options nd (clock env (tick w)))] /\ exists es2, es = ConsoleLog
        ("[Service Worker " +:+ Worker.VERSION +:+ "] " +:+ "Push event received")
        :: es2 /\ forall e, In e es1 -> In e es2).
  { subst es. unfold effects_of, Worker.on_push. step.
    erewrite bind_run; [| exact Hrun]. cbn beta iota zeta.
    do 7 (erewrite bind_run; [| now apply get_prop_run]; cbn beta iota zeta).
    step. cbn. split.
    - rewrite !notifications_app, notifications_log, Hnone. reflexivity.
    - eexists. split; [reflexivity |]. intros e He.
      apply in_or_app. right. apply in_or_app. now left. }
  destruct Hshown as (Hshown & es2 & Hes & Hsub). split; [exact Hshown |].
  intros text -> Hfail. split.
  - rewrite Hes. right. apply Hsub. now apply (Hlogged text).
  - rewrite Hshown. subst nd. cbn [push_payload]. rewrite Hfail. reflexivity.
Qed.

Lemma push_notification_shown_witness :
  notifications (effects_of (Worker.on_push Sample.env (Some "not json")) Sample.fresh)
  = [(VStr "Navigation Tracker",
      notification_options (VObj []) "2025-01-01T00:00:00.000Z")].
Proof.
  apply (push_notification_shown Sample.env Sample.fresh (Some "not json"));
    discriminate.
Defined.

(** C7, as stated, fails on [data.url]: a payload carrying its URL in
    [data.url] gets a notification whose [data.url] is the default. *)
Lemma payload_data_url_ignored :
  JSON_parse Sample.env Sample.payload_text = Some Sample.payload_value
  /\ ~ Forall
        (fun shown =>
           field (field (snd shown) "data") "url"
           = field (field Sample.payload_value "data") "url")
        (notifications
           (effects_of (Worker.on_push Sample.env (Some Sample.payload_text))
              Sample.fresh)).
Proof.
  split; [reflexivity |]. intros H.
  change (notifications _) with
    [(VStr "Hi", notification_options Sample.payload_value "2025-01-01T00:00:00.000Z")]
    in H.
  inversion H as [|? ? Hhead _]. discriminate Hhead.
Qed.

(** A payload that is the JSON value [null] stops the listener before any
    notification is shown. *)
Lemma null_payload_shows_nothing :
  JSON_parse Sample.env "null" = Some VNull
  /\ notifications (effects_of (Worker.on_push Sample.env (Some "null")) Sample.fresh)
     = []
  /\ result_of (Worker.on_push Sample.env (Some "null")) Sample.fresh
     = Throw "TypeError: Cannot read properties".
Proof. repeat split; reflexivity. Qed.

(** C4 (as the page has it).  Called while a subscription is active,
    [subscribeUserToPush] never asks the push manager for another one and
    leaves the active subscription as it is.  When the key it obtained
    decodes, it returns the active subscription; apart from its log lines
    it still fetches the key, posts the subscription to [/subscribe] and
    stores it again in the local storage. *)
Theorem subscribe_again_keeps_subscription env w s rest :
  subscriptions w = s :: rest ->
  subscriptions (world_of (Page.subscribeUserToPush env) w) = subscriptions w
  /\ List.filter is_subscribe (effects_of (Page.subscribeUserToPush env) w) = []
  /\ (has_serviceWorker env = true -> has_PushManager env = true ->
      worker_ready env = true ->
      forall bytes,
        Page.urlBase64ToUint8Array
          (default Page.HARDCODED_VAPID_KEY (server_key env w)) = Some bytes ->
        result_of (Page.subscribeUserToPush env) w = Ok (Some s)
        /\ without_logs (effects_of (Page.subscribeUserToPush env) w)
           = [Fetch VAPID_KEY_URL "GET" VUndefined;
              Fetch SUBSCRIBE_URL "POST" (subscription_report env s)]
        /\ localStorage (world_of (Page.subscribeUserToPush env) w)
           = <["pushSubscription" := JSON_stringify env (subscription_value s)]>
               (localStorage w)).
Proof.
  intros Hsubs. split; [| split].
  - apply (careful_subscribeUserToPush env w). now rewrite Hsubs.
  - apply (careful_subscribeUserToPush env w). now rewrite Hsubs.
  - intros Hsw Hpm Hready bytes Hkey.
    destruct (subscribe_existing env w s rest bytes Hsw Hpm Hready Hsubs Hkey)
      as (es & Hrun & Hes).
    unfold result_of, effects_of, world_of. rewrite Hrun. cbn.
    split; [reflexivity |]. split; [exact Hes | reflexivity].
Qed.

Lemma subscribe_again_keeps_subscription_witness :
  subscriptions (world_of (Page.subscribeUserToPush Sample.env) Sample.subscribed)
  = subscriptions Sample.subscribed
  /\ result_of (Page.subscribeUserToPush Sample.env) Sample.subscribed
     = Ok (Some Sample.sub).
Proof.
  destruct (subscribe_again_keeps_subscription Sample.env Sample.subscribed
              Sample.sub [] eq_refl) as (Hkeep & _ & Hrun).
  split; [exact Hkeep |].
  destruct (Hrun eq_refl eq_refl eq_refl Page.HARDCODED_KEY_BYTES) as (Hres & _).
  - vm_compute. reflexivity.
  - exact Hres.
Defined.

(** C4, as stated, fails: with an active subscription the call is not a
    no-op, it posts to [/subscribe] and writes the local storage. *)
Lemma subscribe_again_has_effects :
  subscriptions Sample.subscribed = [Sample.sub]
  /\ ~ (without_logs (effects_of (Page.subscribeUserToPush Sample.env) Sample.subscribed)
        = []
        /\ localStorage (world_of (Page.subscribeUserToPush Sample.env) Sample.subscribed)
             !! "pushSubscription"
           = localStorage Sample.subscribed !! "pushSubscription").
Proof.
  split; [reflexivity |]. intros [Hquiet _]. vm_compute in Hquiet. discriminate Hquiet.
Qed.

(** C6.  When the request for the server's key fails, or its answer does
    not parse, the hardcoded key is the one used: it decodes to 65 bytes,
    and without an active subscription the push manager is asked once, with
    these bytes; when it grants the subscription, the call returns it, it
    is the active subscription, it is posted to [/subscribe] and stored.
    With an active subscription the call returns that one. *)
Theorem hardcoded_key_fallback env w :
  has_serviceWorker env = true -> has_PushManager env = true ->
  worker_ready env = true ->
  key_fetch_fails env w ->
  result_of (Page.fetch_vapid_key env) w = Ok Page.HARDCODED_VAPID_KEY
  /\ Page.urlBase64ToUint8Array Page.HARDCODED_VAPID_KEY = Some Page.HARDCODED_KEY_BYTES
  /\ length Page.HARDCODED_KEY_BYTES = 65
  /\ (forall s,
       subscriptions w = [] ->
       push_service env (S (tick w)) Page.HARDCODED_KEY_BYTES = Some s ->
       result_of (Page.subscribeUserToPush env) w = Ok (Some s)
       /\ without_logs (effects_of (Page.subscribeUserToPush env) w)
          = [Fetch VAPID_KEY_URL "GET" VUndefined;
             Subscribe true Page.HARDCODED_KEY_BYTES;
             Fetch SUBSCRIBE_URL "POST" (subscription_report env s)]
       /\ subscriptions (world_of (Page.subscribeUserToPush env) w) = [s]
       /\ localStorage (world_of (Page.subscribeUserToPush env) w)
          = <["pushSubscription" := JSON_stringify env (subscription_value s)]>
              (localStorage w))
  /\ (forall s rest,
       subscriptions w = s :: rest ->
       result_of (Page.subscribeUserToPush env) w = Ok (Some s)).
Proof.
  intros Hsw Hpm Hready Hfail.
  assert (Hkey : server_key env w = None).
  { unfold key_fetch_fails in Hfail. unfold server_key.
    destruct (network env _ _ _ _) as [r|]; [now rewrite Hfail | reflexivity]. }
  split; [| split; [| split; [| split]]].
  - destruct (fetch_vapid_key_run env w) as (es & Hrun & _).
    unfold result_of. rewrite Hrun, Hkey. reflexivity.
  - apply hardcoded_key_decodes.
  - reflexivity.
  - intros s Hsubs Hpush.
    destruct (subscribe_fresh env w s Page.HARDCODED_KEY_BYTES Hsw Hpm Hready Hsubs)
      as (es & Hrun & Hes).
    + rewrite Hkey. apply hardcoded_key_decodes.
    + exact Hpush.
    + unfold result_of, effects_of, world_of. rewrite Hrun. cbn. rewrite Hsubs.
      repeat split; [exact Hes].
  - intros s rest Hsubs.
    destruct (subscribe_existing env w s rest Page.HARDCODED_KEY_BYTES
                Hsw Hpm Hready Hsubs) as (es & Hrun & _).
    + rewrite Hkey. apply hardcoded_key_decodes.
    + unfold result_of. now rewrite Hrun.
Qed.

Lemma hardcoded_key_fallback_witness :
  result_of (Page.subscribeUserToPush Sample.offline) Sample.fresh = Ok (Some Sample.sub)
  /\ subscriptions (world_of (Page.subscribeUserToPush Sample.offline) Sample.fresh)
     = [Sample.sub].
Proof.
  destruct (hardcoded_key_fallback Sample.offline Sample.fresh
              eq_refl eq_refl eq_refl I) as (_ & _ & _ & Hsub & _).
  destruct (Hsub Sample.sub eq_refl eq_refl) as (Hres & _ & Hactive & _).
  split; [exact Hres | exact Hactive].
Defined.




(** C5.  The key codec pads its argument with [=] to a length that is a
    multiple of four, turns [-] into [+] and [_] into [/], and hands the
    result to [atob].  It decodes the base64url text of every byte
    sequence, padded or not, to that sequence; and whatever it decodes,
    encoding the bytes again with the [-]/[_] alphabet gives a text with
    the same bytes. *)
Theorem key_codec_roundtrip :
  (forall s,
     let padded := s +:+ JS.repeat "="%char ((4 - String.length s mod 4) mod 4) in
     let translated :=
       JS.replace_all "_"%char "/"%char (JS.replace_all "-"%char "+"%char padded) in
     String.length padded mod 4 = 0
     /\ list_ascii_of_string translated
        = map Base64.translate (list_ascii_of_string padded)
     /\ Page.urlBase64ToUint8Array s
        = option_map (fun raw => map nat_of_ascii (list_ascii_of_string raw))
            (Base64.atob translated))
  /\ (forall bytes, Forall (fun b => b < 256) bytes ->
        Page.urlBase64ToUint8Array (Base64.encode_url bytes) = Some bytes
        /\ Page.urlBase64ToUint8Array (Base64.encode_url_padded bytes) = Some bytes)
  /\ (forall s bytes, Page.urlBase64ToUint8Array s = Some bytes ->
        Page.urlBase64ToUint8Array (Base64.encode_url bytes) = Some bytes
        /\ Page.urlBase64ToUint8Array (Base64.encode_url_padded bytes) = Some bytes).
Proof.
  split; [| split].
  - intros s padded translated. split; [| split].
    + subst padded.
      rewrite length_list_of, list_of_append, length_app, list_of_repeat,
        repeat_length, <- length_list_of.
      apply pad_mod4.
    + apply list_of_translated.
    + unfold Page.urlBase64ToUint8Array. fold padded translated.
      now destruct (Base64.atob _).
  - intros bytes Hb. split;
      [now apply decode_encode_url | now apply decode_encode_url_padded].
  - intros s bytes Hs. apply decoded_bytes_bound in Hs. split;
      [now apply decode_encode_url | now apply decode_encode_url_padded].
Qed.

Lemma key_codec_roundtrip_witness :
  Page.urlBase64ToUint8Array (Base64.encode_url [4; 109; 77; 126]) = Some [4; 109; 77; 126]
  /\ Page.urlBase64ToUint8Array (Base64.encode_url_padded [4; 109; 77; 126])
     = Some [4; 109; 77; 126].
Proof.
  destruct key_codec_roundtrip as (_ & _ & Hround).
  apply (Hround "BG1Nfg==" [4; 109; 77; 126]). vm_compute. reflexivity.
Defined.

(** C10.  Called with a falsy referrer, the reporter of the page sends
    [document.referrer] as the referrer of every report, and the reporter
    of the worker sends ["unknown"] in every report.  The page sends its
    report when no subscription is stored, the worker where its
    registration has a push manager. *)
Theorem referrer_defaults env w url referrer :
  truthy referrer = false ->
  Forall (fun body => field body "referrer" = VStr (document_referrer env))
    (reports (effects_of (Page.logNavigationToServer env url referrer) w))
  /\ (localStorage w !! "pushSubscription" = None ->
      map (fun body => field body "referrer")
        (reports (effects_of (Page.logNavigationToServer env url referrer) w))
      = [VStr (document_referrer env)])
  /\ Forall (fun body => field body "referrer" = VStr "unknown")
       (reports (effects_of (Worker.logNavigationToServer env url referrer) w))
  /\ (has_PushManager env = true ->
      map (fun body => field body "referrer")
        (reports (effects_of (Worker.logNavigationToServer env url referrer) w))
      = [VStr "unknown"]).
Proof.
  intros Hfalsy.
  assert (Hpage : or_else referrer (VStr (document_referrer env))
                  = VStr (document_referrer env))
    by (unfold or_else; now rewrite Hfalsy).
  assert (Hworker : or_else referrer (VStr "unknown") = VStr "unknown")
    by (unfold or_else; now rewrite Hfalsy).
  split; [| split; [| split]].
  - rewrite <- Hpage. apply page_report_referrer.
  - intros Hnone. rewrite page_report_unsubscribed by assumption.
    cbn. unfold field. cbn. now rewrite Hpage.
  - rewrite worker_report. destruct (has_PushManager env); [| constructor].
    constructor; [| constructor]. unfold field. cbn. now rewrite Hworker.
  - intros Hpm. rewrite worker_report, Hpm. cbn. unfold field. cbn.
    now rewrite Hworker.
Qed.

Lemma referrer_defaults_witness :
  map (fun body => field body "referrer")
    (reports (effects_of
       (Page.logNavigationToServer Sample.env (VStr "https://app.vercel.app/") (VStr ""))
       Sample.fresh))
  = [VStr "https://example.org/"]
  /\ map (fun body => field body "referrer")
       (reports (effects_of
          (Worker.logNavigationToServer Sample.env (VStr "https://app.vercel.app/")
             (VStr ""))
          Sample.fresh))
     = [VStr "unknown"].
Proof.
  destruct (referrer_defaults Sample.env Sample.fresh (VStr "https://app.vercel.app/")
              (VStr "") eq_refl) as (_ & Hpage & _ & Hworker).
  split; [apply Hpage; reflexivity | apply Hworker; reflexivity].
Defined.

(** Subscribing twice in succession yields the same subscription both
    times, when the key decodes at each call. *)
Lemma subscribe_twice_same_subscription env w s bytes bytes' :
  has_serviceWorker env = true -> has_PushManager env = true ->
  worker_ready env = true ->
  subscriptions w = [] ->
  Page.urlBase64ToUint8Array (default Page.HARDCODED_VAPID_KEY (server_key env w))
    = Some bytes ->
  push_service env (S (tick w)) bytes = Some s ->
  let w' := world_of (Page.subscribeUserToPush env) w in
  Page.urlBase64ToUint8Array (default Page.HARDCODED_VAPID_KEY (server_key env w'))
    = Some bytes' ->
  result_of (Page.subscribeUserToPush env) w = Ok (Some s)
  /\ result_of (Page.subscribeUserToPush env) w' = Ok (Some s)
  /\ subscriptions (world_of (Page.subscribeUserToPush env) w') = [s].
Proof.
  intros Hsw Hpm Hready Hsubs Hkey Hpush w' Hkey'.
  destruct (subscribe_fresh env w s bytes Hsw Hpm Hready Hsubs Hkey Hpush)
    as (es & Hrun & _).
  assert (Hsubs' : subscriptions w' = [s]).
  { subst w'. unfold world_of. rewrite Hrun. cbn. now rewrite Hsubs. }
  destruct (subscribe_existing env w' s [] bytes' Hsw Hpm Hready Hsubs' Hkey')
    as (es' & Hrun' & _).
  unfold result_of, world_of in *. rewrite Hrun. split; [reflexivity |].
  rewrite Hrun'. split; [reflexivity |]. cbn. exact Hsubs'.
Qed.

End Properties.

(** ** More on the key codec *)

Section KeyTextFacts.
Import Base64 KeyText.

Lemma translate_cases c : translate c = c \/ c = "-"%char \/ c = "_"%char.
Proof.
  unfold translate.
  destruct (Ascii.eqb_spec c "-"%char) as [->|_]; [now right; left |].
  destruct (Ascii.eqb_spec c "_"%char) as [->|_]; [now right; right | now left].
Qed.

Lemma translate_idempotent c : translate (translate c) = translate c.
Proof.
  destruct (translate_cases c) as [H | [-> | ->]];
    [now rewrite !H | reflexivity | reflexivity].
Qed.

Lemma length_replace_all c d s : String.length (JS.replace_all c d s) = String.length s.
Proof. induction s as [|x s IH]; cbn; [reflexivity | now rewrite IH]. Qed.

Lemma string_of_list_eq s t :
  list_ascii_of_string s = list_ascii_of_string t -> s = t.
Proof.
  intros H. rewrite <- (string_of_list_ascii_of_string s), H.
  apply string_of_list_ascii_of_string.
Qed.

Lemma filter_whitespace_app_pad l k :
  List.filter (fun c => negb (is_ascii_whitespace c)) (l ++ List.repeat pad_char k)
  = List.filter (fun c => negb (is_ascii_whitespace c)) l ++ List.repeat pad_char k.
Proof.
  rewrite List.filter_app. f_equal.
  induction k as [|k IH]; [reflexivity |]. cbn. now rewrite IH.
Qed.

Lemma sextets_of_chars_in x l :
  In x l -> sextet_of_char x = None -> sextets_of_chars l = None.
Proof.
  induction l as [|c l IH]; intros Hin Hx; [destruct Hin |].
  cbn. destruct Hin as [-> | Hin].
  - now rewrite Hx.
  - rewrite (IH Hin Hx). now destruct (sextet_of_char c).
Qed.

Lemma strip_padding_keeps x l :
  In x l -> Ascii.eqb x pad_char = false -> In x (strip_padding l).
Proof.
  intros Hin Hx. unfold strip_padding.
  assert (Hrev : In x (rev l)) by now apply in_rev in Hin.
  destruct (rev l) as [|a [|b r]]; [assumption | |].
  - destruct Hrev as [-> | []]. now rewrite Hx.
  - destruct (Ascii.eqb a pad_char) eqn:Ha; [| assumption].
    destruct Hrev as [-> | Hrev]; [congruence |].
    destruct (Ascii.eqb b pad_char) eqn:Hb.
    + destruct Hrev as [-> | Hrev]; [congruence |]. now apply in_rev in Hrev.
    + apply in_rev. now rewrite rev_involutive.
Qed.

(** What [atob] is given by the codec, as a list of characters. *)
Lemma codec_text s :
  list_ascii_of_string
    (JS.replace_all "_"%char "/"%char
       (JS.replace_all "-"%char "+"%char
          (s +:+ JS.repeat "="%char ((4 - String.length s mod 4) mod 4))))
  = map translate (list_ascii_of_string s)
    ++ List.repeat pad_char ((4 - String.length s mod 4) mod 4).
Proof.
  now rewrite list_of_translated, list_of_append, list_of_repeat, map_app, translate_pad.
Qed.

(** X1.  A text whose length is one more than a multiple of four is never
    a key: the codec fails on it, whatever its characters. *)
Theorem length_one_mod_four_rejected s :
  String.length s mod 4 = 1 -> Page.urlBase64ToUint8Array s = None.
Proof.
  intros Hlen. unfold Page.urlBase64ToUint8Array, atob.
  rewrite codec_text, Hlen. change ((4 - 1) mod 4) with 3.
  rewrite filter_whitespace_app_pad.
  set (l := List.filter _ (map translate (list_ascii_of_string s))).
  assert (Hnone : forall r, sextets_of_chars (l ++ pad_char :: r) = None).
  { intros r. apply (sextets_of_chars_in pad_char); [| reflexivity].
    apply in_or_app. right. now left. }
  destruct (length (l ++ List.repeat pad_char 3) mod 4 =? 0) eqn:Hzero.
  - assert (Hstrip : strip_padding (l ++ List.repeat pad_char 3) = l ++ [pad_char]).
    { unfold strip_padding. rewrite rev_app_distr. cbn. now rewrite rev_involutive. }
    rewrite Hstrip, Hnone. now destruct (_ =? 1).
  - cbn [List.repeat]. rewrite Hnone. now destruct (_ =? 1).
Qed.

Lemma length_one_mod_four_rejected_witness :
  Page.urlBase64ToUint8Array "QUJDR" = None.
Proof. apply length_one_mod_four_rejected. reflexivity. Defined.

(** X2.  A text with a character that is neither of the two alphabets, nor
    [=], nor white space is never a key: the codec fails on it. *)
Theorem foreign_character_rejected s c :
  In c (list_ascii_of_string s) -> acceptable c = false ->
  Page.urlBase64ToUint8Array s = None.
Proof.
  intros Hin Hbad. unfold acceptable in Hbad.
  apply orb_false_iff in Hbad as [Hbad Hpad].
  apply orb_false_iff in Hbad as [Hsextet Hspace].
  assert (Hsame : translate c = c).
  { destruct (translate_cases c) as [H | [-> | ->]]; [exact H | discriminate ..]. }
  rewrite Hsame in Hsextet.
  assert (Hnone : sextet_of_char c = None) by now destruct (sextet_of_char c).
  unfold Page.urlBase64ToUint8Array, atob. rewrite codec_text.
  set (d := List.filter _ _).
  assert (Hd : In c d).
  { subst d. apply filter_In. split; [| now rewrite Hspace].
    apply in_or_app. left. rewrite <- Hsame. now apply in_map. }
  assert (Hfinal : sextets_of_chars (if length d mod 4 =? 0 then strip_padding d else d)
                   = None).
  { apply (sextets_of_chars_in c); [| exact Hnone].
    destruct (_ =? 0); [now apply strip_padding_keeps | exact Hd]. }
  rewrite Hfinal. now destruct (_ =? 1).
Qed.

Lemma foreign_character_rejected_witness :
  Page.urlBase64ToUint8Array "QUJD*EFG" = None.
Proof.
  apply (foreign_character_rejected "QUJD*EFG" "*"%char); [| reflexivity].
  cbn. auto 10.
Defined.

(** X3.  The codec takes the standard alphabet as well: a text with [+]
    and [/] in place of [-] and [_] decodes to the same bytes. *)
Theorem standard_alphabet_accepted s :
  Page.urlBase64ToUint8Array
    (JS.replace_all "_"%char "/"%char (JS.replace_all "-"%char "+"%char s))
  = Page.urlBase64ToUint8Array s.
Proof.
  unfold Page.urlBase64ToUint8Array. rewrite !length_replace_all.
  set (k := (4 - String.length s mod 4) mod 4).
  assert (Heq :
    JS.replace_all "_"%char "/"%char (JS.replace_all "-"%char "+"%char
      (JS.replace_all "_"%char "/"%char (JS.replace_all "-"%char "+"%char s)
       +:+ JS.repeat "="%char k))
    = JS.replace_all "_"%char "/"%char (JS.replace_all "-"%char "+"%char
        (s +:+ JS.repeat "="%char k))).
  { apply string_of_list_eq.
    rewrite !list_of_translated, !list_of_append, list_of_translated, !map_app, map_map.
    f_equal. apply map_ext. intros c. apply translate_idempotent. }
  now rewrite Heq.
Qed.

Lemma list_ind4 {A} (P : list A -> Prop) :
  P [] -> (forall a, P [a]) -> (forall a b, P [a; b]) -> (forall a b c, P [a; b; c]) ->
  (forall a b c d r, P r -> P (a :: b :: c :: d :: r)) -> forall l, P l.
Proof.
  intros H0 H1 H2 H3 H4.
  fix F 1. intros [|a [|b [|c [|d r]]]];
    [apply H0 | apply H1 | apply H2 | apply H3 |].
  apply H4, F.
Qed.

(** A character of the [-]/[_] alphabet has a sextet, and is the character
    of that sextet. *)
Lemma url_alphabet_sextet c :
  url_alphabet c = true ->
  exists v,
    v < 64 /\ sextet_of_char (translate c) = Some v /\ url_char v = c.
Proof.
  destruct c as [[] [] [] [] [] [] [] []]; intros H; vm_compute in H;
    try discriminate H;
    (eexists; (split; [| split]);
     [| vm_compute; reflexivity | vm_compute; reflexivity];
     apply Nat.ltb_lt; vm_compute; reflexivity).
Qed.

Lemma url_text_sextets cs :
  forallb url_alphabet cs = true ->
  exists vs,
    sextets_of_chars (map translate cs) = Some vs
    /\ Forall (fun v => v < 64) vs
    /\ map url_char vs = cs.
Proof.
  induction cs as [|c cs IH]; cbn [forallb]; intros H.
  - exists []. repeat split. constructor.
  - apply andb_true_iff in H as [Hc Hcs].
    destruct (url_alphabet_sextet c Hc) as (v & Hv & Hsx & Hchar).
    destruct (IH Hcs) as (vs & Hvs & Hbound & Hmap).
    exists (v :: vs). cbn [map sextets_of_chars]. rewrite Hsx, Hvs.
    repeat split; [now constructor | now rewrite Hchar, Hmap].
Qed.

(* [lia] on [/] and [mod] by literals *)
Ltac Zify.zify_post_hook ::= Z.to_euclidean_division_equations.

(** Sextets in canonical form are the sextets of the bytes they decode to. *)
Lemma sextets_of_bytes_of_sextets vs :
  Forall (fun v => v < 64) vs -> tail_ok vs = true ->
  sextets_of_bytes (bytes_of_sextets vs) = vs
  /\ Forall (fun b => b < 256) (bytes_of_sextets vs)
  /\ length (bytes_of_sextets vs) = length vs * 3 / 4.
Proof.
  induction vs as [| a | a b | a b c | a b c d r IH] using list_ind4;
    intros Hb Hok; cbn [tail_ok bytes_of_sextets sextets_of_bytes] in *.
  - repeat split. constructor.
  - discriminate.
  - inversion_clear Hb as [|? ? Ha Hr]. inversion_clear Hr as [|? ? Hb' _].
    apply Nat.eqb_eq in Hok. repeat split.
    + f_equal; [lia |]. f_equal. lia.
    + constructor; [lia | constructor].
  - inversion_clear Hb as [|? ? Ha Hr]. inversion_clear Hr as [|? ? Hb' Hr'].
    inversion_clear Hr' as [|? ? Hc _].
    apply Nat.eqb_eq in Hok. repeat split.
    + f_equal; [lia |]. f_equal; [lia |]. f_equal. lia.
    + repeat (constructor; [lia |]). constructor.
  - inversion_clear Hb as [|? ? Ha Hr]. inversion_clear Hr as [|? ? Hb' Hr'].
    inversion_clear Hr' as [|? ? Hc Hr'']. inversion_clear Hr'' as [|? ? Hd Hrest].
    destruct (IH Hrest Hok) as (Hsame & Hbytes & Hlen). repeat split.
    + rewrite Hsame. f_equal; [lia |]. f_equal; [lia |]. f_equal; [lia |].
      f_equal. lia.
    + repeat (constructor; [lia |]). exact Hbytes.
    + cbn [length]. rewrite Hlen. lia.
Qed.

(** X4.  A canonical unpadded text over the [-]/[_] alphabet decodes, the
    bytes have three quarters of its length, and encoding them with the
    same alphabet gives the text back. *)
Theorem canonical_text_roundtrip s :
  canonical s = true ->
  exists bytes,
    Page.urlBase64ToUint8Array s = Some bytes
    /\ encode_url bytes = s
    /\ length bytes = String.length s * 3 / 4.
Proof.
  unfold canonical. intros H. apply andb_true_iff in H as [Hchars Htail].
  destruct (url_text_sextets _ Hchars) as (vs & Hvs & Hbound & Hmap).
  rewrite Hvs in Htail.
  destruct (sextets_of_bytes_of_sextets vs Hbound Htail) as (Hsame & Hbytes & Hlen).
  assert (Htext : encode_url (bytes_of_sextets vs) = s).
  { unfold encode_url. rewrite Hsame, Hmap. apply string_of_list_ascii_of_string. }
  exists (bytes_of_sextets vs). split; [| split].
  - rewrite <- Htext at 1. now apply decode_encode_url.
  - exact Htext.
  - rewrite Hlen, length_list_of, <- Hmap. now rewrite length_map.
Qed.

Lemma canonical_text_roundtrip_witness :
  exists bytes,
    Page.urlBase64ToUint8Array "BG1Nfg" = Some bytes
    /\ encode_url bytes = "BG1Nfg"
    /\ length bytes = String.length "BG1Nfg" * 3 / 4.
Proof. apply canonical_text_roundtrip. vm_compute. reflexivity. Defined.

End KeyTextFacts.

(** ** Scripts that keep a relation *)

Create HintDb scripts.

#[export] Hint Unfold Platform.fetch Platform.response_json Platform.parse
  Platform.get_prop Platform.getSubscription Platform.pushManager_getSubscription
  Platform.pushManager_subscribe Platform.localStorage_getItem Platform.localStorage_setItem Platform.now
  Platform.clients_matchAll Platform.caches_keys Platform.caches_delete
  Platform.cache_put Platform.caches_match
  Page.log Page.set_status Page.substring10 Page.sendSubscriptionToServer
  Page.fetch_vapid_key
  Page.subscribeUserToPush Page.logNavigationToServer Page.on_message
  Page.on_DOMContentLoaded Page.on_permission_click Page.on_click
  Page.on_beforeunload Page.on_popstate
  Worker.swLog Worker.logNavigationToServer Worker.on_install Worker.on_activate
  Worker.track Worker.respond Worker.on_fetch Worker.on_push
  Worker.on_notificationclick Worker.on_message Worker.on_clientschanged
  : scripts.

Section Respects.
Import JS Platform System Conduct.

Variable R : World -> World -> list effect -> Prop.
Hypothesis R_refl : forall w, R w w [].
Hypothesis R_trans :
  forall w w1 w2 es1 es2, R w w1 es1 -> R w1 w2 es2 -> R w w2 (es1 ++ es2).

Lemma respects_ret {A} (a : A) : respects R (ret a).
Proof. intros w. apply R_refl. Qed.

Lemma respects_throw {A} e : respects R (@throw A e).
Proof. intros w. apply R_refl. Qed.

Lemma respects_pending {A} : respects R (@pending A).
Proof. intros w. apply R_refl. Qed.

Lemma respects_get_world : respects R get_world.
Proof. intros w. apply R_refl. Qed.

Lemma respects_of_option {A} e (o : option A) : respects R (of_option e o).
Proof. destruct o; [apply respects_ret | apply respects_throw]. Qed.

Lemma respects_emit e : (forall w, R w w [e]) -> respects R (emit e).
Proof. intros He w. apply He. Qed.

Lemma respects_modify f : (forall w, R w (f w) []) -> respects R (modify f).
Proof. intros Hf w. apply Hf. Qed.

Lemma respects_bind {A B} (m : M A) (k : A -> M B) :
  respects R m -> (forall a, respects R (k a)) -> respects R (bind m k).
Proof.
  intros Hm Hk w. specialize (Hm w). unfold world_of, effects_of, bind in *.
  destruct (m w) as [[[a|e|] w1] es1]; cbn in *; try exact Hm.
  specialize (Hk a w1). unfold world_of, effects_of in Hk.
  destruct (k a w1) as [[r w2] es2]. cbn in *. eauto.
Qed.

Lemma respects_try_catch {A} (m : M A) handler :
  respects R m -> (forall e, respects R (handler e)) -> respects R (try_catch m handler).
Proof.
  intros Hm Hh w. specialize (Hm w). unfold world_of, effects_of, try_catch in *.
  destruct (m w) as [[[a|e|] w1] es1]; cbn in *; try exact Hm.
  specialize (Hh e w1). unfold world_of, effects_of in Hh.
  destruct (handler e w1) as [[r w2] es2]. cbn in *. eauto.
Qed.

Lemma respects_for_each {A} (l : list A) (f : A -> M unit) :
  (forall a, respects R (f a)) -> respects R (for_each l f).
Proof.
  intros Hf. induction l as [|a l IH]; cbn [for_each].
  - apply respects_ret.
  - apply respects_bind; [apply Hf | intros _; exact IH].
Qed.

Lemma respects_fetch_all env paths :
  (forall url w, R w w [Fetch url "GET" VUndefined]) ->
  (forall w, R w (next_tick w) []) ->
  respects R (Worker.fetch_all env paths).
Proof.
  intros Hfetch Htick. induction paths as [|path paths IH]; cbn [Worker.fetch_all].
  - apply respects_ret.
  - apply respects_bind; [| intros r; apply respects_bind;
                             [exact IH | intros; apply respects_ret]].
    apply respects_try_catch; [| intros; apply respects_ret].
    apply respects_bind; [| intros; apply respects_ret].
    unfold fetch.
    apply respects_bind; [apply respects_get_world | intros w0].
    apply respects_bind; [apply respects_emit, Hfetch | intros _].
    apply respects_bind; [apply respects_modify, Htick | intros _].
    apply respects_of_option.
Qed.

End Respects.

(** Decomposes a script into its steps; [side] settles what a single
    effect or a single change of the world does to the relation. *)
Ltac respects_step refl trans side :=
  match goal with
  | |- forall _, _ => intro
  | |- Conduct.respects _ (Platform.bind _ _) => apply (respects_bind _ trans)
  | |- Conduct.respects _ (Platform.try_catch _ _) =>
      apply (respects_try_catch _ trans)
  | |- Conduct.respects _ (Platform.ret _) => apply (respects_ret _ refl)
  | |- Conduct.respects _ (Platform.throw _) => apply (respects_throw _ refl)
  | |- Conduct.respects _ Platform.pending => apply (respects_pending _ refl)
  | |- Conduct.respects _ Platform.get_world => apply (respects_get_world _ refl)
  | |- Conduct.respects _ (Platform.of_option _ _) => apply (respects_of_option _ refl)
  | |- Conduct.respects _ (Platform.for_each _ _) =>
      apply (respects_for_each _ refl trans)
  | |- Conduct.respects _ (Worker.fetch_all _ _) =>
      apply (respects_fetch_all _ refl trans); intros; side
  | |- Conduct.respects _ (Platform.emit _) => apply respects_emit; intro; side
  | |- Conduct.respects _ (Platform.modify _) => apply respects_modify; intro; side
  | |- Conduct.respects _ (if ?b then _ else _) => destruct b eqn:?
  | |- Conduct.respects _ (match ?x with _ => _ end) => destruct x eqn:?
  | |- Conduct.respects _ _ => progress autounfold with scripts
  end.

Ltac respects_with refl trans side := repeat (respects_step refl trans side).

Section Conducts.
Import JS Platform System Conduct.

Lemma keeps_storage_refl w : keeps_storage w w [].
Proof. reflexivity. Qed.

Lemma keeps_storage_trans w w1 w2 es1 es2 :
  keeps_storage w w1 es1 -> keeps_storage w1 w2 es2 -> keeps_storage w w2 (es1 ++ es2).
Proof. unfold keeps_storage. congruence. Qed.

Lemma keeps_subscriptions_refl w : keeps_subscriptions w w [].
Proof. reflexivity. Qed.

Lemma keeps_subscriptions_trans w w1 w2 es1 es2 :
  keeps_subscriptions w w1 es1 -> keeps_subscriptions w1 w2 es2 ->
  keeps_subscriptions w w2 (es1 ++ es2).
Proof. unfold keeps_subscriptions. congruence. Qed.

Lemma keeps_caches_refl w : keeps_caches w w [].
Proof. reflexivity. Qed.

Lemma keeps_caches_trans w w1 w2 es1 es2 :
  keeps_caches w w1 es1 -> keeps_caches w1 w2 es2 -> keeps_caches w w2 (es1 ++ es2).
Proof. unfold keeps_caches. congruence. Qed.

Lemma keeps_hits_refl w : keeps_hits w w [].
Proof. intros url H. exact H. Qed.

Lemma keeps_hits_trans w w1 w2 es1 es2 :
  keeps_hits w w1 es1 -> keeps_hits w1 w2 es2 -> keeps_hits w w2 (es1 ++ es2).
Proof. unfold keeps_hits. auto. Qed.

Lemma no_panel_log_refl w : no_panel_log w w [].
Proof. reflexivity. Qed.

Lemma no_panel_log_trans w w1 w2 es1 es2 :
  no_panel_log w w1 es1 -> no_panel_log w1 w2 es2 -> no_panel_log w w2 (es1 ++ es2).
Proof. unfold no_panel_log. intros H1 H2. now rewrite List.filter_app, H1, H2. Qed.

Lemma no_request_refl w : no_request w w [].
Proof. reflexivity. Qed.

Lemma no_request_trans w w1 w2 es1 es2 :
  no_request w w1 es1 -> no_request w1 w2 es2 -> no_request w w2 (es1 ++ es2).
Proof. unfold no_request. intros H1 H2. now rewrite List.filter_app, H1, H2. Qed.

(** X5.  The local storage is written by the page load and by
    [subscribeUserToPush] only: every other listener of the page, and every
    listener of the worker, leaves it as it is. *)
Theorem storage_writers env op w :
  match op with
  | PageLoaded | PermissionClick | SubscribeUserToPush => True
  | _ => localStorage (world_of (run env op) w) = localStorage w
  end.
Proof.
  destruct op; try exact I; cbn [run];
    match goal with
    | |- localStorage (world_of ?m w) = _ =>
        enough (H : respects keeps_storage m) by exact (H w)
    end;
    respects_with keeps_storage_refl keeps_storage_trans ltac:(reflexivity).
Qed.

(** X6.  Without the log panel the page writes no log line at all, and
    the worker never writes one. *)
Theorem no_panel_no_log env op w :
  has_log_panel env = false ->
  List.filter is_panel_log (effects_of (run env op) w) = [].
Proof.
  intros Hpanel.
  enough (H : respects no_panel_log (run env op)) by exact (H w).
  destruct op; cbn [run];
    respects_with no_panel_log_refl no_panel_log_trans
      ltac:(first [reflexivity | congruence]).
Qed.

Lemma no_panel_no_log_witness :
  List.filter is_panel_log
    (effects_of (run Sample.silent PageLoaded) Sample.fresh) = [].
Proof. apply no_panel_no_log. reflexivity. Defined.

(** X7.  Leaving the page, activation, a push message, a click on a
    notification and a change of clients send nothing to the network. *)
Theorem listeners_without_network env op w :
  match op with
  | BeforeUnload | Activate | PushEvent _ | NotificationClick _ | ClientsChanged =>
      List.filter is_fetch (effects_of (run env op) w) = []
  | _ => True
  end.
Proof.
  destruct op; try exact I; cbn [run];
    match goal with
    | |- List.filter is_fetch (effects_of ?m w) = _ =>
        enough (H : respects no_request m) by exact (H w)
    end;
    respects_with no_request_refl no_request_trans ltac:(reflexivity).
Qed.

Lemma put_in_keeps_hits name url' r url (l : list (string * Cache)) :
  match_in url l <> None -> match_in url (put_in name url' r l) <> None.
Proof.
  induction l as [|[n c] l IH]; cbn [match_in put_in]; intros Hhit; [congruence |].
  destruct (String.eqb n name); cbn [match_in].
  - destruct (decide (url' = url)) as [->|Hne].
    + now rewrite lookup_insert_eq.
    + now rewrite lookup_insert_ne.
  - destruct (c !! url); [discriminate | now apply IH].
Qed.

Lemma match_in_app_empty url name (l : list (string * Cache)) :
  match_in url (l ++ [(name, ∅)]) = match_in url l.
Proof.
  induction l as [|[n c] l IH]; cbn [match_in app].
  - now rewrite lookup_empty.
  - now rewrite IH.
Qed.

Lemma open_cache_hits url name (l : list (string * Cache)) :
  match_in url (Worker.open_cache name l) = match_in url l.
Proof.
  unfold Worker.open_cache. destruct (existsb _ l); [reflexivity |].
  apply match_in_app_empty.
Qed.

Lemma store_all_keeps_hits name url (responses : list (string * Response))
    (l : list (string * Cache)) :
  match_in url l <> None ->
  match_in url
    (foldl (fun acc pr => put_in name (fst pr) (snd pr) acc) l responses) <> None.
Proof.
  revert l. induction responses as [|[u r] responses IH]; intros l Hhit; cbn [foldl].
  - exact Hhit.
  - apply IH. now apply put_in_keeps_hits.
Qed.

Ltac hits_side :=
  unfold keeps_hits;
  cbn [caches set_caches set_localStorage set_subscriptions set_controlled next_tick];
  let url := fresh "url" in
  let Hhit := fresh "Hhit" in
  intros url Hhit;
  first [ exact Hhit
        | now apply put_in_keeps_hits
        | now rewrite open_cache_hits
        | now apply store_all_keeps_hits ].

(** X8.  Only activation takes entries out of the cache: a request the
    cache answers before any other listener is still answered from the
    cache after it. *)
Theorem cached_requests_survive env op w request :
  op <> Activate ->
  cached w request <> None ->
  cached (world_of (run env op) w) request <> None.
Proof.
  intros Hop. unfold cached. destruct (String.eqb (req_method request) "GET");
    [| congruence].
  enough (H : respects keeps_hits (run env op)) by exact (H w (href (req_url request))).
  destruct op; try congruence; cbn [run];
    respects_with keeps_hits_refl keeps_hits_trans ltac:(hits_side).
Qed.

Lemma cached_requests_survive_witness :
  cached (world_of (run Sample.env (FetchEvent Sample.cdn_request)) Sample.precached)
    Sample.index_request <> None.
Proof.
  apply (cached_requests_survive Sample.env (FetchEvent Sample.cdn_request)
           Sample.precached Sample.index_request);
    [discriminate | vm_compute; discriminate].
Defined.

End Conducts.

(** ** Errors are caught *)

Section BestEffort.
Import JS Platform System Conduct.







(** X10.  Where the registration has a push manager, the reporter of the
    worker returns the server's answer when the request succeeds and the
    answer parses, and an object with an [error] field otherwise.  Where it
    has none, the reporter returns an object with an [error] field and
    sends nothing. *)
Theorem worker_report_result env url referrer w :
  let answer :=
    network env (tick w) LOG_NAVIGATION_URL "POST"
      (VObj [("url", url);
             ("referrer", or_else referrer (VStr "unknown"));
             ("userAgent", VStr "service-worker");
             ("subscriptionEndpoint",
              VStr match head (subscriptions w) with
                   | Some subscription => endpoint subscription
                   | None => "not-available-in-sw"
                   end);
             ("timestamp", VStr (clock env (tick w)))]) in
  if has_PushManager env then
    match answer with
    | Some response =>
        match resp_json response with
        | Some result =>
            result_of (Worker.logNavigationToServer env url referrer) w = Ok result
        | None =>
            exists e, result_of (Worker.logNavigationToServer env url referrer) w
                      = Ok (VObj [("error", VStr e)])
        end
    | None =>
        exists e, result_of (Worker.logNavigationToServer env url referrer) w
                  = Ok (VObj [("error", VStr e)])
    end
  else
    (exists e, result_of (Worker.logNavigationToServer env url referrer) w
               = Ok (VObj [("error", VStr e)]))
    /\ List.filter is_fetch
         (effects_of (Worker.logNavigationToServer env url referrer) w) = [].
Proof.
  intros answer. subst answer. unfold Worker.logNavigationToServer, LOG_NAVIGATION_URL.
  change (Page.SERVER_URL) with (Worker.SERVER_URL). run.
  destruct (has_PushManager env); run.
  - destruct (network env _ _ _ _) as [r|]; run;
      [destruct (resp_json r); run |];
      rewrite swLog_run; run; eauto.
  - rewrite swLog_run; run. split; [eauto |].
    rewrite app_nil_r. cbn [List.filter is_fetch].
    induction (controlled w) as [|c l IH]; [reflexivity | exact IH].
Qed.

End BestEffort.

(** ** The ways [subscribeUserToPush] ends *)

Section SubscribeOutcomes.
Import JS Platform System Conduct.

Lemma bind_throw {A B} (m : M A) (k : A -> M B) w e w1 es1 :
  m w = (Throw e, w1, es1) -> bind m k w = (Throw e, w1, es1).
Proof. intros H. unfold bind. now rewrite H. Qed.

Lemma subscribe_unsupported env w :
  has_serviceWorker env && has_PushManager env = false ->
  exists es,
    Page.subscribeUserToPush env w = (Ok None, w, es) /\ without_logs es = [].
Proof.
  intros Hno. unfold Page.subscribeUserToPush.
  assert (Hor : negb (has_serviceWorker env) || negb (has_PushManager env) = true)
    by (destruct (has_serviceWorker env), (has_PushManager env); auto).
  rewrite Hor. eexists. split; [step; reflexivity |].
  cbn. now destruct (has_log_panel env).
Qed.

Lemma subscribe_not_ready env w :
  has_serviceWorker env = true -> has_PushManager env = true ->
  worker_ready env = false ->
  Page.subscribeUserToPush env w = (Pending, w, []).
Proof.
  intros Hsw Hpm Hready. unfold Page.subscribeUserToPush.
  rewrite Hsw, Hpm, Hready. reflexivity.
Qed.

Lemma subscribe_bad_key env w :
  has_serviceWorker env = true -> has_PushManager env = true ->
  worker_ready env = true ->
  Page.urlBase64ToUint8Array (default Page.HARDCODED_VAPID_KEY (server_key env w))
    = None ->
  exists es,
    Page.subscribeUserToPush env w = (Ok None, next_tick w, es)
    /\ without_logs es = [Fetch VAPID_KEY_URL "GET" VUndefined].
Proof.
  intros Hsw Hpm Hready Hkey.
  destruct (fetch_vapid_key_run env w) as (es1 & Hrun1 & Hes1).
  unfold Page.subscribeUserToPush. rewrite Hsw, Hpm, Hready. cbn [negb orb].
  eexists. split.
  - erewrite try_catch_throw.
    2: { do 2 step. erewrite bind_run; [| exact Hrun1]. cbn beta iota zeta.
         rewrite Hkey. reflexivity. }
    step. reflexivity.
  - rewrite !without_logs_app, Hes1. destruct (has_log_panel env); reflexivity.
Qed.

Lemma subscribe_refused env w bytes :
  has_serviceWorker env = true -> has_PushManager env = true ->
  worker_ready env = true ->
  subscriptions w = [] ->
  Page.urlBase64ToUint8Array (default Page.HARDCODED_VAPID_KEY (server_key env w))
    = Some bytes ->
  push_service env (S (tick w)) bytes = None ->
  exists es,
    Page.subscribeUserToPush env w = (Ok None, next_tick (next_tick w), es)
    /\ without_logs es =
       [Fetch VAPID_KEY_URL "GET" VUndefined; Subscribe true bytes].
Proof.
  intros Hsw Hpm Hready Hsubs Hkey Hpush.
  destruct (fetch_vapid_key_run env w) as (es1 & Hrun1 & Hes1).
  unfold Page.subscribeUserToPush. rewrite Hsw, Hpm, Hready. cbn [negb orb].
  eexists. split.
  - erewrite try_catch_throw.
    2: { do 2 step. erewrite bind_run; [| exact Hrun1]. cbn beta iota zeta.
         rewrite Hkey. do 2 step. cbn [subscriptions next_tick]. rewrite Hsubs.
         cbn [head].
         erewrite bind_throw; [reflexivity |].
         erewrite bind_throw; [reflexivity |].
         unfold pushManager_subscribe. do 3 step.
         cbn [tick next_tick]. rewrite Hpush. reflexivity. }
    step. reflexivity.
  - rewrite !without_logs_app, Hes1. destruct (has_log_panel env); reflexivity.
Qed.

(** X11.  Where service workers or push are missing, [subscribeUserToPush]
    returns [undefined] at once: nothing is requested and nothing changes.
    While the worker is not ready it waits, without any effect. *)
Theorem subscribe_needs_platform env w :
  (has_serviceWorker env && has_PushManager env = false ->
   result_of (Page.subscribeUserToPush env) w = Ok None
   /\ world_of (Page.subscribeUserToPush env) w = w
   /\ without_logs (effects_of (Page.subscribeUserToPush env) w) = [])
  /\ (has_serviceWorker env && has_PushManager env = true ->
      worker_ready env = false ->
      Page.subscribeUserToPush env w = (Pending, w, [])).
Proof.
  split.
  - intros Hno. destruct (subscribe_unsupported env w Hno) as (es & Hrun & Hes).
    unfold result_of, world_of, effects_of. rewrite Hrun. auto.
  - intros Hyes Hready. apply andb_true_iff in Hyes as [Hsw Hpm].
    now apply subscribe_not_ready.
Qed.

Lemma subscribe_needs_platform_witness :
  result_of (Page.subscribeUserToPush Sample.no_push) Sample.fresh = Ok None
  /\ world_of (Page.subscribeUserToPush Sample.no_push) Sample.fresh = Sample.fresh
  /\ Page.subscribeUserToPush Sample.not_ready Sample.fresh = (Pending, Sample.fresh, []).
Proof.
  destruct (subscribe_needs_platform Sample.no_push Sample.fresh) as [Hno _].
  destruct (subscribe_needs_platform Sample.not_ready Sample.fresh) as [_ Hwait].
  destruct (Hno eq_refl) as (Hres & Hworld & _).
  split; [exact Hres |]. split; [exact Hworld |]. apply Hwait; reflexivity.
Defined.

(** X12.  When the key obtained does not decode, [subscribeUserToPush]
    gives up after the key request: it returns [undefined], the push manager
    is not asked, nothing is posted to [/subscribe], and the subscriptions
    and the local storage are as before; even when a subscription is
    active. *)
Theorem undecodable_key_aborts env w :
  has_serviceWorker env = true -> has_PushManager env = true ->
  worker_ready env = true ->
  Page.urlBase64ToUint8Array (default Page.HARDCODED_VAPID_KEY (server_key env w))
    = None ->
  result_of (Page.subscribeUserToPush env) w = Ok None
  /\ without_logs (effects_of (Page.subscribeUserToPush env) w)
     = [Fetch VAPID_KEY_URL "GET" VUndefined]
  /\ subscriptions (world_of (Page.subscribeUserToPush env) w) = subscriptions w
  /\ localStorage (world_of (Page.subscribeUserToPush env) w) = localStorage w.
Proof.
  intros Hsw Hpm Hready Hkey.
  destruct (subscribe_bad_key env w Hsw Hpm Hready Hkey) as (es & Hrun & Hes).
  unfold result_of, world_of, effects_of. rewrite Hrun. auto.
Qed.

Lemma undecodable_key_aborts_witness :
  result_of (Page.subscribeUserToPush Sample.bad_key) Sample.subscribed = Ok None
  /\ subscriptions (world_of (Page.subscribeUserToPush Sample.bad_key) Sample.subscribed)
     = [Sample.sub].
Proof.
  destruct (undecodable_key_aborts Sample.bad_key Sample.subscribed
              eq_refl eq_refl eq_refl eq_refl) as (Hres & _ & Hsubs & _).
  split; [exact Hres | exact Hsubs].
Defined.

(** X13.  When the push service refuses the subscription,
    [subscribeUserToPush] returns [undefined]: there is still no active
    subscription, nothing is posted to [/subscribe] and the local storage
    is as before. *)
Theorem refused_subscription_leaves_nothing env w bytes :
  has_serviceWorker env = true -> has_PushManager env = true ->
  worker_ready env = true ->
  subscriptions w = [] ->
  Page.urlBase64ToUint8Array (default Page.HARDCODED_VAPID_KEY (server_key env w))
    = Some bytes ->
  push_service env (S (tick w)) bytes = None ->
  result_of (Page.subscribeUserToPush env) w = Ok None
  /\ without_logs (effects_of (Page.subscribeUserToPush env) w)
     = [Fetch VAPID_KEY_URL "GET" VUndefined; Subscribe true bytes]
  /\ subscriptions (world_of (Page.subscribeUserToPush env) w) = []
  /\ localStorage (world_of (Page.subscribeUserToPush env) w) = localStorage w.
Proof.
  intros Hsw Hpm Hready Hsubs Hkey Hpush.
  destruct (subscribe_refused env w bytes Hsw Hpm Hready Hsubs Hkey Hpush)
    as (es & Hrun & Hes).
  unfold result_of, world_of, effects_of. rewrite Hrun. cbn. auto.
Qed.

Lemma refused_subscription_leaves_nothing_witness :
  result_of (Page.subscribeUserToPush Sample.refusing) Sample.fresh = Ok None
  /\ subscriptions (world_of (Page.subscribeUserToPush Sample.refusing) Sample.fresh)
     = [].
Proof.
  destruct (refused_subscription_leaves_nothing Sample.refusing Sample.fresh
              Page.HARDCODED_KEY_BYTES eq_refl eq_refl eq_refl eq_refl)
    as (Hres & _ & Hsubs & _).
  - vm_compute. reflexivity.
  - reflexivity.
  - split; [exact Hres | exact Hsubs].
Defined.

(** X14.  When the server hands out a key that decodes, that key, not the
    hardcoded one, is given to the push manager. *)
Theorem server_key_is_used env w key bytes s :
  has_serviceWorker env = true -> has_PushManager env = true ->
  worker_ready env = true ->
  subscriptions w = [] ->
  server_key env w = Some key ->
  Page.urlBase64ToUint8Array key = Some bytes ->
  push_service env (S (tick w)) bytes = Some s ->
  result_of (Page.subscribeUserToPush env) w = Ok (Some s)
  /\ without_logs (effects_of (Page.subscribeUserToPush env) w)
     = [Fetch VAPID_KEY_URL "GET" VUndefined;
        Subscribe true bytes;
        Fetch SUBSCRIBE_URL "POST" (subscription_report env s)].
Proof.
  intros Hsw Hpm Hready Hsubs Hserver Hkey Hpush.
  destruct (subscribe_fresh env w s bytes Hsw Hpm Hready Hsubs) as (es & Hrun & Hes).
  - now rewrite Hserver.
  - exact Hpush.
  - unfold result_of, effects_of. rewrite Hrun. auto.
Qed.

Lemma server_key_is_used_witness :
  without_logs (effects_of (Page.subscribeUserToPush Sample.with_key) Sample.fresh)
  = [Fetch VAPID_KEY_URL "GET" VUndefined;
     Subscribe true [65; 66; 67; 68];
     Fetch SUBSCRIBE_URL "POST" (subscription_report Sample.with_key Sample.sub)].
Proof.
  apply (server_key_is_used Sample.with_key Sample.fresh "QUJDRA" [65; 66; 67; 68]
           Sample.sub); reflexivity.
Defined.

End SubscribeOutcomes.

(** ** The stored subscription *)

Section StoredSubscription.
Import JS Platform System Conduct.
Variable env : Env.

Lemma steady_refl w : steady env w w [].
Proof. split; auto. Qed.

Lemma steady_trans w w1 w2 es1 es2 :
  steady env w w1 es1 -> steady env w1 w2 es2 -> steady env w w2 (es1 ++ es2).
Proof. intros [Hs1 Hc1] [Hs2 Hc2]. split; [congruence | auto]. Qed.

Ltac steady_side := split; [reflexivity | let H := fresh in intros H; exact H].

Ltac steady := respects_with steady_refl steady_trans ltac:(steady_side).











End StoredSubscription.


(** ** Reports of the page with a stored subscription *)

Section StoredReports.
Import JS Platform System Conduct.

(** X16.  When the stored subscription is the text of the active one and
    the platform reads back what it wrote, every report of the page carries
    the endpoint of the active subscription. *)
Theorem report_carries_active_endpoint env w text url referrer :
  storage_consistent env w ->
  localStorage w !! "pushSubscription" = Some text ->
  text <> "" ->
  (forall s, head (subscriptions w) = Some s ->
     JSON_parse env (JSON_stringify env (subscription_value s))
     = Some (subscription_value s)) ->
  exists s,
    head (subscriptions w) = Some s
    /\ map (fun body => field body "subscriptionEndpoint")
         (reports (effects_of (Page.logNavigationToServer env url referrer) w))
       = [VStr (endpoint s)].
Proof.
  intros Hc Hstored Hne Hjson. unfold storage_consistent in Hc.
  rewrite Hstored in Hc. destruct Hc as (s & Hhead & ->).
  exists s. split; [exact Hhead |].
  unfold Page.logNavigationToServer. run. rewrite Hstored.
  apply String.eqb_neq in Hne. rewrite Hne. cbn [negb]. run.
  rewrite (Hjson s Hhead). run.
  change (get (subscription_value s) "endpoint") with (Some (VStr (endpoint s))). run.
  destruct (network env _ _ _ _) as [r|]; run;
    [destruct (resp_json r); run |];
    rewrite page_log_run; run; destruct (has_log_panel env); reflexivity.
Qed.

Lemma report_carries_active_endpoint_witness :
  exists s,
    head (subscriptions Sample.stored) = Some s
    /\ map (fun body => field body "subscriptionEndpoint")
         (reports (effects_of
            (Page.logNavigationToServer Sample.storing
               (VStr "https://app.vercel.app/") VUndefined)
            Sample.stored))
       = [VStr (endpoint s)].
Proof.
  apply (report_carries_active_endpoint Sample.storing Sample.stored Sample.stored_text).
  - exists Sample.sub. split; reflexivity.
  - reflexivity.
  - discriminate.
  - intros s [= <-]. reflexivity.
Defined.

(** X17.  When the local storage holds a text that does not parse, or
    parses to [null], the page sends no report at all: the failure is
    logged and the navigation is lost. *)
Theorem unreadable_storage_sends_nothing env w text url referrer :
  localStorage w !! "pushSubscription" = Some text ->
  text <> "" ->
  match JSON_parse env text with
  | Some v => get v "endpoint" = None
  | None => True
  end ->
  Page.logNavigationToServer env url referrer w
  = (Ok tt, w, (Page.log env
                  ("Error logging navigation to server: "
                   +:+ match JSON_parse env text with
                       | Some _ => "TypeError: Cannot read properties"
                       | None => "SyntaxError: Unexpected token"
                       end) w).2)
  /\ List.filter is_fetch
       (effects_of (Page.logNavigationToServer env url referrer) w) = [].
Proof.
  intros Hstored Hne Hbad.
  assert (Hrun :
    Page.logNavigationToServer env url referrer w
    = (Ok tt, w, (Page.log env
                    ("Error logging navigation to server: "
                     +:+ match JSON_parse env text with
                         | Some _ => "TypeError: Cannot read properties"
                         | None => "SyntaxError: Unexpected token"
                         end) w).2)).
  { unfold Page.logNavigationToServer. run. rewrite Hstored.
    apply String.eqb_neq in Hne. rewrite Hne. cbn [negb]. run.
    destruct (JSON_parse env text) as [v|]; run;
      [rewrite Hbad; run |]; rewrite page_log_run; reflexivity. }
  split; [exact Hrun |].
  unfold effects_of. rewrite Hrun, page_log_run. cbn.
  now destruct (has_log_panel env).
Qed.

Lemma unreadable_storage_sends_nothing_witness :
  List.filter is_fetch
    (effects_of
       (Page.logNavigationToServer Sample.env (VStr "https://app.vercel.app/") VUndefined)
       Sample.garbled) = [].
Proof.
  apply (unreadable_storage_sends_nothing Sample.env Sample.garbled "not json");
    [reflexivity | discriminate | exact I].
Defined.

End StoredReports.

(** ** Messages and clicks on the page *)

Section PageEvents.
Import JS Platform System Conduct.

(** The report the page sends without a stored subscription. *)
Lemma page_report_run env url referrer w :
  localStorage w !! "pushSubscription" = None ->
  exists es,
    Page.logNavigationToServer env url referrer w = (Ok tt, next_tick w, es)
    /\ reports es =
       [VObj [("url", url);
              ("referrer", or_else referrer (VStr (document_referrer env)));
              ("userAgent", VStr (userAgent env));
              ("subscriptionEndpoint", VStr "not-subscribed")]].
Proof.
  intros Hnone. unfold Page.logNavigationToServer. run. rewrite Hnone. run.
  destruct (network env _ _ _ _) as [r|]; run;
    [destruct (resp_json r); run |];
    rewrite page_log_run; run; eexists; (split; [reflexivity |]);
    destruct (has_log_panel env); reflexivity.
Qed.

Lemma get_field v k : get v k = None \/ get v k = Some (field v k).
Proof. unfold field. destruct (get v k); auto. Qed.

Lemma get_none_field v k k' : get v k = None -> field v k' = VUndefined.
Proof. destruct v; cbn; try discriminate; reflexivity. Qed.

Lemma get_none_any v k k' : get v k = None -> get v k' = None.
Proof. destruct v; cbn; try discriminate; reflexivity. Qed.

Lemma page_message_run env data w :
  localStorage w !! "pushSubscription" = None ->
  reports (effects_of (Page.on_message env data) w)
  = if is_string (field data "type") "navigation" && truthy (field data "url")
    then [VObj [("url", field data "url");
                ("referrer",
                 or_else (field data "referrer") (VStr (document_referrer env)));
                ("userAgent", VStr (userAgent env));
                ("subscriptionEndpoint", VStr "not-subscribed")]]
    else [].
Proof.
  intros Hnone. unfold Page.on_message, effects_of. step.
  assert (Hlog : forall m, reports (if has_log_panel env
                                    then [PanelLog m] else []) = [])
    by (intros; now destruct (has_log_panel env)).
  destruct (get_field data "type") as [Htype | Htype].
  - rewrite (get_none_field _ _ "type" Htype). cbn [is_string andb].
    unfold get_prop, bind. rewrite Htype. cbn. now rewrite app_nil_r, Hlog.
  - unfold get_prop at 1. rewrite Htype. step.
    destruct (is_string (field data "type") "navigation"); cbn [andb];
      [| cbn; now rewrite app_nil_r, Hlog].
    destruct (get_field data "url") as [Hurl | Hurl];
      [apply (get_none_any _ _ "type") in Hurl; congruence |].
    unfold get_prop at 1. rewrite Hurl. step.
    destruct (truthy (field data "url")); [| cbn; now rewrite app_nil_r, Hlog].
    destruct (get_field data "referrer") as [Href | Href];
      [apply (get_none_any _ _ "type") in Href; congruence |].
    unfold get_prop at 1. rewrite Href. step.
    destruct (page_report_run env (field data "url") (field data "referrer") w Hnone)
      as (es & -> & Hes).
    cbn. now rewrite reports_app, Hlog, Hes.
Qed.

(** X18.  A message to the page makes it report exactly when its type is
    [navigation] and its [url] is truthy; the report carries that URL, and
    the referrer of the message (or the page's default for a falsy one). *)
Theorem page_message_reports env data w :
  localStorage w !! "pushSubscription" = None ->
  reports (effects_of (Page.on_message env data) w)
  = if is_string (field data "type") "navigation" && truthy (field data "url")
    then [VObj [("url", field data "url");
                ("referrer",
                 or_else (field data "referrer") (VStr (document_referrer env)));
                ("userAgent", VStr (userAgent env));
                ("subscriptionEndpoint", VStr "not-subscribed")]]
    else [].
Proof. apply page_message_run. Qed.

Lemma page_message_reports_witness :
  reports (effects_of
             (Page.on_message Sample.env
                (Worker.navigation_message Sample.navigation_request))
             Sample.fresh)
  = [VObj [("url", VStr "https://app.vercel.app/page2.html");
           ("referrer", VStr "unknown");
           ("userAgent", VStr "Mozilla/5.0");
           ("subscriptionEndpoint", VStr "not-subscribed")]].
Proof.
  apply (page_message_reports Sample.env
           (Worker.navigation_message Sample.navigation_request) Sample.fresh).
  reflexivity.
Defined.

(** X19.  A tracked navigation is reported more than once: by the
    worker, where its registration has a push manager, and once more by
    every page without a stored subscription that receives the worker's
    message, each time with the URL of the navigation. *)
Theorem tracked_navigation_reported_again env w request c message :
  In (c, message) (navigation_posts (effects_of (Worker.on_fetch env request) w)) ->
  href (req_url request) <> "" ->
  map (fun body => field body "url")
    (reports (effects_of (Worker.on_fetch env request) w))
  = (if has_PushManager env then [VStr (href (req_url request))] else [])
  /\ forall page w',
      localStorage w' !! "pushSubscription" = None ->
      map (fun body => field body "url")
        (reports (effects_of (Page.on_message page message) w'))
      = [VStr (href (req_url request))].
Proof.
  intros Hin Hhref.
  destruct (track_run env request w) as (w1 & es1 & Hrun & _ & Hposts & Hreports & _).
  destruct (respond_silent env request w1) as [Hp Hr].
  unfold effects_of, Worker.on_fetch in *.
  erewrite bind_run in Hin |- *; [| exact Hrun | exact Hrun].
  destruct (Worker.respond env request w1) as [[r w2] es2]. cbn in *.
  rewrite navigation_posts_app, Hposts, Hp, app_nil_r in Hin.
  rewrite reports_app, Hreports, Hr, app_nil_r.
  destruct (Worker.is_tracked_navigation request); [| destruct Hin].
  apply in_map_iff in Hin as (c' & [= <- <-] & _).
  split; [now destruct (has_PushManager env) |]. intros page w' Hnone.
  pose proof (page_message_run page (Worker.navigation_message request) w' Hnone)
    as Hpage.
  unfold effects_of in Hpage. rewrite Hpage.
  change (field (Worker.navigation_message request) "type") with (VStr "navigation").
  change (field (Worker.navigation_message request) "url")
    with (VStr (href (req_url request))).
  cbn [is_string truthy]. apply String.eqb_neq in Hhref. rewrite Hhref. reflexivity.
Qed.

Lemma tracked_navigation_reported_again_witness :
  map (fun body => field body "url")
    (reports (effects_of (Worker.on_fetch Sample.env Sample.navigation_request)
                Sample.fresh))
  = [VStr "https://app.vercel.app/page2.html"]
  /\ map (fun body => field body "url")
       (reports (effects_of
                   (Page.on_message Sample.env
                      (Worker.navigation_message Sample.navigation_request))
                   Sample.fresh))
     = [VStr "https://app.vercel.app/page2.html"].
Proof.
  destruct (tracked_navigation_reported_again Sample.env Sample.fresh
              Sample.navigation_request Sample.page_client
              (Worker.navigation_message Sample.navigation_request))
    as [Hworker Hpage].
  - vm_compute. auto.
  - discriminate.
  - split; [exact Hworker | apply Hpage; reflexivity].
Defined.

(** The climb stops at the first [A] or [BODY] element. *)
Lemma climb_first pre e post :
  forallb (fun x => negb (is_anchor_or_body x)) pre = true ->
  is_anchor_or_body e = true ->
  Page.climb (pre ++ e :: post) = Some e.
Proof.
  unfold is_anchor_or_body. intros Hpre He.
  induction pre as [|x pre IH]; cbn [Page.climb app forallb] in *.
  - rewrite <- negb_orb, He. reflexivity.
  - apply andb_true_iff in Hpre as [Hx Hpre]. rewrite <- negb_orb, Hx. now apply IH.
Qed.

Lemma climb_none chain :
  forallb (fun x => negb (is_anchor_or_body x)) chain = true ->
  Page.climb chain = None.
Proof.
  unfold is_anchor_or_body.
  induction chain as [|x chain IH]; cbn [Page.climb forallb]; [reflexivity |].
  intros H. apply andb_true_iff in H as [Hx Hchain]. rewrite <- negb_orb, Hx.
  now apply IH.
Qed.

Lemma includes_nonempty s p : includes s p = true -> p <> "" -> s <> "".
Proof. intros H Hp ->. destruct p; [congruence | vm_compute in H; discriminate]. Qed.

(** X20.  While no subscription is stored, a click inside a link is
    reported when the first [A] element on the way up, met before [BODY],
    has an address containing [vercel.app]: one report, with that address
    as URL, the address of the page as referrer and the marker
    ["not-subscribed"]. *)
Theorem link_click_reported env w pre a post :
  forallb (fun x => negb (is_anchor_or_body x)) pre = true ->
  Page.tagName a = "A" ->
  includes (Page.elem_href a) "vercel.app" = true ->
  localStorage w !! "pushSubscription" = None ->
  reports (effects_of (Page.on_click env (pre ++ a :: post)) w)
  = [VObj [("url", VStr (Page.elem_href a));
           ("referrer",
            or_else (VStr (location_href env)) (VStr (document_referrer env)));
           ("userAgent", VStr (userAgent env));
           ("subscriptionEndpoint", VStr "not-subscribed")]].
Proof.
  intros Hpre Htag Hhref Hnone. unfold Page.on_click, effects_of.
  rewrite (climb_first pre a post Hpre)
    by (unfold is_anchor_or_body; now rewrite Htag).
  rewrite Htag, Hhref. cbn [String.eqb Ascii.eqb Bool.eqb andb].
  assert (Hne : Page.elem_href a <> "")
    by (apply (includes_nonempty _ _ Hhref); discriminate).
  apply String.eqb_neq in Hne. rewrite Hne. cbn [negb andb]. step.
  destruct (page_report_run env (VStr (Page.elem_href a)) (VStr (location_href env))
              w Hnone) as (es & -> & Hes).
  cbn. rewrite reports_app, Hes. now destruct (has_log_panel env).
Qed.

Lemma link_click_reported_witness :
  map (fun body => field body "url")
    (reports (effects_of (Page.on_click Sample.env Sample.link_chain) Sample.fresh))
  = [VStr "https://other.vercel.app/"].
Proof.
  change Sample.link_chain with
    ([ {| Page.tagName := "SPAN"; Page.elem_href := "" |} ]
     ++ {| Page.tagName := "A"; Page.elem_href := "https://other.vercel.app/" |}
     :: [ {| Page.tagName := "DIV"; Page.elem_href := "" |};
          {| Page.tagName := "BODY"; Page.elem_href := "" |} ]).
  rewrite (link_click_reported Sample.env Sample.fresh); reflexivity.
Defined.

(** X21.  A click that meets [BODY] before any [A] element, or neither of
    them, does nothing at all; whatever the elements above it are. *)
Theorem click_outside_link_ignored env w chain :
  (forall pre body post,
     chain = pre ++ body :: post ->
     forallb (fun x => negb (is_anchor_or_body x)) pre = true ->
     Page.tagName body = "BODY" ->
     Page.on_click env chain w = (Ok tt, w, []))
  /\ (forallb (fun x => negb (is_anchor_or_body x)) chain = true ->
      Page.on_click env chain w = (Ok tt, w, [])).
Proof.
  split.
  - intros pre body post -> Hpre Htag. unfold Page.on_click.
    rewrite (climb_first pre body post Hpre)
      by (unfold is_anchor_or_body; rewrite Htag; reflexivity).
    now rewrite Htag.
  - intros Hnone. unfold Page.on_click. now rewrite climb_none.
Qed.

Lemma click_outside_link_ignored_witness :
  Page.on_click Sample.env Sample.text_chain Sample.fresh = (Ok tt, Sample.fresh, [])
  /\ Page.on_click Sample.env [] Sample.fresh = (Ok tt, Sample.fresh, []).
Proof.
  split.
  - destruct (click_outside_link_ignored Sample.env Sample.fresh Sample.text_chain)
      as [Hbody _].
    apply (Hbody [ {| Page.tagName := "P"; Page.elem_href := "" |} ]
             {| Page.tagName := "BODY"; Page.elem_href := "" |}
             [ {| Page.tagName := "HTML"; Page.elem_href := "" |} ]);
      reflexivity.
  - apply (click_outside_link_ignored Sample.env Sample.fresh []). reflexivity.
Defined.

End PageEvents.

(** ** More on the fetch listener *)

Section FetchFacts.
Import JS Platform System Conduct.

(** X22.  Requests to a path containing [/log-navigation] or [/subscribe]
    that are not tracked navigations pass unnoticed: nothing is logged and
    no client gets a message, so the reports of the page cannot feed the
    log; the listener only answers them. *)
Theorem own_requests_pass_unnoticed env w request :
  includes (pathname (req_url request)) "/log-navigation"
  || includes (pathname (req_url request)) "/subscribe" = true ->
  Worker.is_tracked_navigation request = false ->
  Worker.track env request w = (Ok tt, w, [])
  /\ Worker.on_fetch env request w = Worker.respond env request w.
Proof.
  intros Hpath Htracked.
  assert (Htrack : Worker.track env request w = (Ok tt, w, [])).
  { unfold Worker.track. rewrite Htracked, <- negb_orb, Hpath. reflexivity. }
  split; [exact Htrack |].
  unfold Worker.on_fetch. erewrite bind_run; [| exact Htrack].
  now destruct (Worker.respond env request w) as [[r w2] es2].
Qed.

Lemma own_requests_pass_unnoticed_witness :
  Worker.on_fetch Sample.env Sample.report_request Sample.fresh
  = Worker.respond Sample.env Sample.report_request Sample.fresh.
Proof.
  apply (own_requests_pass_unnoticed Sample.env Sample.fresh Sample.report_request);
    reflexivity.
Defined.

(** X23.  Once a response has been stored, the same request is answered
    from the cache: the second time the listener answers with the stored
    response, without any effect. *)
Theorem second_fetch_from_cache env w request r :
  cached w request = None ->
  network env (tick w) (href (req_url request)) (req_method request) VUndefined
    = Some r ->
  Worker.skips_cache request = false ->
  let w' := world_of (Worker.respond env request) w in
  Worker.respond env request w' = (Ok r, w', []).
Proof.
  intros Hmiss Hnet Hskip w'. apply respond_hit.
  subst w'. unfold world_of. rewrite (respond_miss _ _ _ Hmiss). cbn zeta.
  rewrite Hnet, Hskip. unfold cached in *.
  cbn [caches set_caches next_tick fst snd].
  apply skips_cache_false in Hskip as (Hget & _). rewrite Hget in *. cbn in *.
  now apply match_in_put_in.
Qed.

Lemma second_fetch_from_cache_witness :
  let w' := world_of (Worker.respond Sample.env Sample.index_request) Sample.fresh in
  Worker.respond Sample.env Sample.index_request w'
  = (Ok (Sample.response (VObj [("success", VBool true)])), w', []).
Proof.
  apply (second_fetch_from_cache Sample.env Sample.fresh Sample.index_request);
    reflexivity.
Defined.

(** X24.  A request with another method than [GET] always goes to the
    network, whatever the cache holds, and its response is never stored. *)
Theorem other_methods_bypass_cache env w request :
  req_method request <> "GET" ->
  List.filter is_fetch (effects_of (Worker.respond env request) w)
  = [Fetch (href (req_url request)) (req_method request) VUndefined]
  /\ caches (world_of (Worker.respond env request) w) = caches w.
Proof.
  intros Hmethod.
  assert (Hmiss : cached w request = None).
  { unfold cached. apply String.eqb_neq in Hmethod. now rewrite Hmethod. }
  assert (Hskip : Worker.skips_cache request = true).
  { unfold Worker.skips_cache. apply String.eqb_neq in Hmethod. now rewrite Hmethod. }
  unfold effects_of, world_of. rewrite (respond_miss _ _ _ Hmiss). cbn zeta.
  rewrite Hskip. destruct (network env _ _ _ _); split; reflexivity.
Qed.

Lemma other_methods_bypass_cache_witness :
  caches (world_of (Worker.respond Sample.env Sample.report_request) Sample.precached)
  = caches Sample.precached.
Proof.
  apply (other_methods_bypass_cache Sample.env Sample.precached Sample.report_request).
  discriminate.
Defined.

(** X25.  When the cache has no answer and the network fails, the answer
    of the listener fails with the network's error: the request was sent
    once, and the cache is as before. *)
Theorem network_failure_rejects env w request :
  cached w request = None ->
  network env (tick w) (href (req_url request)) (req_method request) VUndefined
    = None ->
  exists e,
    result_of (Worker.respond env request) w = Throw e
    /\ List.filter is_fetch (effects_of (Worker.respond env request) w)
       = [Fetch (href (req_url request)) (req_method request) VUndefined]
    /\ caches (world_of (Worker.respond env request) w) = caches w.
Proof.
  intros Hmiss Hnet. unfold result_of, effects_of, world_of.
  rewrite (respond_miss _ _ _ Hmiss). cbn zeta. rewrite Hnet. eexists.
  repeat split.
Qed.

Lemma network_failure_rejects_witness :
  exists e,
    result_of (Worker.respond Sample.offline Sample.index_request) Sample.fresh
    = Throw e.
Proof.
  destruct (network_failure_rejects Sample.offline Sample.fresh Sample.index_request
              eq_refl eq_refl) as (e & He & _).
  exists e. exact He.
Defined.

End FetchFacts.

(** ** Installation *)

Section InstallFacts.
Import JS Platform System Conduct.

Lemma swLog_no_skip message w : ~ In SkipWaiting (Worker.swLog message w).2.
Proof.
  rewrite swLog_run. cbn. intros [H | H]; [discriminate |].
  apply in_map_iff in H as (c & H & _). discriminate.
Qed.

(** Every path is requested; the cache, the clients and the subscriptions
    are not touched. *)
Lemma fetch_all_run env paths w :
  exists answers w1 es,
    Worker.fetch_all env paths w = (Ok answers, w1, es)
    /\ map fst answers = map (fun path => location_origin env +:+ path) paths
    /\ caches w1 = caches w
    /\ controlled w1 = controlled w
    /\ ~ In SkipWaiting es.
Proof.
  revert w. induction paths as [|path paths IH]; intros w; cbn [Worker.fetch_all].
  - exists [], w, []. repeat split. intros [].
  - destruct (IH (next_tick w)) as (answers & w1 & es & Hrun & Hfst & Hc & Hk & Hskip).
    assert (Hone : exists answer,
      try_catch
        (let* r := fetch env (location_origin env +:+ path) "GET" VUndefined in
         ret (Some r))
        (fun _ => ret None) w
      = (Ok answer, next_tick w,
         [Fetch (location_origin env +:+ path) "GET" VUndefined])).
    { run. destruct (network env _ _ _ _); run; eauto. }
    destruct Hone as (answer & Hone).
    exists ((location_origin env +:+ path, answer) :: answers), w1.
    eexists. split; [| split; [| split; [| split]]].
    + erewrite bind_run; [| exact Hone]. cbn beta iota zeta.
      erewrite bind_run; [| exact Hrun]. reflexivity.
    + cbn. now rewrite Hfst.
    + exact Hc.
    + exact Hk.
    + cbn. rewrite app_nil_r. intros [H | H]; [discriminate | now apply Hskip].
Qed.

Lemma all_ok_fst answers responses :
  Worker.all_ok answers = Some responses -> map fst responses = map fst answers.
Proof.
  revert responses. induction answers as [|[url [r|]] answers IH];
    intros responses; cbn [Worker.all_ok]; [now intros [= <-] | | discriminate].
  destruct (resp_ok r); [| discriminate].
  destruct (Worker.all_ok answers) as [others|]; [| discriminate].
  intros [= <-]. cbn. now rewrite (IH others).
Qed.

Lemma put_in_hits name url r (l : list (string * Cache)) :
  match_in url (put_in name url r l) <> None.
Proof.
  destruct (match_in url l) eqn:Hl.
  - apply put_in_keeps_hits. congruence.
  - now rewrite match_in_put_in.
Qed.

Lemma store_all_hits name url (responses : list (string * Response))
    (l : list (string * Cache)) :
  In url (map fst responses) ->
  match_in url
    (foldl (fun acc pr => put_in name (fst pr) (snd pr) acc) l responses) <> None.
Proof.
  revert l. induction responses as [|[u r] responses IH]; intros l Hin; [destruct Hin |].
  cbn [foldl fst snd]. destruct Hin as [Hu | Hin].
  - cbn in Hu. subst u. apply store_all_keeps_hits, put_in_hits.
  - now apply IH.
Qed.

(** The answer to the [i]-th path is what the network gives at the [i]-th
    tick from the start. *)
Lemma fetch_all_nth env paths w answers w1 es i path :
  Worker.fetch_all env paths w = (Ok answers, w1, es) ->
  nth_error paths i = Some path ->
  nth_error answers i =
  Some (location_origin env +:+ path,
        network env (tick w + i) (location_origin env +:+ path) "GET" VUndefined).
Proof.
  revert w answers w1 es i.
  induction paths as [|p paths IH]; intros w answers w1 es i Hrun Hi;
    [now destruct i |].
  cbn [Worker.fetch_all] in Hrun.
  assert (Hone :
    try_catch
      (let* r := fetch env (location_origin env +:+ p) "GET" VUndefined in
       ret (Some r))
      (fun _ => ret None) w
    = (Ok (network env (tick w) (location_origin env +:+ p) "GET" VUndefined),
       next_tick w, [Fetch (location_origin env +:+ p) "GET" VUndefined])).
  { run. destruct (network env _ _ _ _); run; reflexivity. }
  destruct (fetch_all_run env paths (next_tick w))
    as (others & w2 & es2 & Hrest & _).
  erewrite bind_run in Hrun; [| exact Hone]. cbn beta iota zeta in Hrun.
  erewrite bind_run in Hrun; [| exact Hrest]. cbn in Hrun.
  injection Hrun as <- _ _.
  destruct i as [|i]; cbn [nth_error] in *.
  - injection Hi as ->. now rewrite Nat.add_0_r.
  - rewrite (IH _ _ _ _ _ Hrest Hi). cbn [tick next_tick].
    now replace (S (tick w) + i) with (tick w + S i) by lia.
Qed.

Lemma length_fetch_all env paths w answers w1 es :
  Worker.fetch_all env paths w = (Ok answers, w1, es) ->
  length answers = length paths.
Proof.
  intros Hrun. destruct (fetch_all_run env paths w) as (a & ? & ? & Hrun' & Hfst & _).
  rewrite Hrun' in Hrun. injection Hrun as -> _ _.
  now rewrite <- (length_map fst), Hfst, length_map.
Qed.

Lemma all_ok_none answers i url o :
  nth_error answers i = Some (url, o) ->
  match o with Some r => resp_ok r = false | None => True end ->
  Worker.all_ok answers = None.
Proof.
  revert i. induction answers as [|[u [r|]] answers IH]; intros i Hi Ho;
    [now destruct i | | reflexivity].
  cbn [Worker.all_ok]. destruct i as [|i]; cbn [nth_error] in Hi.
  - injection Hi as _ <-. now rewrite Ho.
  - destruct (resp_ok r); [| reflexivity]. now rewrite (IH i Hi Ho).
Qed.

Lemma all_ok_some answers :
  (forall i a, nth_error answers i = Some a ->
     exists r, snd a = Some r /\ resp_ok r = true) ->
  Worker.all_ok answers <> None.
Proof.
  induction answers as [|[u o] answers IH]; intros H; [discriminate |].
  destruct (H 0 _ eq_refl) as (r & Ho & Hr). cbn in Ho. subst o.
  cbn [Worker.all_ok]. rewrite Hr.
  destruct (Worker.all_ok answers) eqn:Hrest; [discriminate |].
  exfalso. apply IH; [| reflexivity]. intros i a Hi. exact (H (S i) a Hi).
Qed.

(** The two ways an installation ends. *)
Lemma install_run env w :
  exists answers w1 es1,
    Worker.fetch_all env Worker.PRECACHED
      (set_caches (Worker.open_cache Worker.CURRENT_CACHE) w) = (Ok answers, w1, es1)
    /\ match Worker.all_ok answers with
       | Some responses =>
           exists w' es,
             Worker.on_install env w = (Ok tt, w', es)
             /\ In SkipWaiting es
             /\ map fst responses
                = map (fun path => location_origin env +:+ path) Worker.PRECACHED
             /\ caches w' =
                foldl (fun acc pr => put_in Worker.CURRENT_CACHE (fst pr) (snd pr) acc)
                  (Worker.open_cache Worker.CURRENT_CACHE (caches w)) responses
       | None =>
           exists w' es,
             Worker.on_install env w = (Throw "TypeError: Request failed", w', es)
             /\ ~ In SkipWaiting es
             /\ caches w' = Worker.open_cache Worker.CURRENT_CACHE (caches w)
       end.
Proof.
  unfold Worker.on_install.
  destruct (fetch_all_run env Worker.PRECACHED
              (set_caches (Worker.open_cache Worker.CURRENT_CACHE) w))
    as (answers & w1 & es1 & Hrun & Hfst & Hc & _ & Hskip).
  exists answers, w1, es1. split; [exact Hrun |].
  pose proof (swLog_no_skip "Installing Service Worker" w) as Hlog.
  rewrite swLog_run in Hlog.
  destruct (Worker.all_ok answers) as [responses|] eqn:Hok.
  - do 2 eexists. split; [| split; [| split]].
    + do 2 step. erewrite bind_run; [| exact Hrun]. cbn beta iota zeta.
      rewrite Hok. do 3 step. reflexivity.
    + do 6 (apply in_or_app; right). apply in_eq.
    + rewrite <- Hfst. exact (all_ok_fst _ _ Hok).
    + cbn. now rewrite Hc.
  - do 2 eexists. split; [| split].
    + do 2 step. erewrite bind_run; [| exact Hrun]. cbn beta iota zeta.
      rewrite Hok. reflexivity.
    + cbn [fst snd app] in *. rewrite !app_nil_r. intros Hin.
      change (ConsoleLog ?x :: ?l ++ es1) with ((ConsoleLog x :: l) ++ es1) in Hin.
      apply in_app_or in Hin as [Hin | Hin]; [now apply Hlog | now apply Hskip].
    + exact Hc.
Qed.

(** X26.  When each of the five static resources is answered by the network
    with an ok status, the installation succeeds, asks to skip the waiting
    phase, and afterwards a [GET] request for any of the precached paths on
    the page's origin is answered by the worker from the cache, without any
    effect. *)
Theorem install_precaches env w :
  (forall i path, nth_error Worker.PRECACHED i = Some path ->
     exists r,
       network env (tick w + i) (location_origin env +:+ path) "GET" VUndefined
         = Some r
       /\ resp_ok r = true) ->
  let w' := world_of (Worker.on_install env) w in
  result_of (Worker.on_install env) w = Ok tt
  /\ In SkipWaiting (effects_of (Worker.on_install env) w)
  /\ forall path request,
       In path Worker.PRECACHED ->
       req_method request = "GET" ->
       href (req_url request) = location_origin env +:+ path ->
       exists r, Worker.respond env request w' = (Ok r, w', []).
Proof.
  intros Hnet w'. subst w'. unfold result_of, effects_of, world_of.
  destruct (install_run env w) as (answers & w1 & es1 & Hrun & Hcases).
  assert (Hsome : Worker.all_ok answers <> None).
  { apply all_ok_some. intros i [u o] Hi.
    assert (Hlt : i < length Worker.PRECACHED).
    { rewrite <- (length_fetch_all _ _ _ _ _ _ Hrun). apply nth_error_Some. congruence. }
    destruct (nth_error Worker.PRECACHED i) as [path|] eqn:Hp;
      [| now apply nth_error_None in Hp; lia].
    rewrite (fetch_all_nth _ _ _ _ _ _ _ _ Hrun Hp) in Hi. injection Hi as <- <-.
    exact (Hnet i path Hp). }
  destruct (Worker.all_ok answers) as [responses|]; [| congruence].
  destruct Hcases as (w' & es & Hinst & Hskip & Hfst & Hcaches).
  rewrite Hinst. cbn [fst snd]. split; [reflexivity | split; [exact Hskip |]].
  intros path request Hin Hget Hhref.
  destruct (cached w' request) as [r|] eqn:Hhit.
  - exists r. now apply respond_hit.
  - exfalso. unfold cached in Hhit. rewrite Hget in Hhit. cbn in Hhit.
    rewrite Hcaches, Hhref in Hhit. revert Hhit. apply store_all_hits.
    rewrite Hfst. now apply in_map.
Qed.

Lemma install_precaches_witness :
  let w' := world_of (Worker.on_install Sample.env) Sample.fresh in
  result_of (Worker.on_install Sample.env) Sample.fresh = Ok tt
  /\ In SkipWaiting (effects_of (Worker.on_install Sample.env) Sample.fresh)
  /\ forall path request,
       In path Worker.PRECACHED ->
       req_method request = "GET" ->
       href (req_url request) = location_origin Sample.env +:+ path ->
       exists r, Worker.respond Sample.env request w' = (Ok r, w', []).
Proof.
  apply (install_precaches Sample.env Sample.fresh).
  intros i path _. eexists. split; reflexivity.
Defined.

(** X27.  When one of the five static resources cannot be fetched, or is
    answered with a status that is not ok, the installation is rejected: the
    worker does not ask to skip the waiting phase, and no request is
    answered from the cache that was not answered from it before. *)
Theorem missing_resource_fails_install env w i path :
  nth_error Worker.PRECACHED i = Some path ->
  match network env (tick w + i) (location_origin env +:+ path) "GET" VUndefined with
  | Some r => resp_ok r = false
  | None => True
  end ->
  result_of (Worker.on_install env) w = Throw "TypeError: Request failed"
  /\ ~ In SkipWaiting (effects_of (Worker.on_install env) w)
  /\ forall request,
       cached (world_of (Worker.on_install env) w) request = cached w request.
Proof.
  intros Hp Hbad. unfold result_of, effects_of, world_of.
  destruct (install_run env w) as (answers & w1 & es1 & Hrun & Hcases).
  pose proof (fetch_all_nth _ _ _ _ _ _ _ _ Hrun Hp) as Hi.
  cbn [tick set_caches] in Hi.
  rewrite (all_ok_none _ _ _ _ Hi Hbad) in Hcases.
  destruct Hcases as (w' & es & Hinst & Hskip & Hcaches).
  rewrite Hinst. cbn [fst snd]. split; [reflexivity | split; [exact Hskip |]].
  intros request. unfold cached. rewrite Hcaches.
  destruct (String.eqb _ _); [| reflexivity]. apply open_cache_hits.
Qed.

Lemma missing_resource_fails_install_witness :
  result_of (Worker.on_install Sample.offline) Sample.fresh
    = Throw "TypeError: Request failed"
  /\ ~ In SkipWaiting (effects_of (Worker.on_install Sample.offline) Sample.fresh)
  /\ forall request,
       cached (world_of (Worker.on_install Sample.offline) Sample.fresh) request
       = cached Sample.fresh request.
Proof.
  apply (missing_resource_fails_install Sample.offline Sample.fresh 0 "/");
    [reflexivity | exact I].
Defined.

End InstallFacts.

(** ** The other listeners of the worker *)

(** Case analysis of a membership in a list of effects; the cases of log
    lines are closed. *)
Ltac sift :=
  repeat match goal with
  | H : In _ (_ ++ _) |- _ => apply in_app_or in H
  | H : In _ (_ :: _) |- _ => destruct H as [H | H]
  | H : In _ [] |- _ => destruct H
  | H : In _ (map _ _) |- _ => apply in_map_iff in H as (? & H & _)
  | H : _ \/ _ |- _ => destruct H as [H | H]
  | H : False |- _ => destruct H
  | H : _ = _ |- _ => discriminate H
  end.

Section WorkerEvents.
Import JS Platform System Conduct.

Lemma swLog_only_logs message w e :
  In e (Worker.swLog message w).2 ->
  (exists line, e = ConsoleLog line) \/ (exists c data, e = PostMessage c data).
Proof.
  rewrite swLog_run. cbn. intros [<- | H]; [eauto |].
  apply in_map_iff in H as (c & <- & _). eauto.
Qed.

(** What the deletions of the activate listener delete. *)
Lemma delete_each_effects names w name :
  In (CacheDelete name)
     (effects_of
        (for_each names
           (fun cacheName =>
              Worker.swLog ("Deleting old cache: " +:+ cacheName) ;;;
              caches_delete cacheName)) w)
  <-> In name names.
Proof.
  unfold effects_of. revert w. induction names as [|n names IH]; intros w.
  - cbn. tauto.
  - cbn [for_each].
    erewrite bind_run.
    2: { step. unfold caches_delete. step. reflexivity. }
    destruct (delete_each_run names
      (set_caches (List.filter (fun b => negb (String.eqb (fst b) n))) w))
      as [es Hes].
    specialize (IH (set_caches (List.filter (fun b => negb (String.eqb (fst b) n))) w)).
    rewrite Hes in *. cbn [fst snd] in *. split.
    + intros H. apply in_app_or in H as [H | H]; [| right; now apply IH].
      sift. left. congruence.
    + intros [-> | Hin]; apply in_or_app; [left | right; now apply IH].
      apply in_or_app. right. now left.
Qed.

Lemma activate_run env w :
  exists es,
    Worker.on_activate env w
    = (Ok tt,
       set_controlled (fun _ => window_clients env)
         (set_caches
            (delete_all (List.filter Worker.is_old_cache (map fst (caches w)))) w),
       es)
    /\ forall name,
         In (CacheDelete name) es
         <-> In name (List.filter Worker.is_old_cache (map fst (caches w))).
Proof.
  unfold Worker.on_activate.
  pose proof (delete_each_effects
    (List.filter Worker.is_old_cache (map fst (caches w))) w) as Heff.
  destruct (delete_each_run
    (List.filter Worker.is_old_cache (map fst (caches w))) w) as [es Hes].
  unfold effects_of in Heff. rewrite Hes in Heff. cbn [snd] in Heff.
  eexists. split.
  - do 2 step. erewrite bind_run; [| exact Hes]. cbn beta iota zeta.
    do 2 step. reflexivity.
  - intros name. rewrite <- Heff. split.
    + intros H. apply in_app_or in H as [H | H]; [sift |].
      apply in_app_or in H as [H | H]; [sift |].
      apply in_app_or in H as [H | H]; [exact H | sift].
    + intros H. do 2 (apply in_or_app; right). apply in_or_app. now left.
Qed.

Lemma no_old_cache_left (l : list (string * Cache)) :
  List.filter Worker.is_old_cache
    (map fst (List.filter (fun b => negb (Worker.is_old_cache (fst b))) l)) = [].
Proof.
  induction l as [|b l IH]; [reflexivity |]. cbn [List.filter].
  destruct (Worker.is_old_cache (fst b)) eqn:Hb; cbn [negb]; [exact IH |].
  cbn [map List.filter]. now rewrite Hb.
Qed.

Lemma prefix_split p s : String.prefix p s = true -> exists t, s = p +:+ t.
Proof.
  revert s. induction p as [|c p IH]; intros s H; [now exists s |].
  destruct s as [|c' s]; cbn in H; [discriminate |].
  destruct (ascii_dec c c') as [<- |]; [| discriminate].
  apply IH in H as [t ->]. now exists t.
Qed.

(** The buckets the activate listener selects, by their names. *)
Lemma old_cache_iff name :
  Worker.is_old_cache name = true
  <-> exists tag, name = "static-cache-" +:+ tag /\ tag <> "v1".
Proof.
  split.
  - unfold Worker.is_old_cache, startsWith. intros H.
    apply andb_true_iff in H as [Hprefix Hne].
    apply prefix_split in Hprefix as [tag ->]. exists tag. split; [reflexivity |].
    intros ->. apply negb_true_iff, String.eqb_neq in Hne. now apply Hne.
  - intros (tag & -> & Hne). now apply old_cache_name.
Qed.

(** X28.  Activation asks for the deletion of exactly the existing buckets
    whose name is [static-cache-] followed by a tag other than [v1].  A
    second activation right after it deletes nothing and leaves the
    buckets as they are. *)
Theorem activation_settles env w :
  let w1 := world_of (Worker.on_activate env) w in
  (forall name,
     In (CacheDelete name) (effects_of (Worker.on_activate env) w)
     <-> In name (map fst (caches w))
         /\ exists tag, name = "static-cache-" +:+ tag /\ tag <> "v1")
  /\ caches (world_of (Worker.on_activate env) w1) = caches w1
  /\ forall name, ~ In (CacheDelete name) (effects_of (Worker.on_activate env) w1).
Proof.
  intros w1. split; [| split].
  - intros name. unfold effects_of.
    destruct (activate_run env w) as (es & -> & Hes). cbn [snd].
    rewrite Hes, <- old_cache_iff. apply filter_In.
  - subst w1. rewrite !activation_caches.
    generalize (caches w). intros l. induction l as [|b l IH]; [reflexivity |].
    cbn [List.filter]. destruct (negb (Worker.is_old_cache (fst b))) eqn:Hb;
      [| exact IH].
    cbn [List.filter]. now rewrite Hb, IH.
  - intros name. unfold effects_of.
    destruct (activate_run env w1) as (es & -> & Hes). cbn [snd].
    rewrite Hes. subst w1. rewrite activation_caches, no_old_cache_left.
    intros [].
Qed.

(** The report of the worker among the effects of a listener. *)
Lemma worker_report_reports env url referrer w :
  exists result w',
    Worker.logNavigationToServer env url referrer w
      = (Ok result, w', (Worker.logNavigationToServer env url referrer w).2)
    /\ reports (Worker.logNavigationToServer env url referrer w).2
       = if has_PushManager env
         then [VObj [("url", url);
                     ("referrer", or_else referrer (VStr "unknown"));
                     ("userAgent", VStr "service-worker");
                     ("subscriptionEndpoint",
                      VStr match head (subscriptions w) with
                           | Some subscription => endpoint subscription
                           | None => "not-available-in-sw"
                           end);
                     ("timestamp", VStr (clock env (tick w)))]]
         else [].
Proof.
  destruct (worker_report_run env url referrer w) as (result & message & ->).
  do 2 eexists. split; [reflexivity |]. cbn [snd].
  destruct (has_PushManager env); cbn [reports app];
    rewrite ?worker_log_url, reports_log_posts; reflexivity.
Qed.

(** X29.  Where the registration has a push manager, a message to the
    worker makes it report exactly when its type is [log-navigation] and
    its [url] is truthy; the report carries that URL, the referrer of the
    message (or [unknown] for a falsy one), the endpoint of the active
    subscription or the worker's marker, and the time.  Where it has none,
    no message makes the worker report. *)
Theorem worker_message_reports env data w :
  reports (effects_of (Worker.on_message env data) w)
  = if is_string (field data "type") "log-navigation" && truthy (field data "url")
       && has_PushManager env
    then [VObj [("url", field data "url");
                ("referrer", or_else (field data "referrer") (VStr "unknown"));
                ("userAgent", VStr "service-worker");
                ("subscriptionEndpoint",
                 VStr match head (subscriptions w) with
                      | Some subscription => endpoint subscription
                      | None => "not-available-in-sw"
                      end);
                ("timestamp", VStr (clock env (tick w)))]]
    else [].
Proof.
  unfold Worker.on_message, effects_of. step.
  pose proof (reports_swLog
    ("Message received from client: " +:+ JSON_stringify env data) w) as Hlog.
  rewrite swLog_run in Hlog. cbn [snd] in Hlog.
  destruct (get_field data "type") as [Htype | Htype].
  - rewrite (get_none_field _ _ "type" Htype). cbn [is_string andb].
    unfold get_prop, bind. rewrite Htype. cbn [of_option throw fst snd].
    now rewrite app_nil_r.
  - unfold get_prop at 1. rewrite Htype. step.
    destruct (is_string (field data "type") "log-navigation"); cbn [andb];
      [| cbn [ret snd]; now rewrite app_nil_r].
    destruct (get_field data "url") as [Hurl | Hurl];
      [apply (get_none_any _ _ "type") in Hurl; congruence |].
    unfold get_prop at 1. rewrite Hurl. step.
    destruct (truthy (field data "url")); cbn [andb];
      [| cbn [ret snd]; now rewrite app_nil_r].
    destruct (get_field data "referrer") as [Href | Href];
      [apply (get_none_any _ _ "type") in Href; congruence |].
    unfold get_prop at 1. rewrite Href. step.
    destruct (worker_report_reports env (field data "url") (field data "referrer") w)
      as (result & w' & Hrun & Hes).
    erewrite bind_run; [| exact Hrun]. cbn [ret fst snd].
    rewrite !reports_app, Hlog, Hes. now destruct (has_PushManager env).
Qed.

Lemma find_client_some u clients c :
  Worker.find_client (VStr u) clients = Some c ->
  In c clients /\ client_url c = u.
Proof.
  induction clients as [|c' clients IH]; cbn [Worker.find_client]; [discriminate |].
  destruct (String.eqb (client_url c') u) eqn:Heq.
  - intros [= <-]. apply String.eqb_eq in Heq. split; [now left | exact Heq].
  - intros H. destruct (IH H). split; [now right | assumption].
Qed.

Lemma find_client_none u clients :
  Worker.find_client (VStr u) clients = None ->
  forall c, In c clients -> client_url c <> u.
Proof.
  induction clients as [|c' clients IH]; cbn [Worker.find_client]; [intros _ c [] |].
  destruct (String.eqb (client_url c') u) eqn:Heq; [discriminate |].
  intros H c [<- | Hin]; [now apply String.eqb_neq | now apply IH].
Qed.

(** X30.  A click on a notification whose data carry a non-empty [url]
    closes the notification and then either focuses a window that shows
    this URL, or, when no window shows it, opens a new window for it; it
    never does both. *)
Theorem notification_click_focuses_or_opens env w notification u :
  get (Worker.note_data notification) "url" = Some (VStr u) ->
  u <> "" ->
  let es := effects_of (Worker.on_notificationclick env notification) w in
  In CloseNotification es
  /\ ((exists c, In c (window_clients env) /\ client_url c = u
                 /\ In (Focus c) es
                 /\ forall v, ~ In (OpenWindow v) es)
      \/ ((forall c, In c (window_clients env) -> client_url c <> u)
          /\ In (OpenWindow (VStr u)) es
          /\ forall c, ~ In (Focus c) es)).
Proof.
  intros Hurl Hu es. subst es. unfold Worker.on_notificationclick, effects_of.
  do 2 step. unfold get_prop. rewrite Hurl. step.
  assert (Htarget : or_else (VStr u) (VStr "/") = VStr u).
  { unfold or_else. destruct u; [congruence | reflexivity]. }
  rewrite Htarget.
  destruct (Worker.find_client (VStr u) (window_clients env)) as [c|] eqn:Hfind;
    cbn [emit fst snd];
    (split; [apply in_or_app; right; apply in_or_app; left; apply in_eq |]).
  - left. exists c. destruct (find_client_some _ _ _ Hfind) as [Hin Hc].
    split; [exact Hin | split; [exact Hc | split]].
    + do 3 (apply in_or_app; right). apply in_eq.
    + intros v Hv. sift.
  - right. split; [exact (find_client_none _ _ Hfind) | split].
    + do 3 (apply in_or_app; right). apply in_eq.
    + intros c Hc. sift.
Qed.

Lemma notification_click_focuses_or_opens_witness :
  let es := effects_of (Worker.on_notificationclick Sample.env Sample.clicked_note)
              Sample.fresh in
  In CloseNotification es
  /\ ((exists c, In c (window_clients Sample.env)
                 /\ client_url c = "https://app.vercel.app/index.html"
                 /\ In (Focus c) es
                 /\ forall v, ~ In (OpenWindow v) es)
      \/ ((forall c, In c (window_clients Sample.env) ->
             client_url c <> "https://app.vercel.app/index.html")
          /\ In (OpenWindow (VStr "https://app.vercel.app/index.html")) es
          /\ forall c, ~ In (Focus c) es)).
Proof.
  apply (notification_click_focuses_or_opens Sample.env Sample.fresh
           Sample.clicked_note "https://app.vercel.app/index.html");
    [reflexivity | discriminate].
Defined.

End WorkerEvents.
